(** * recsys-cotraining: the evaluation engine and the BPR trainer

    A shallow embedding of
      - [Configuration/implementation/recommenders/Recommender.py]
        (top-K sparsification, ranking, the fast-validation cache and the
        evaluation strategies), and
      - [Configuration/implementation/recommenders/bpr.py]
        (the SGD loop and the negative sampler),
    followed by the properties of these functions.

    Conventions.
      - A Python [float] is a rational [Q]: comparisons, sums, products and
        quotients are exact, rounding ([astype(float32)]) is the identity.
      - A Python [int] used as a slice bound is a [Z]; indices and counts
        that are never negative are [nat].
      - Code that can raise returns [result]. Random draws are read from a
        finite tape of naturals; reading past its end is [TapeExhausted].
        The [while] loop of [train] runs on fuel; running out of it is
        [OutOfFuel]. Neither is a Python exception.
      - A dictionary keyed by user id is a [gmap nat _]. *)

From Stdlib Require Import QArith Qabs Qround.
From stdpp Require Import base option list sorting gmap.

Local Open Scope Q_scope.
Local Open Scope nat_scope.

(** ** Exceptions *)

Inductive exn : Set :=
  | KeyError | IndexError | ValueError | AttributeError | AssertionError
  | TypeError | ZeroDivisionError
  | TapeExhausted | OutOfFuel.

Inductive result (A : Type) : Type :=
  | Ok (a : A)
  | Raise (e : exn).
Arguments Ok {A} a.
Arguments Raise {A} e.

#[export] Instance result_ret : MRet result := λ A a, Ok a.
#[export] Instance result_bind : MBind result := λ A B f m,
  match m with Ok a => f a | Raise e => Raise e end.

#[export] Instance result_fmap : FMap result := λ A B f m,
  match m with Ok a => Ok (f a) | Raise e => Raise e end.

Definition raises {A} (m : result A) : Prop := ∃ e, m = Raise e.

(** [d[key]] on a dictionary. *)
Definition getitem {V} (d : gmap nat V) (key : nat) : result V :=
  match d !! key with Some v => Ok v | None => Raise KeyError end.

(** [a[...]] on an attribute that may still be [None]. *)
Definition subscriptable {V} (a : option V) : result V :=
  match a with Some v => Ok v | None => Raise TypeError end.

(** Reading an attribute that may not have been assigned yet. *)
Definition getattr {V} (a : option V) : result V :=
  match a with Some v => Ok v | None => Raise AttributeError end.

(** ** numpy arrays *)

Module Numpy.

(** Python's adjustment of a slice bound [i] for a sequence of [len]
    elements: a negative bound counts from the end. *)
Definition clamp_index (len : nat) (i : Z) : nat :=
  if (i <? 0)%Z then Z.to_nat (Z.max 0 (i + Z.of_nat len))
  else Nat.min (Z.to_nat i) len.

(** [l[:stop]] *)
Definition slice_to {A} (stop : option Z) (l : list A) : list A :=
  match stop with
  | None => l
  | Some z => take (clamp_index (length l) z) l
  end.

(** [l[start:]] *)
Definition slice_from {A} (start : Z) (l : list A) : list A :=
  drop (clamp_index (length l) start) l.

(** The order on array elements that sorting uses. *)
Class Ordered (A : Type) := {
  fle : A → A → bool;
  fle_total x y : fle x y = true ∨ fle y x = true;
  fle_trans x y z : fle x y = true → fle y z = true → fle x z = true
}.

#[export] Program Instance Q_ordered : Ordered Q := {| fle := Qle_bool |}.
Next Obligation.
  intros x y. rewrite !Qle_bool_iff.
  destruct (Qlt_le_dec x y) as [H|H]; [left; by apply Qlt_le_weak | by right].
Qed.
Next Obligation.
  intros x y z. rewrite !Qle_bool_iff. apply Qle_trans.
Qed.

Section argsort.
Context `{Ordered A}.

(** Position-tagged elements compare by value, then by position: the
    order a stable sort arranges them in. *)
Definition arg_leb (p q : nat * A) : bool :=
  fle p.2 q.2 && (negb (fle q.2 p.2) || (p.1 <=? q.1)).
Definition arg_le (p q : nat * A) : Prop := arg_leb p q.

(** [np.argsort(l)]: the positions of [l] in ascending order of value.
    numpy does not promise an order among equal values; the model takes
    the one of a stable sort, ascending position, which is also the
    tie-breaking by original index that the spec describes. *)
Definition argsort (l : list A) : list nat :=
  (merge_sort arg_le (imap pair l)).*1.
End argsort.

(** [np.flip(l, axis=0)], [l[::-1]] *)
Definition flip {A} (l : list A) : list A := reverse l.

(** [np.in1d(ar1, ar2, invert=invert)] on index arrays. *)
Definition in1d (ar1 ar2 : list nat) (invert : bool) : list bool :=
  (λ x, xorb invert (bool_decide (x ∈ ar2))) <$> ar1.

(** Boolean-mask indexing [l[mask]]. *)
Fixpoint mask_index {A} (l : list A) (mask : list bool) : list A :=
  match l, mask with
  | x :: l, b :: mask => if b then x :: mask_index l mask else mask_index l mask
  | _, _ => []
  end.

End Numpy.
Export Numpy.

(** ** Matrices *)

#[export] Instance Q_inhabited : Inhabited Q := populate 0%Q.
#[export] Instance Qeq_decision (x y : Q) : Decision (x == y)%Q := Qeq_dec x y.

(** A two-dimensional [numpy.ndarray], row-major. *)
Abbreviation ndarray2 A := (list (list A)) (only parsing).

Definition nrows {A} (M : ndarray2 A) : nat := length M.
Definition ncols {A} (M : ndarray2 A) : nat :=
  match M with [] => 0 | r :: _ => length r end.


(** [M[:, j]] *)
Definition column `{Inhabited A} (M : ndarray2 A) (j : nat) : list A :=
  (λ r, r !!! j) <$> M.

(** A [scipy.sparse] matrix: its shape and its stored entries
    [(row, col, value)] in storage order. Conversions between layouts
    ([tocsr], [tocoo]) keep both. *)
Record spmatrix : Type := SpMatrix {
  sp_shape : nat * nat;
  sp_entries : list (nat * nat * Q)
}.

Definition sp_row (e : nat * nat * Q) : nat := e.1.1.
Definition sp_col (e : nat * nat * Q) : nat := e.1.2.
Definition sp_val (e : nat * nat * Q) : Q := e.2.

(** [M.nnz]: the number of stored entries. *)
Definition nnz (M : spmatrix) : nat := length (sp_entries M).

(** Sum of a float array. *)
Definition Qsum (l : list Q) : Q := foldr Qplus 0%Q l.

(** The value of position [(i, j)]: stored entries of one position add up. *)
Definition value_at (M : spmatrix) (i j : nat) : Q :=
  Qsum (sp_val <$>
        filter (λ e, sp_row e = i ∧ sp_col e = j) (sp_entries M)).

(** [M.toarray()] *)
Definition toarray (M : spmatrix) : ndarray2 Q :=
  (λ i, (λ j, value_at M i j) <$> seq 0 (sp_shape M).2) <$>
  seq 0 (sp_shape M).1.

(** The nonzero positions of a dense array, row by row. *)
Definition dense_entries (W : ndarray2 Q) : list (nat * nat * Q) :=
  mjoin (imap (λ i r,
    omap (λ '(j, x), if Qeq_bool x 0 then None else Some (i, j, x))
         (imap pair r)) W).

(** [sps.csr_matrix(W)] of a dense array. *)
Definition csr_of_dense (W : ndarray2 Q) : spmatrix :=
  SpMatrix (nrows W, ncols W) (dense_entries W).

(** [M[i]] on a sparse matrix: row [i] as a [1 × ncols] matrix. *)
Definition getrow (M : spmatrix) (i : nat) : result spmatrix :=
  if decide (i < (sp_shape M).1) then
    Ok (SpMatrix (1, (sp_shape M).2)
          ((λ e, (0, sp_col e, sp_val e)) <$>
           filter (λ e, sp_row e = i) (sp_entries M)))
  else Raise IndexError.

(** [check_matrix(X, format)]: the same matrix in the layout asked for. *)
Definition check_matrix (X : spmatrix) : spmatrix := X.
Arguments check_matrix _ /.

(** [row.indices] and [row.data] of a one-row matrix. *)
Definition indices (M : spmatrix) : list nat := sp_col <$> sp_entries M.
Definition data (M : spmatrix) : list Q := sp_val <$> sp_entries M.

(** ** Top-K sparsification *)

(** The two kinds of [item_weights] that [similarityMatrixTopK] tells apart
    with [isinstance(item_weights, np.ndarray)]. *)
Inductive weights : Type :=
  | NdArray (W : ndarray2 Q)
  | Sparse (W : spmatrix).

Definition shape (w : weights) : nat * nat :=
  match w with
  | NdArray W => (nrows W, ncols W)
  | Sparse W => sp_shape W
  end.

(** [np.argsort(M, axis=0)]: entry [(a, j)] is the row of the [a]-th
    smallest element of column [j]. *)
Definition argsort_axis0 `{Ordered A, Inhabited A} (M : ndarray2 A)
    : ndarray2 nat :=
  (λ a, (λ j, argsort (column M j) !!! a) <$> seq 0 (ncols M)) <$>
  seq 0 (nrows M).

(** [W[idx, np.arange(ncols)] = 0.0]: in every column [j], the rows listed in
    column [j] of [idx] are zeroed. *)
Definition zero_out (W : ndarray2 Q) (idx : ndarray2 nat) : ndarray2 Q :=
  imap (λ r row,
    imap (λ j x, if bool_decide (r ∈ column idx j) then 0%Q else x) row) W.

(** The dense branch. *)
Definition topK_dense (item_weights : ndarray2 Q) (forceSparseOutput : bool)
    (k : Z) : weights :=
  let idx_sorted := argsort_axis0 item_weights in
  let not_top_k := slice_to (Some (- k)%Z) idx_sorted in
  let W := zero_out item_weights not_top_k in
  if forceSparseOutput then Sparse (csr_of_dense W) else NdArray W.

(** The sparse branch: one pass of the loop over [item_idx], returning the
    triples it appends to [values], [rows], [cols]. [dataIndices] stands
    for the stored entries at those positions. *)
Definition topK_column (item_weights : spmatrix) (k : Z) (item_idx : nat)
    : list (nat * nat * Q) :=
  let dataIndices := filter (λ e, sp_col e = item_idx) (sp_entries item_weights) in
  let dataValue := sp_val <$> dataIndices in
  let dataRow := sp_row <$> dataIndices in
  let idx_sorted := argsort dataValue in
  let top_k_idx := slice_from (- k)%Z idx_sorted in
  (λ p, (dataRow !!! p, item_idx, dataValue !!! p)) <$> top_k_idx.

Definition topK_sparse (item_weights : spmatrix) (k : Z) : weights :=
  let nitems := (sp_shape item_weights).2 in
  Sparse (SpMatrix (nitems, nitems)
            (seq 0 nitems ≫= topK_column item_weights k)).

Definition similarityMatrixTopK (item_weights : weights)
    (forceSparseOutput : bool) (k : Z) : result weights :=
  if decide ((shape item_weights).1 = (shape item_weights).2) then
    match item_weights with
    | NdArray W => Ok (topK_dense W forceSparseOutput k)
    | Sparse W => Ok (topK_sparse W k)
    end
  else Raise AssertionError.

(** Column [j] of the result, as a dense array. *)
Definition weights_column (w : weights) (j : nat) : list Q :=
  match w with
  | NdArray W => column W j
  | Sparse W => column (toarray W) j
  end.

(** The number of nonzero entries of an array. *)
Definition count_nonzero (l : list Q) : nat :=
  length (filter (λ x, ¬ (x == 0)%Q) l).

(** ** The recommender object *)

(** The four dictionaries that [initializeURMDictionary] fills. Before its
    first run the attributes do not exist; they are modelled as empty
    dictionaries, on which every lookup raises as well. *)
Record FastValidationCache : Type := {
  URM_test_relevantItems : gmap nat (list nat);
  URM_test_ratings : gmap nat (list Q);
  URM_train_user_profile : gmap nat spmatrix;
  URM_train_relevantItems : gmap nat (list nat)
}.

Definition empty_cache : FastValidationCache :=
  {| URM_test_relevantItems := ∅; URM_test_ratings := ∅;
     URM_train_user_profile := ∅; URM_train_relevantItems := ∅ |}.

(** The attributes of a [Recommender] that the modelled methods read or
    write. [None] is an attribute that is [None] or not yet assigned.
    [dictionary_builds] is a ghost counter of the runs of
    [initializeURMDictionary]. *)
Record Recommender : Type := {
  URM_train : option spmatrix;
  sparse_weights : bool;
  normalize : bool;
  FastValidation_initialized : bool;
  filterTopPop : bool;
  W_sparse : option spmatrix;
  W : option (ndarray2 Q);
  filterTopPop_ItemsID : option (list nat);
  URM_test : option spmatrix;
  at_ : option Z;
  minRatingsPerUser : nat;
  exclude_seen : bool;
  cache : FastValidationCache;
  dictionary_builds : nat
}.

(** [Recommender.__init__] *)
Definition init : Recommender :=
  {| URM_train := None; sparse_weights := true; normalize := true;
     FastValidation_initialized := false; filterTopPop := false;
     W_sparse := None; W := None; filterTopPop_ItemsID := None;
     URM_test := None; at_ := None; minRatingsPerUser := 0;
     exclude_seen := false; cache := empty_cache; dictionary_builds := 0 |}.

(** *** Scoring *)

(** [A @ B] for a dense [A] and a dense [B] of [m] columns. *)
Definition matmul (A B : ndarray2 Q) (m : nat) : ndarray2 Q :=
  (λ a, (λ j, Qsum (zip_with Qmult a (column B j))) <$> seq 0 m) <$> A.

(** [A.dot(W)] for a sparse [A] and a dense [W]. *)
Definition dot_dense (A : spmatrix) (W : ndarray2 Q) : result (ndarray2 Q) :=
  if decide ((sp_shape A).2 = nrows W)
  then Ok (matmul (toarray A) W (ncols W))
  else Raise ValueError.

(** [A.dot(W).toarray()] for sparse [A] and [W]. *)
Definition dot_sparse (A W : spmatrix) : result (ndarray2 Q) :=
  if decide ((sp_shape A).2 = (sp_shape W).1)
  then Ok (matmul (toarray A) (toarray W) (sp_shape W).2)
  else Raise ValueError.

(** [M.ravel()] *)
Definition ravel {A} (M : ndarray2 A) : list A := mjoin M.

(** [profile.dot(self.W_sparse)] or [profile.dot(self.W)], by
    [self.sparse_weights]. *)
Definition dot_weights (self : Recommender) (profile : spmatrix)
    : result (ndarray2 Q) :=
  if sparse_weights self
  then Ws ← getattr (W_sparse self); dot_sparse profile Ws
  else Wd ← getattr (W self); dot_dense profile Wd.

(** [rated = profile.copy(); rated.data = np.ones_like(rated.data)] *)
Definition ones_like (profile : spmatrix) : spmatrix :=
  SpMatrix (sp_shape profile)
    ((λ e, (sp_row e, sp_col e, 1%Q)) <$> sp_entries profile).

(** [den[np.abs(den) < 1e-6] = 1.0] *)
Definition clamp_den (den : list Q) : list Q :=
  (λ d, if Qle_bool (1 # 1000000) (Qabs d) then d else 1%Q) <$> den.

(** The score vector that [recommend] ranks: the dot product, divided by
    the clamped denominator when [self.normalize] is set. *)
Definition compute_scores (self : Recommender) (user_profile : spmatrix)
    : result (list Q) :=
  scores ← ravel <$> dot_weights self user_profile;
  if normalize self then
    den ← ravel <$> dot_weights self (ones_like user_profile);
    mret (zip_with Qdiv scores (clamp_den den))
  else mret scores.

(** *** Ranking *)

Definition _filter_TopPop (self : Recommender) (ranking : list nat)
    : result (list nat) :=
  ids ← getattr (filterTopPop_ItemsID self);
  let nonTopPop_mask := in1d ranking ids true in
  mret (mask_index ranking nonTopPop_mask).

Definition _filter_seen (self : Recommender) (user_id : nat)
    (ranking : list nat) : result (list nat) :=
  seen ← getitem (URM_train_relevantItems (cache self)) user_id;
  let unseen_mask := in1d ranking seen true in
  mret (mask_index ranking unseen_mask).

Definition recommend (self : Recommender) (user_id : nat) (n : option Z)
    (exclude_seen filterTopPop : bool) : result (list nat) :=
  user_profile ← getitem (URM_train_user_profile (cache self)) user_id;
  scores ← compute_scores self user_profile;
  let ranking := flip (argsort scores) in
  ranking ← (if exclude_seen then _filter_seen self user_id ranking
             else mret ranking);
  ranking ← (if filterTopPop then _filter_TopPop self ranking
             else mret ranking);
  mret (slice_to n ranking).

(** ** The fast-validation cache *)

(** [A - B] on sparse matrices of one shape: only nonzero differences are
    stored. *)
Definition sp_sub (A B : spmatrix) : spmatrix :=
  SpMatrix (sp_shape A)
    (dense_entries (zip_with (zip_with Qminus) (toarray A) (toarray B))).

Definition areURMequals (URM1 URM2 : option spmatrix) : bool :=
  match URM1, URM2 with
  | Some A, Some B =>
      if decide (sp_shape A = sp_shape B) then nnz (sp_sub A B) =? 0
      else false
  | _, _ => false
  end.

(** The loop of [initializeURMDictionary]: an exception leaves the entries
    written so far in place. *)
Fixpoint fill_cache (train test : spmatrix) (users : list nat)
    (c : FastValidationCache) : FastValidationCache * result () :=
  match users with
  | [] => (c, Ok ())
  | user_id :: users =>
      match getrow train user_id with
      | Raise e => (c, Raise e)
      | Ok trainData =>
          match getrow test user_id with
          | Raise e => (c, Raise e)
          | Ok testData =>
              fill_cache train test users
                {| URM_train_user_profile :=
                     <[user_id := trainData]> (URM_train_user_profile c);
                   URM_train_relevantItems :=
                     <[user_id := indices trainData]> (URM_train_relevantItems c);
                   URM_test_relevantItems :=
                     <[user_id := indices testData]> (URM_test_relevantItems c);
                   URM_test_ratings :=
                     <[user_id := data testData]> (URM_test_ratings c) |}
          end
      end
  end.

(** A method that mutates [self] returns the object as the call leaves it,
    also when it raises, and the outcome. *)
Definition initializeURMDictionary (self : Recommender)
    (train test : spmatrix) : Recommender * result () :=
  let nusers := (sp_shape test).1 in
  let '(c, r) := fill_cache train test (seq 0 nusers) empty_cache in
  ({| URM_train := self.(URM_train); sparse_weights := self.(sparse_weights);
      normalize := self.(normalize);
      FastValidation_initialized := true;
      filterTopPop := self.(filterTopPop); W_sparse := self.(W_sparse);
      W := self.(W); filterTopPop_ItemsID := self.(filterTopPop_ItemsID);
      URM_test := self.(URM_test); at_ := self.(at_);
      minRatingsPerUser := self.(minRatingsPerUser);
      exclude_seen := self.(exclude_seen);
      cache := c;
      dictionary_builds := S self.(dictionary_builds) |}, r).

(** The assignment [self.URM_test = check_matrix(URM_test)] and the
    assignments [self.at = at], [self.minRatingsPerUser = ...],
    [self.exclude_seen = ...] of [evaluateRecommendations]. *)
Definition set_URM_test (self : Recommender) (M : spmatrix) : Recommender :=
  {| URM_train := self.(URM_train); sparse_weights := self.(sparse_weights);
     normalize := self.(normalize);
     FastValidation_initialized := self.(FastValidation_initialized);
     filterTopPop := self.(filterTopPop); W_sparse := self.(W_sparse);
     W := self.(W); filterTopPop_ItemsID := self.(filterTopPop_ItemsID);
     URM_test := Some M; at_ := self.(at_);
     minRatingsPerUser := self.(minRatingsPerUser);
     exclude_seen := self.(exclude_seen);
     cache := self.(cache);
     dictionary_builds := self.(dictionary_builds) |}.

Definition set_options (self : Recommender) (at' : option Z)
    (minRatingsPerUser' : nat) (exclude_seen' : bool) : Recommender :=
  {| URM_train := self.(URM_train); sparse_weights := self.(sparse_weights);
     normalize := self.(normalize);
     FastValidation_initialized := self.(FastValidation_initialized);
     filterTopPop := self.(filterTopPop); W_sparse := self.(W_sparse);
     W := self.(W); filterTopPop_ItemsID := self.(filterTopPop_ItemsID);
     URM_test := self.(URM_test); at_ := at';
     minRatingsPerUser := minRatingsPerUser';
     exclude_seen := exclude_seen';
     cache := self.(cache);
     dictionary_builds := self.(dictionary_builds) |}.

(** [evaluateRecommendations]; its [mode] and [filterTopPop] arguments are
    not read by the body and are left out. [self.URM_train] is assigned its
    own value in the layout asked for, which fails when it is [None]. *)
Definition evaluateRecommendations (self : Recommender) (test : spmatrix)
    (at' : option Z) (minRatingsPerUser : nat) (exclude_seen : bool)
    (fastValidation : bool) : Recommender * result () :=
  let recomputeFastValidationDictionary :=
    if FastValidation_initialized self
    then negb (areURMequals self.(URM_test) (Some test))
    else true in
  let self := set_URM_test self (check_matrix test) in
  match check_matrix <$> getattr self.(URM_train) with
  | Raise e => (self, Raise e)
  | Ok train =>
      let self := set_options self at' minRatingsPerUser exclude_seen in
      if negb fastValidation || recomputeFastValidationDictionary
      then initializeURMDictionary self train test
      else (self, Ok ())
  end.

(** ** Sequential evaluation *)

(** The six running sums and the counter of [evaluateRecommendationsSequential]. *)
Record accumulator : Type := {
  roc_auc_ : Q; precision_ : Q; recall_ : Q; map_ : Q; mrr_ : Q; ndcg_ : Q;
  n_eval : nat
}.

(** The dictionary [results_run], which always has these six keys. *)
Record results_run : Type := {
  AUC : Q; r_precision : Q; r_recall : Q; r_map : Q; NDCG : Q; MRR : Q
}.

Definition Qnat (n : nat) : Q := inject_Z (Z.of_nat n).

Section Metrics.
(** The functions imported from [.metrics], which is not part of the
    sources at hand: any six functions of these signatures. *)
Variables roc_auc precision rr : list bool → Q.
Variables recall map : list bool → list nat → Q.
Variable ndcg : list nat → list nat → list Q → option Z → Q.

(** One pass of the loop over [usersToEvaluate]. *)
Definition evaluate_user (self : Recommender) (acc : accumulator)
    (test_user : nat) : result accumulator :=
  relevant_items ← getitem (URM_test_relevantItems (cache self)) test_user;
  let n_eval' := S (n_eval acc) in
  recommended_items ←
    recommend self test_user (at_ self) (exclude_seen self) (filterTopPop self);
  let is_relevant := in1d recommended_items relevant_items false in
  relevance ← getitem (URM_test_ratings (cache self)) test_user;
  mret {| roc_auc_ := roc_auc_ acc + roc_auc is_relevant;
          precision_ := precision_ acc + precision is_relevant;
          recall_ := recall_ acc + recall is_relevant relevant_items;
          map_ := map_ acc + map is_relevant relevant_items;
          mrr_ := mrr_ acc + rr is_relevant;
          ndcg_ := ndcg_ acc +
                   ndcg recommended_items relevant_items relevance (at_ self);
          n_eval := n_eval' |}%Q.

Fixpoint evaluate_users (self : Recommender) (acc : accumulator)
    (usersToEvaluate : list nat) : result accumulator :=
  match usersToEvaluate with
  | [] => mret acc
  | test_user :: rest =>
      acc ← evaluate_user self acc test_user;
      evaluate_users self acc rest
  end.

Definition accumulator0 : accumulator :=
  {| roc_auc_ := 0; precision_ := 0; recall_ := 0; map_ := 0; mrr_ := 0;
     ndcg_ := 0; n_eval := 0 |}.

Definition evaluateRecommendationsSequential (self : Recommender)
    (usersToEvaluate : list nat) : result results_run :=
  acc ← evaluate_users self accumulator0 usersToEvaluate;
  if decide (0 < n_eval acc) then
    mret {| AUC := roc_auc_ acc / Qnat (n_eval acc);
            r_precision := precision_ acc / Qnat (n_eval acc);
            r_recall := recall_ acc / Qnat (n_eval acc);
            r_map := map_ acc / Qnat (n_eval acc);
            NDCG := ndcg_ acc / Qnat (n_eval acc);
            MRR := mrr_ acc / Qnat (n_eval acc) |}%Q
  else
    mret {| AUC := roc_auc_ acc; r_precision := precision_ acc;
            r_recall := recall_ acc; r_map := map_ acc;
            NDCG := ndcg_ acc; MRR := mrr_ acc |}.
End Metrics.

(** ** Random-candidate-sampled evaluation *)

(** A computation that reads random draws from a tape. *)
Definition rand (A : Type) : Type := list nat → result (A * list nat).

Definition rret {A} (a : A) : rand A := λ tape, Ok (a, tape).
Definition rbind {A B} (m : rand A) (k : A → rand B) : rand B :=
  λ tape, match m tape with
          | Ok (a, tape) => k a tape
          | Raise e => Raise e
          end.
Definition rraise {A} (e : exn) : rand A := λ _, Raise e.
Definition rlift {A} (m : result A) : rand A :=
  λ tape, match m with Ok a => Ok (a, tape) | Raise e => Raise e end.

Notation "'let*' x := m 'in' k" := (rbind m (λ x, k))
  (at level 10, x name, m at level 100, k at level 200).

(** One raw draw. *)
Definition draw : rand nat :=
  λ tape, match tape with
          | [] => Raise TapeExhausted
          | d :: tape => Ok (d, tape)
          end.

(** [random.sample(population, k)]: [k] distinct elements, each chosen
    among those not yet taken. *)
Fixpoint random_sample (population : list nat) (k : nat) : rand (list nat) :=
  match k with
  | 0 => rret []
  | S k =>
      match population with
      | [] => rraise ValueError
      | _ :: _ =>
          let* d := draw in
          let j := d mod length population in
          let* rest := random_sample (delete j population) k in
          rret (population !!! j :: rest)
      end
  end.

(** [np.where(mask)]: a tuple holding one array, the positions set in [mask]. *)
Definition np_where (mask : list bool) : list (list nat) :=
  [omap (λ p : nat * bool, if p.2 then Some p.1 else None) (imap pair mask)].

(** The three attributes that [evaluateRecommendationsRandomEquivalent]
    adds to [self]. *)
Record RandomEquivalent : Type := {
  allItemsSet : gset nat;
  numRandomItems : nat;
  evaluateRecommendationsRandomEquivalent_hit : nat
}.

(** The loop over the test items of one user: [ranking] and [hitCount] are
    carried from one item to the next. *)
Fixpoint oneUser_items (unseenItems : gset nat) (numRandomItems : nat)
    (ranking : list nat) (hitCount : nat) (test_items : list nat)
    : rand (list nat * nat) :=
  match test_items with
  | [] => rret (ranking, hitCount)
  | test_item :: rest =>
      let* sampled := random_sample (elements unseenItems) numRandomItems in
      let other_items := sampled ++ [test_item] in
      let items_mask := in1d ranking other_items false in
      let ranking := mask_index ranking items_mask in
      let item_position :=
        np_where ((λ x, bool_decide (x = test_item)) <$> ranking) in
      let hitCount :=
        if decide (0 < length item_position) then S hitCount else hitCount in
      oneUser_items unseenItems numRandomItems ranking hitCount rest
  end.

Definition evaluateRecommendationsRandomEquivalent_oneUser
    (self : Recommender) (re : RandomEquivalent) (test_user : nat)
    : rand RandomEquivalent :=
  let hitCount := 0 in
  let* test_items :=
    rlift (getitem (URM_test_relevantItems (cache self)) test_user) in
  let seenItems : gset nat := list_to_set test_items in
  (* [seenItems.union(...)] builds a new set, which is dropped *)
  let* train_items :=
    rlift (getitem (URM_train_relevantItems (cache self)) test_user) in
  let unseenItems := allItemsSet re ∖ seenItems in
  let* user_profile :=
    rlift (getitem (URM_train_user_profile (cache self)) test_user) in
  let* scores := rlift (ravel <$> dot_weights self user_profile) in
  let ranking := flip (argsort scores) in
  let ranking := slice_to (Some 100%Z) ranking in
  let* out :=
    oneUser_items unseenItems (numRandomItems re) ranking hitCount test_items in
  rret {| allItemsSet := allItemsSet re;
          numRandomItems := numRandomItems re;
          evaluateRecommendationsRandomEquivalent_hit :=
            evaluateRecommendationsRandomEquivalent_hit re + out.2 |}.

Fixpoint randomEquivalent_users (self : Recommender) (re : RandomEquivalent)
    (usersToEvaluate : list nat) : rand RandomEquivalent :=
  match usersToEvaluate with
  | [] => rret re
  | test_user :: rest =>
      let* re := evaluateRecommendationsRandomEquivalent_oneUser self re test_user in
      randomEquivalent_users self re rest
  end.

Definition evaluateRecommendationsRandomEquivalent (self : Recommender)
    (usersToEvaluate : list nat) (numRandomItems' : nat) : rand results_run :=
  let* test := rlift (getattr (URM_test self)) in
  let nitems := (sp_shape test).2 in
  let re := {| allItemsSet := list_to_set (seq 0 nitems);
               numRandomItems := numRandomItems';
               evaluateRecommendationsRandomEquivalent_hit := 0 |} in
  let* re := randomEquivalent_users self re usersToEvaluate in
  let hitCount := evaluateRecommendationsRandomEquivalent_hit re in
  if decide (nnz test = 0) then rraise ZeroDivisionError
  else
    let recall_value := (Qnat hitCount / Qnat (nnz test))%Q in
    rret {| AUC := 0; r_precision := 0; r_recall := recall_value;
            r_map := 0; NDCG := 0; MRR := 0 |}.

(** ** Batch ranking *)

(** A score that may have been overwritten by [-np.inf]. *)
Inductive score : Type :=
  | NegInf
  | Finite (x : Q).

#[export] Instance score_inhabited : Inhabited score := populate NegInf.

Definition score_le (x y : score) : bool :=
  match x, y with
  | NegInf, _ => true
  | Finite _, NegInf => false
  | Finite a, Finite b => Qle_bool a b
  end.

#[export] Program Instance score_ordered : Ordered score := {| fle := score_le |}.
Next Obligation.
  intros [|x] [|y]; simpl; auto. exact (fle_total (A:=Q) x y).
Qed.
Next Obligation.
  intros [|x] [|y] [|z]; simpl; auto; try discriminate.
  exact (fle_trans (A:=Q) x y z).
Qed.

(** [M[rows]] on a sparse matrix with a list of row numbers. *)
Definition getrows (M : spmatrix) (rows : list nat) : result spmatrix :=
  if decide (Forall (λ i, i < (sp_shape M).1) rows) then
    Ok (SpMatrix (length rows, (sp_shape M).2)
          (mjoin (imap (λ a i,
             (λ e, (a, sp_col e, sp_val e)) <$>
             filter (λ e, sp_row e = i) (sp_entries M)) rows)))
  else Raise IndexError.

(** [scores_array[relevant_items != 0] = -np.inf] *)
Definition mask_neg_inf (scores_array : ndarray2 Q)
    (relevant_items : ndarray2 Q) : result (ndarray2 score) :=
  if decide (length relevant_items = length scores_array ∧
             Forall2 (λ r s, length r = length s) relevant_items scores_array)
  then Ok (zip_with (zip_with (λ r s,
             if Qeq_bool r 0 then Finite s else NegInf))
           relevant_items scores_array)
  else Raise IndexError.

(** [np.fliplr(M)] and [M[:, :n]] *)
Definition fliplr {A} (M : ndarray2 A) : ndarray2 A := reverse <$> M.
Definition slice_columns_to {A} (n : option Z) (M : ndarray2 A) : ndarray2 A :=
  slice_to n <$> M.

(** [recommendBatch]. The test [relevant_items==None] is read as
    [relevant_items is None]. *)
Definition recommendBatch (self : Recommender)
    (users_to_recommend_list : list nat) (n : option Z) (exclude_seen : bool)
    (relevant_items : option (ndarray2 Q)) : result (ndarray2 nat) :=
  train ← subscriptable (URM_train self);
  user_profile_batch ← getrows train users_to_recommend_list;
  scores_array ← dot_weights self user_profile_batch;
  if normalize self then Raise ValueError
  else
    masked ←
      (if exclude_seen return result (ndarray2 score) then
         match relevant_items return result (ndarray2 score) with
         | None => Raise ValueError
         | Some relevant_items => mask_neg_inf scores_array relevant_items
         end
       else Ok ((λ row : list Q, Finite <$> row) <$> scores_array));
    let ranking := argsort_axis0 masked in
    let ranking := fliplr ranking in
    mret (slice_columns_to n ranking).

(** ** The BPR trainer *)

Module BPR.

(** The attributes of a [BPRMF_THEANO] that sampling and the training loop
    read or write. *)
Record BPRMF_THEANO (params : Type) : Type := {
  _n_users : nat;
  _n_items : nat;
  URM_train : option spmatrix;
  batch_size : nat;
  eligibleUsers : list nat;
  userSeenItems : gmap nat (list nat);
  (** the shared variables [W], [H] and [B] *)
  shared : params
}.
Arguments _n_users {params} _.
Arguments _n_items {params} _.
Arguments URM_train {params} _.
Arguments batch_size {params} _.
Arguments eligibleUsers {params} _.
Arguments userSeenItems {params} _.
Arguments shared {params} _.

Section Trainer.
Context {params : Type}.
(** The compiled Theano function: one gradient step on a minibatch. *)
Variable train_model : params → list nat → list nat → list nat → params.

(** The loop of [initializeFastSampling]. *)
Fixpoint eligible_loop (train : spmatrix) (users : list nat)
    (eligible : list nat) (seen : gmap nat (list nat))
    : result (list nat * gmap nat (list nat)) :=
  match users with
  | [] => mret (eligible, seen)
  | user_id :: users =>
      row ← getrow train user_id;
      if decide (0 < nnz row) then
        eligible_loop train users (eligible ++ [user_id])
          (<[user_id := indices row]> seen)
      else eligible_loop train users eligible seen
  end.

Definition initializeFastSampling (self : BPRMF_THEANO params)
    : result (BPRMF_THEANO params) :=
  train ← subscriptable (URM_train self);
  '(eligible, seen) ← eligible_loop train (seq 0 (_n_users self)) [] ∅;
  mret {| _n_users := _n_users self; _n_items := _n_items self;
          URM_train := URM_train self; batch_size := batch_size self;
          eligibleUsers := eligible; userSeenItems := seen;
          shared := shared self |}.

(** [numpy.random.choice(a)]: one element of [a]. *)
Definition choice (a : list nat) : rand nat :=
  match a with
  | [] => rraise ValueError
  | _ :: _ => let* d := draw in rret (a !!! (d mod length a))
  end.

(** [numpy.random.choice(a, size=size)] *)
Fixpoint choices (a : list nat) (size : nat) : rand (list nat) :=
  match size with
  | 0 => rret []
  | S size =>
      let* x := choice a in
      let* xs := choices a size in
      rret (x :: xs)
  end.

(** The rejection loop [while(not negItemSelected)] around
    [numpy.random.randint(0, n_items)]: it goes on for as long as the draws
    fall in [seen]. *)
Fixpoint sample_negative (seen : list nat) (n_items : nat) (tape : list nat)
    : result (nat * list nat) :=
  match tape with
  | [] => if decide (n_items = 0) then Raise ValueError else Raise TapeExhausted
  | d :: tape =>
      if decide (n_items = 0) then Raise ValueError
      else
        let neg_item_id := d mod n_items in
        if bool_decide (neg_item_id ∉ seen) then Ok (neg_item_id, tape)
        else sample_negative seen n_items tape
  end.

(** The loop over [user_id_list]. *)
Fixpoint sample_items (self : BPRMF_THEANO params) (user_id_list : list nat)
    : rand (list nat * list nat) :=
  match user_id_list with
  | [] => rret ([], [])
  | user_id :: rest =>
      let* seen := rlift (getitem (userSeenItems self) user_id) in
      let* pos := choice seen in
      let* neg := sample_negative seen (_n_items self) in
      let* more := sample_items self rest in
      rret (pos :: more.1, neg :: more.2)
  end.

Definition sampleBatch (self : BPRMF_THEANO params)
    : rand (list nat * list nat * list nat) :=
  let* user_id_list := choices (eligibleUsers self) (batch_size self) in
  let* items := sample_items self user_id_list in
  rret (user_id_list, items.1, items.2).

(** The [while] loop of [train]; [z] counts the calls of [train_model]. *)
Fixpoint train_loop (fuel : nat) (self : BPRMF_THEANO params)
    (n_sgd_samples z : nat) (W : params) : rand (nat * params) :=
  if decide ((z + 1) * batch_size self < n_sgd_samples) then
    match fuel with
    | 0 => rraise OutOfFuel
    | S fuel =>
        let* batch := sampleBatch self in
        let W := train_model W batch.1.1 batch.1.2 batch.2 in
        train_loop fuel self n_sgd_samples (z + 1) W
    end
  else rret (z, W).

(** [train]: the number of SGD steps taken and the trained object. *)
Definition train (fuel : nat) (self : BPRMF_THEANO params)
    (train_data : spmatrix) (epochs batch_size' : nat)
    : rand (nat * BPRMF_THEANO params) :=
  let train_data := check_matrix train_data in
  let n_sgd_samples := epochs * nnz train_data in
  let self := {| _n_users := _n_users self; _n_items := _n_items self;
                 URM_train := Some train_data; batch_size := batch_size';
                 eligibleUsers := eligibleUsers self;
                 userSeenItems := userSeenItems self;
                 shared := shared self |} in
  let* self := rlift (initializeFastSampling self) in
  let* out := train_loop fuel self n_sgd_samples 0 (shared self) in
  rret (out.1,
        {| _n_users := _n_users self; _n_items := _n_items self;
           URM_train := URM_train self; batch_size := batch_size self;
           eligibleUsers := eligibleUsers self;
           userSeenItems := userSeenItems self;
           shared := out.2 |}).
End Trainer.

End BPR.

(** ** Vocabulary of the properties *)

(** The order of two positions in [argsort l]: by value, and by position
    among equal values. *)
Definition before `{Ordered A} (l : list A) (i j : nat) : Prop :=
  ∃ x y, l !! i = Some x ∧ l !! j = Some y ∧
         fle x y = true ∧ (fle y x = true → i ≤ j).


(** The score of [ranking]'s items does not increase (resp. decreases)
    from each item to every later one. *)
Definition score_ge (scores : list Q) (i j : nat) : Prop :=
  ∃ x y, scores !! i = Some x ∧ scores !! j = Some y ∧ (y <= x)%Q.
Definition score_gt (scores : list Q) (i j : nat) : Prop :=
  ∃ x y, scores !! i = Some x ∧ scores !! j = Some y ∧ (y < x)%Q.
Definition descending (scores : list Q) (ranking : list nat) : Prop :=
  StronglySorted (score_ge scores) ranking.
Definition strictly_descending (scores : list Q) (ranking : list nat) : Prop :=
  StronglySorted (score_gt scores) ranking.

(** The weights that [self.sparse_weights] selects are there and fit the
    one-row [profile]; they have [n_items] columns. *)
Definition fitted (self : Recommender) (profile : spmatrix) (n_items : nat)
    : Prop :=
  (sp_shape profile).1 = 1 ∧
  if sparse_weights self then
    ∃ Ws, W_sparse self = Some Ws ∧ (sp_shape profile).2 = (sp_shape Ws).1 ∧
          (sp_shape Ws).2 = n_items
  else
    ∃ Wd, W self = Some Wd ∧ (sp_shape profile).2 = nrows Wd ∧
          ncols Wd = n_items.

(** *** Sample data *)

(** A recommender holding [train] and the given weights, as a model's
    [fit] leaves it. *)
Definition fitted_recommender (train : spmatrix) (sparse normalized : bool)
    (Ws : option spmatrix) (Wd : option (ndarray2 Q)) : Recommender :=
  {| URM_train := Some train; sparse_weights := sparse;
     normalize := normalized;
     FastValidation_initialized := false; filterTopPop := false;
     W_sparse := Ws; W := Wd; filterTopPop_ItemsID := None;
     URM_test := None; at_ := None; minRatingsPerUser := 0;
     exclude_seen := false; cache := empty_cache; dictionary_builds := 0 |}.

(** Two users, three items; item 0 is similar to items 1 and 2 alike. *)
Definition train23 : spmatrix :=
  SpMatrix (2, 3) [(0, 0, 1%Q); (1, 1, 2%Q); (1, 2, 1%Q)].
Definition test23 : spmatrix :=
  SpMatrix (2, 3) [(1, 0, 1%Q)].
Definition sim3 : spmatrix :=
  SpMatrix (3, 3) [(0, 1, (1 # 2)%Q); (0, 2, (1 # 2)%Q); (1, 0, (1 # 2)%Q);
                   (2, 0, (1 # 2)%Q); (1, 2, (1 # 4)%Q); (2, 1, (1 # 4)%Q)].
Definition knn23 : Recommender :=
  (evaluateRecommendations (fitted_recommender train23 true false (Some sim3) None)
     test23 (Some 5%Z) 1 true true).1.

(** The full ranking of [recommend] before truncation: items by descending
    score, without the seen items when [ex] is set and without the
    top-popular ones when [ftp] is set. *)
Definition filtered_ranking (scores : list Q) (ex : bool) (seen : list nat)
    (ftp : bool) (ids : list nat) : list nat :=
  filter (λ i, ftp = true → i ∉ ids)
    (filter (λ i, ex = true → i ∉ seen) (flip (argsort scores))).

(** The score vector [recommend] computes for a cached user. *)
Definition user_scores (self : Recommender) (user_id : nat) : result (list Q) :=
  user_profile ← getitem (URM_train_user_profile (cache self)) user_id;
  compute_scores self user_profile.

(** *** The fast-validation cache *)

(** Two matrices are structurally equal: same shape, same value at every
    position. *)
Definition structurally_equal (A B : spmatrix) : Prop :=
  sp_shape A = sp_shape B ∧
  ∀ i j, i < (sp_shape A).1 → j < (sp_shape A).2 →
         (value_at A i j == value_at B i j)%Q.

(** The objects that calls of [evaluateRecommendations] lead to, from a
    newly constructed or newly fitted recommender. *)
Inductive reachable : Recommender → Prop :=
  | reachable_init : reachable init
  | reachable_fitted train sparse normalized Ws Wd :
      reachable (fitted_recommender train sparse normalized Ws Wd)
  | reachable_evaluate self test at' minRatings ex fastValidation :
      reachable self →
      reachable
        (evaluateRecommendations self test at' minRatings ex fastValidation).1.




(** *** Random-candidate sampling *)

(** The candidate list of a user: the 100 best-scored items. *)
Definition top100 (scores : list Q) : list nat :=
  slice_to (Some 100%Z) (flip (argsort scores)).

(** The held-out item survives in the restriction of [candidates] to the
    held-out item and the random items. *)
Definition survives (candidates : list nat) (held_out : nat)
    (randoms : list nat) : Prop :=
  held_out ∈ filter (λ x, x ∈ held_out :: randoms) candidates.

(** One user and 101 items: the user has item 0 in training, item 0 is
    similar to item [j] with weight [101 - j], and the held-out test item is
    item 100, the one of lowest score. *)
Definition train101 : spmatrix := SpMatrix (1, 101) [(0, 0, 1%Q)].
Definition test101 : spmatrix := SpMatrix (1, 101) [(0, 100, 1%Q)].
Definition sim101 : spmatrix :=
  SpMatrix (101, 101) ((λ j, (0, j, Qnat (101 - j))) <$> seq 0 101).
Definition knn101 : Recommender :=
  (evaluateRecommendations (fitted_recommender train101 true false (Some sim101) None)
     test101 (Some 5%Z) 1 true true).1.

(** *** The BPR sampler *)

(** The seen-item set of user [u] derived from the training matrix: the
    column indices stored in row [u]. *)
Definition train_seen {params} (self : BPR.BPRMF_THEANO params) (u : nat)
    : list nat :=
  match BPR.URM_train self with
  | Some M => match getrow M u with Ok row => indices row | Raise _ => [] end
  | None => []
  end.

(** An eligible user: one of the [_n_users] users, with at least one
    training interaction. *)
Definition eligible {params} (self : BPR.BPRMF_THEANO params) (u : nat) : Prop :=
  u < BPR._n_users self ∧ train_seen self u ≠ [].

(** A trainer for two users and three items, whose shared variables are
    modelled by the number of updates applied to them. *)
Definition bpr23 : BPR.BPRMF_THEANO nat :=
  {| BPR._n_users := 2; BPR._n_items := 3; BPR.URM_train := None;
     BPR.batch_size := 0; BPR.eligibleUsers := []; BPR.userSeenItems := ∅;
     BPR.shared := 0 |}.
Definition count_update (W : nat) (u i j : list nat) : nat := S W.

(** [bpr23] after [initializeFastSampling] on [train23] with batches of 2. *)
Definition bpr23_ready : BPR.BPRMF_THEANO nat :=
  {| BPR._n_users := 2; BPR._n_items := 3; BPR.URM_train := Some train23;
     BPR.batch_size := 2; BPR.eligibleUsers := [0; 1];
     BPR.userSeenItems := {[ 0 := [0]; 1 := [1; 2] ]};
     BPR.shared := 0 |}.

(** A triplet [(u, i, j)] whose items are taken in, resp. outside, the list
    that [userSeenItems] holds for [u]. *)
Definition good_slot {params} (self : BPR.BPRMF_THEANO params)
    (u i j : nat) : Prop :=
  ∃ seen, BPR.userSeenItems self !! u = Some seen ∧
          i ∈ seen ∧ (j ∉ seen) ∧ j < BPR._n_items self.

(** *** Sequential evaluation *)

Section PerUser.
Variables roc_auc precision rr : list bool → Q.
Variables recall map : list bool → list nat → Q.
Variable ndcg : list nat → list nat → list Q → option Z → Q.

(** The six metric values of one user, as the loop body computes them. *)
Definition user_metrics (self : Recommender) (test_user : nat)
    : result results_run :=
  relevant_items ← getitem (URM_test_relevantItems (cache self)) test_user;
  recommended_items ←
    recommend self test_user (at_ self) (exclude_seen self) (filterTopPop self);
  let is_relevant := in1d recommended_items relevant_items false in
  relevance ← getitem (URM_test_ratings (cache self)) test_user;
  mret {| AUC := roc_auc is_relevant;
          r_precision := precision is_relevant;
          r_recall := recall is_relevant relevant_items;
          r_map := map is_relevant relevant_items;
          NDCG := ndcg recommended_items relevant_items relevance (at_ self);
          MRR := rr is_relevant |}.

Fixpoint users_metrics (self : Recommender) (users : list nat)
    : result (list results_run) :=
  match users with
  | [] => mret []
  | u :: users =>
      m ← user_metrics self u;
      ms ← users_metrics self users;
      mret (m :: ms)
  end.
End PerUser.

(** The mean of one metric over the evaluated users. *)
Definition mean_of (metric : results_run → Q) (ms : list results_run) : Q :=
  (Qsum (metric <$> ms) / Qnat (length ms))%Q.

(** The users of [users] that have at least one relevant test item. *)
Definition has_test_items (self : Recommender) (u : nat) : bool :=
  match URM_test_relevantItems (cache self) !! u with
  | Some (_ :: _) => true
  | _ => false
  end.
Definition users_with_test_items (self : Recommender) (users : list nat)
    : list nat :=
  filter (λ u, has_test_items self u) users.

(** A stand-in for the metric functions, to run the evaluation on the
    sample: the share of relevant items in the list. *)
Definition hit_share (is_relevant : list bool) : Q :=
  match is_relevant with
  | [] => 0
  | _ => Qnat (length (filter (λ b, b = true) is_relevant)) /
         Qnat (length is_relevant)
  end%Q.
Definition sample_sequential (self : Recommender) (users : list nat)
    : result results_run :=
  evaluateRecommendationsSequential hit_share hit_share hit_share
    (λ r _, hit_share r) (λ r _, hit_share r)
    (λ rec rel _ _, hit_share (in1d rec rel false)) self users.

(** [acc'] is [acc] plus the metric values [ms], and counts their number. *)
Definition adds (acc acc' : accumulator) (ms : list results_run) : Prop :=
  n_eval acc' = n_eval acc + length ms ∧
  (roc_auc_ acc' == roc_auc_ acc + Qsum (AUC <$> ms))%Q ∧
  (precision_ acc' == precision_ acc + Qsum (r_precision <$> ms))%Q ∧
  (recall_ acc' == recall_ acc + Qsum (r_recall <$> ms))%Q ∧
  (map_ acc' == map_ acc + Qsum (r_map <$> ms))%Q ∧
  (ndcg_ acc' == ndcg_ acc + Qsum (NDCG <$> ms))%Q ∧
  (mrr_ acc' == mrr_ acc + Qsum (MRR <$> ms))%Q.


(** A tape on which the sampler succeeds: the draws 0 pick the first
    eligible user and its first seen item, the draw [j] the negative item. *)
Definition lucky_tape (size j : nat) : list nat :=
  replicate size 0 ++ mjoin (replicate size [0; j]).


(** *** Top-K sparsification *)



(** The weight matrix of the spec's example: column 0 is
    [0.1, 0.9, 0.4, 0.2], the other columns are zero. *)
Definition weights4 : ndarray2 Q :=
  [[ (1 # 10)%Q; 0%Q; 0%Q; 0%Q ];
   [ (9 # 10)%Q; 0%Q; 0%Q; 0%Q ];
   [ (4 # 10)%Q; 0%Q; 0%Q; 0%Q ];
   [ (2 # 10)%Q; 0%Q; 0%Q; 0%Q ]].


(** The four dictionaries hold, for user [u], the row of [u] in the training
    matrix, its column indices, and the column indices and the values of the
    row of [u] in the test matrix. *)
Definition caches_user (train test : spmatrix) (c : FastValidationCache)
    (u : nat) : Prop :=
  ∃ trainData testData,
    getrow train u = Ok trainData ∧ getrow test u = Ok testData ∧
    URM_train_user_profile c !! u = Some trainData ∧
    URM_train_relevantItems c !! u = Some (indices trainData) ∧
    URM_test_relevantItems c !! u = Some (indices testData) ∧
    URM_test_ratings c !! u = Some (data testData).

(** * Further functions of the two modules *)

(** ** Top-popular items *)

(** [int(x)] of a float: truncation toward zero. *)
Definition Qtrunc (x : Q) : Z := Z.quot (Qnum x) (Z.pos (Qden x)).

(** [M.sum(axis=0)], flattened: the sums of the [n] columns. *)
Definition column_sums (M : ndarray2 Q) (n : nat) : list Q :=
  (λ j, Qsum (column M j)) <$> seq 0 n.

(** [(A + B) > 0] as an array of ones and zeros. The sum of two sparse
    matrices needs equal shapes. *)
Definition positive_sum (A B : spmatrix) : result (ndarray2 Q) :=
  if decide (sp_shape A = sp_shape B) then
    Ok (zip_with (zip_with (λ a b, if Qlt_le_dec 0 (a + b) then 1%Q else 0%Q))
          (toarray A) (toarray B))
  else Raise ValueError.

(** [item_pop]: the column sums of [URM_1], or of the union with [URM_2]. *)
Definition item_popularity (URM_1 : spmatrix) (URM_2 : option spmatrix)
    : result (list Q) :=
  URM ← match URM_2 with
        | Some B => positive_sum URM_1 B
        | None => Ok (toarray URM_1)
        end;
  mret (column_sums URM (sp_shape URM_1).2).

(** The number of columns that [mask] keeps before column [c]. *)
Definition mask_rank (mask : list bool) (c : nat) : nat :=
  length (filter (λ b, b = true) (take c mask)).

(** [M[:, mask]] with a Boolean mask over the columns. *)
Definition select_columns (M : spmatrix) (mask : list bool) : result spmatrix :=
  if decide (length mask = (sp_shape M).2) then
    Ok (SpMatrix ((sp_shape M).1, length (filter (λ b, b = true) mask))
          ((λ e, (sp_row e, mask_rank mask (sp_col e), sp_val e)) <$>
           filter (λ e, mask !! sp_col e = Some true) (sp_entries M)))
  else Raise IndexError.

Definition removeTopPop (URM_1 : spmatrix) (URM_2 : option spmatrix)
    (percentageToRemove : Q) : result (spmatrix * list nat * list nat) :=
  item_pop ← item_popularity URM_1 URM_2;
  let popularItemsSorted := flip (argsort item_pop) in
  let numItemsToRemove :=
    Qtrunc (Qnat (length popularItemsSorted) * percentageToRemove) in
  let arange := seq 0 (length popularItemsSorted) in
  let itemMask :=
    in1d arange (slice_to (Some numItemsToRemove) popularItemsSorted) true in
  let itemMappings := mask_index arange itemMask in
  let removedItems := mask_index arange (negb <$> itemMask) in
  reduced ← select_columns URM_1 itemMask;
  mret (reduced, itemMappings, removedItems).

(** Three users, four items: item 2 is the most popular, then item 0. *)
Definition urm34 : spmatrix :=
  SpMatrix (3, 4) [(0, 0, 1%Q); (0, 2, 1%Q); (1, 2, 1%Q); (1, 3, 1%Q);
                   (2, 0, 1%Q); (2, 2, 1%Q); (2, 1, (1 # 2)%Q)].

(** ** Sample data for the sampler *)

(** One user who has rated both items of the catalogue. *)
Definition ones12 : spmatrix := SpMatrix (1, 2) [(0, 0, 1%Q); (0, 1, 1%Q)].
Definition bpr12 : BPR.BPRMF_THEANO nat :=
  {| BPR._n_users := 1; BPR._n_items := 2; BPR.URM_train := Some ones12;
     BPR.batch_size := 1; BPR.eligibleUsers := []; BPR.userSeenItems := ∅;
     BPR.shared := 0 |}.
Definition bpr12_ready : BPR.BPRMF_THEANO nat :=
  {| BPR._n_users := 1; BPR._n_items := 2; BPR.URM_train := Some ones12;
     BPR.batch_size := 1; BPR.eligibleUsers := [0];
     BPR.userSeenItems := {[ 0 := [0; 1] ]};
     BPR.shared := 0 |}.

(** The column indices stored in row [u] of [train]. *)
Definition row_indices (train : spmatrix) (u : nat) : list nat :=
  match getrow train u with Ok row => indices row | Raise _ => [] end.

(** ** Recommendations for a profile that is not in the training matrix *)

Definition recommend_new_user (self : Recommender) (user_profile : spmatrix)
    (n : option Z) (exclude_seen : bool) : result (list nat) :=
  _ ← (if sparse_weights self then
         Ws ← getattr (W_sparse self);
         if decide ((sp_shape user_profile).2 = (sp_shape Ws).1)
         then Ok () else Raise AssertionError
       else
         Wd ← getattr (W self);
         if decide ((sp_shape user_profile).2 = nrows Wd)
         then Ok () else Raise AssertionError);
  scores ← compute_scores self user_profile;
  let ranking := flip (argsort scores) in
  let ranking :=
    if exclude_seen then
      let seen := indices user_profile in
      let unseen_mask := in1d ranking seen true in
      mask_index ranking unseen_mask
    else ranking in
  mret (slice_to n ranking).

(** ** Parallel evaluation *)

(** [pool.map(f, l)]: the results of the calls in the order of [l]. An
    exception of a call is raised again by [map]; when several calls raise,
    the model keeps the first one in the order of [l]. *)
Fixpoint pool_map {A B} (f : A → result B) (l : list A) : result (list B) :=
  match l with
  | [] => mret []
  | x :: l => y ← f x; ys ← pool_map f l; mret (y :: ys)
  end.

Section Parallel.
Variables roc_auc precision rr : list bool → Q.
Variables recall map : list bool → list nat → Q.
Variable ndcg : list nat → list nat → list Q → option Z → Q.

Definition evaluateOneUser (self : Recommender) (test_user : nat)
    : result (Q * Q * Q * Q * Q * Q) :=
  test ← getattr (URM_test self);
  row ← getrow test test_user;
  let relevant_items := indices row in
  recommended_items ←
    recommend self test_user (at_ self) (exclude_seen self) (filterTopPop self);
  let is_relevant := in1d recommended_items relevant_items false in
  let roc_auc_ := roc_auc is_relevant in
  let precision_ := precision is_relevant in
  let recall_ := recall is_relevant relevant_items in
  let map_ := map is_relevant relevant_items in
  let mrr_ := rr is_relevant in
  relevance ← getitem (URM_test_ratings (cache self)) test_user;
  let ndcg_ := ndcg recommended_items relevant_items relevance (at_ self) in
  mret (roc_auc_, precision_, recall_, map_, mrr_, ndcg_).

(** One pass of the loop [for result in resultList]. *)
Definition add_result (sums result : Q * Q * Q * Q * Q * Q)
    : Q * Q * Q * Q * Q * Q :=
  let '(roc_auc_, precision_, recall_, map_, mrr_, ndcg_) := sums in
  let '(r0, r1, r2, r3, r4, r5) := result in
  (roc_auc_ + r0, precision_ + r1, recall_ + r2, map_ + r3, mrr_ + r4,
   ndcg_ + r5)%Q.

Definition evaluateRecommendationsParallel (self : Recommender)
    (usersToEvaluate : list nat) : result results_run :=
  resultList ← pool_map (evaluateOneUser self) usersToEvaluate;
  let n_eval := length usersToEvaluate in
  let '(roc_auc_, precision_, recall_, map_, mrr_, ndcg_) :=
    foldl add_result (0, 0, 0, 0, 0, 0)%Q resultList in
  if decide (0 < n_eval) then
    mret {| AUC := roc_auc_ / Qnat n_eval;
            r_precision := precision_ / Qnat n_eval;
            r_recall := recall_ / Qnat n_eval;
            r_map := map_ / Qnat n_eval;
            NDCG := ndcg_ / Qnat n_eval;
            MRR := mrr_ / Qnat n_eval |}%Q
  else
    mret {| AUC := roc_auc_; r_precision := precision_; r_recall := recall_;
            r_map := map_; NDCG := ndcg_; MRR := mrr_ |}.
End Parallel.

(** The running sums of the parallel evaluation as an accumulator of the
    sequential one. *)
Definition sums_accumulator (sums : Q * Q * Q * Q * Q * Q) (n : nat)
    : accumulator :=
  let '(a, p, r, m, rr', nd) := sums in
  {| roc_auc_ := a; precision_ := p; recall_ := r; map_ := m; mrr_ := rr';
     ndcg_ := nd; n_eval := n |}.

(** The parallel evaluation with the stand-in metric. *)
Definition sample_parallel (self : Recommender) (users : list nat)
    : result results_run :=
  evaluateRecommendationsParallel hit_share hit_share hit_share
    (λ r _, hit_share r) (λ r _, hit_share r)
    (λ rec rel _ _, hit_share (in1d rec rel false)) self users.

(** ** [fit] of the BPR trainer *)

Definition BPR_fit {params}
    (train_model : params → list nat → list nat → list nat → params)
    (fuel : nat) (self : BPR.BPRMF_THEANO params) (R : spmatrix)
    : rand (nat * BPR.BPRMF_THEANO params) :=
  BPR.train train_model fuel self R 10 1000.

(** ** The factor model of [BPRMF_THEANO] *)

(** [a[i]] on an array, for an index that is not negative. *)
Definition index {A} (a : list A) (i : nat) : result A :=
  match a !! i with Some x => Ok x | None => Raise IndexError end.

(** [numpy.unique(ar, return_inverse=True)]: the sorted distinct values and,
    for every element of [ar], its position among them. *)
Definition unique (ar : list nat) : list nat :=
  merge_sort Nat.le (remove_dups ar).
Definition position (x : nat) (l : list nat) : nat :=
  default 0 (fst <$> list_find (λ y, y = x) l).
Definition unique_inverse (ar : list nat) : list nat * list nat :=
  (unique ar, (λ x, position x (unique ar)) <$> ar).

(** The order of Python tuples [(user, item)]. *)
Definition pair_le (p q : nat * nat) : bool :=
  (p.1 <? q.1) || ((p.1 =? q.1) && (p.2 <=? q.2)).

#[export] Program Instance pair_ordered : Ordered (nat * nat) :=
  {| fle := pair_le |}.
Next Obligation.
  intros [a b] [c d]. unfold pair_le. simpl.
  destruct (Nat.ltb_spec a c), (Nat.ltb_spec c a), (Nat.eqb_spec a c),
    (Nat.eqb_spec c a), (Nat.leb_spec b d), (Nat.leb_spec d b);
    simpl; auto; lia.
Qed.
Next Obligation.
  intros [a b] [c d] [e f]. unfold pair_le. simpl.
  destruct (Nat.ltb_spec a c), (Nat.ltb_spec c e), (Nat.ltb_spec a e),
    (Nat.eqb_spec a c), (Nat.eqb_spec c e), (Nat.eqb_spec a e),
    (Nat.leb_spec b d), (Nat.leb_spec d f), (Nat.leb_spec b f);
    simpl; auto; lia.
Qed.

(** [sorted(l, key=key)]: a stable sort. *)
Definition sorted `{Ordered K, Inhabited A} (l : list A) (key : A → K)
    : list A :=
  (λ i, l !!! i) <$> argsort (key <$> l).

(** [numpy.mean] of a list of floats; [None] stands for [nan], the mean
    of no value. *)
Definition np_mean (l : list Q) : option Q :=
  match l with
  | [] => None
  | _ :: _ => Some (Qsum l / Qnat (length l))%Q
  end.

(** A [defaultdict(list)] in the order in which its keys were inserted. *)
Fixpoint dict_append (d : list (nat * list nat)) (key value : nat)
    : list (nat * list nat) :=
  match d with
  | [] => [(key, [value])]
  | (k, v) :: d =>
      if decide (k = key) then (k, v ++ [value]) :: d
      else (k, v) :: dict_append d key value
  end.

Module BPRMF.

(** The attributes of a [BPRMF_THEANO] that prediction, labelling and
    testing read: the attributes of the base class, the values of the
    shared variables [W] ([_n_users × _rank]), [H] ([_n_items × _rank]) and
    [B] ([_n_items]), and the three collections of training data. *)
Record model : Type := {
  base : Recommender;
  W : ndarray2 Q;
  H : ndarray2 Q;
  B : list Q;
  _train_users : gset nat;
  _train_items : gset nat;
  _train_dict : gmap nat (list nat)
}.

(** [a.dot(b)] on two vectors. *)
Definition dot (a b : list Q) : Q := Qsum (zip_with Qmult a b).

(** [predictions(user_index)] for one user. *)
Definition predictions (self : model) (user_index : nat) : result (list Q) :=
  let w := W self in
  let h := H self in
  let b := B self in
  user_vector ← index w user_index;
  mret (zip_with Qplus ((λ h_i, dot user_vector h_i) <$> h) b).

(** [predictions(user_index)] for an array of users: one row for each. *)
Definition predictions_rows (self : model) (user_index : list nat)
    : result (ndarray2 Q) :=
  mapM (predictions self) user_index.

Definition prediction (self : model) (user_index item_index : nat) : result Q :=
  scores ← predictions self user_index;
  index scores item_index.

(** [prediction(user_index, item_index)] for a list of items. *)
Definition prediction_list (self : model) (user_index : nat)
    (item_index : list nat) : result (list Q) :=
  scores ← predictions self user_index;
  mapM (index scores) item_index.

Definition top_predictions (self : model) (user_index : nat)
    (topn : option Z) (exclude_seen : bool) : result (list nat) :=
  scores ← predictions self user_index;
  let ranking := flip (argsort scores) in
  ranking ← (if exclude_seen then _filter_seen (base self) user_index ranking
             else mret ranking);
  mret (slice_to topn ranking).

Definition recommend (self : model) (user_id : nat) (n : option Z)
    (exclude_seen : bool) : result (list nat) :=
  top_predictions self user_id n exclude_seen.

Definition predict (self : model) (user_id : nat) (rated_indices : list nat)
    : result (list Q) :=
  prediction_list self user_id rated_indices.

(** *** [label] *)

(** The two values of [score_mode] for which [label] computes scores. *)
Inductive score_mode : Set := user | matrix.

Record meta : Type := {
  pos_labels : nat;
  neg_labels : nat;
  total_labels : nat;
  pos_set : gset (nat * nat);
  neg_set : gset (nat * nat);
  neutral_set : gset (nat * nat)
}.

(** [M.nonzero()] of a LIL matrix: the positions of the nonzero values, row
    by row and by ascending column. *)
Definition nonzero (M : spmatrix) : list (nat * nat) :=
  (λ e, (sp_row e, sp_col e)) <$> dense_entries (toarray M).

(** The loop of the mode ['user'], which computes the predictions of a
    user when the user differs from the one of the pair before. *)
Fixpoint user_scores_loop (self : model) (pairs : list (nat * nat))
    (curr_user : option nat) (scores : list Q) : result (list Q) :=
  match pairs with
  | [] => mret []
  | (user', item) :: pairs =>
      scores ← (if decide (curr_user ≠ Some user')
                then predictions self user' else mret scores);
      x ← index scores item;
      xs ← user_scores_loop self pairs (Some user') scores;
      mret (x :: xs)
  end.

Definition filtered_scores (self : model) (pairs : list (nat * nat))
    (mode : score_mode) : result (list Q) :=
  match mode with
  | user => user_scores_loop self pairs None []
  | matrix =>
      let '(uniq_users, user_to_idx) := unique_inverse pairs.*1 in
      scores ← predictions_rows self uniq_users;
      mapM (λ p : nat * nat, row ← index scores p.1; index row p.2)
        (zip user_to_idx pairs.*2)
  end.

Definition label (self : model) (unlabeled_list : spmatrix)
    (binary_ratings exclude_seen : bool) (p_most n_most : Z)
    (mode : score_mode) : result (list (nat * nat * Q) * meta) :=
  let unlabeled_list := check_matrix unlabeled_list in
  let pairs := nonzero unlabeled_list in
  filtered_scores ← filtered_scores self pairs mode;
  let sorted_filtered_scores := argsort filtered_scores in
  let p_sorted_scores := slice_from (- p_most) sorted_filtered_scores in
  let n_sorted_scores := slice_to (Some n_most) sorted_filtered_scores in
  let scores :=
    if binary_ratings then
      ((λ i, (pairs !!! i, 1%Q)) <$> p_sorted_scores) ++
      ((λ i, (pairs !!! i, 0%Q)) <$> n_sorted_scores)
    else
      ((λ i, (pairs !!! i, 5%Q)) <$> p_sorted_scores) ++
      ((λ i, (pairs !!! i, 1%Q)) <$> n_sorted_scores) in
  let meta :=
    {| pos_labels := length p_sorted_scores;
       neg_labels := length n_sorted_scores;
       total_labels := length p_sorted_scores + length n_sorted_scores;
       pos_set := list_to_set ((λ i, pairs !!! i) <$> p_sorted_scores);
       neg_set := list_to_set ((λ i, pairs !!! i) <$> n_sorted_scores);
       neutral_set := ∅ |} in
  mret (sorted scores (λ triplet, (triplet.1.1, triplet.1.2)), meta).

(** *** [test] *)

Definition _data_to_dict (data : list (nat * nat))
    : list (nat * list nat) * gset nat * gset nat :=
  let '(data_dict, items) :=
    foldl (λ (acc : list (nat * list nat) * gset nat) '(user', item),
             (dict_append acc.1 user' item, {[item]} ∪ acc.2))
          ([], ∅) data in
  (data_dict, list_to_set data_dict.*1, items).

(** The loop over [self._train_items] for one positive item; [n] and
    [auc_for_user] are carried along. *)
Fixpoint neg_items_loop (self : model) (user' : nat) (predictions : list Q)
    (test_items : list nat) (pos_item : nat) (neg_items : list nat)
    (n : nat) (auc_for_user : Q) : result (nat * Q) :=
  match neg_items with
  | [] => mret (n, auc_for_user)
  | neg_item :: neg_items =>
      if bool_decide (neg_item ∉ test_items) then
        seen ← getitem (_train_dict self) user';
        if bool_decide (neg_item ∉ seen) then
          let n := n + 1 in
          p ← index predictions pos_item;
          q ← index predictions neg_item;
          let auc_for_user :=
            if Qlt_le_dec q p then (auc_for_user + 1)%Q else auc_for_user in
          neg_items_loop self user' predictions test_items pos_item neg_items
            n auc_for_user
        else neg_items_loop self user' predictions test_items pos_item
               neg_items n auc_for_user
      else neg_items_loop self user' predictions test_items pos_item
             neg_items n auc_for_user
  end.

(** The loop over the test items of one user. *)
Fixpoint pos_items_loop (self : model) (user' : nat) (predictions : list Q)
    (test_items : list nat) (pos_items : list nat)
    (n : nat) (auc_for_user : Q) : result (nat * Q) :=
  match pos_items with
  | [] => mret (n, auc_for_user)
  | pos_item :: pos_items =>
      if bool_decide (pos_item ∈ _train_items self) then
        '(n, auc_for_user) ←
          neg_items_loop self user' predictions test_items pos_item
            (elements (_train_items self)) n auc_for_user;
        pos_items_loop self user' predictions test_items pos_items
          n auc_for_user
      else pos_items_loop self user' predictions test_items pos_items
             n auc_for_user
  end.

(** The loop over the users of the test data. *)
Fixpoint test_users_loop (self : model) (test_dict : list (nat * list nat))
    (auc_values : list Q) : result (list Q) :=
  match test_dict with
  | [] => mret auc_values
  | (user', test_items) :: test_dict =>
      if bool_decide (user' ∈ _train_users self) then
        predictions ← predictions self user';
        '(n, auc_for_user) ←
          pos_items_loop self user' predictions test_items test_items 0 0%Q;
        if decide (0 < n) then
          test_users_loop self test_dict
            (auc_values ++ [(auc_for_user / Qnat n)%Q])
        else test_users_loop self test_dict auc_values
      else test_users_loop self test_dict auc_values
  end.

Definition test (self : model) (test_data : list (nat * nat))
    : result (option Q) :=
  let '(test_dict, test_users, test_items) := _data_to_dict test_data in
  auc_values ← test_users_loop self test_dict [];
  mret (np_mean auc_values).

End BPRMF.

(** *** Sample data *)

(** Factors of rank 1 for two users and three items. *)
Definition mf23 : BPRMF.model :=
  {| BPRMF.base := knn23;
     BPRMF.W := [[1%Q]; [2%Q]];
     BPRMF.H := [[3%Q]; [1%Q]; [2%Q]];
     BPRMF.B := [0%Q; (1 # 2)%Q; 0%Q];
     BPRMF._train_users := ∅; BPRMF._train_items := ∅;
     BPRMF._train_dict := ∅ |}.

(** The predicted score of the pair [a] is at most the one of the pair [b]. *)
Definition predicted_le (self : BPRMF.model) (a b : nat * nat) : Prop :=
  ∃ x y, BPRMF.prediction self a.1 a.2 = Ok x ∧
         BPRMF.prediction self b.1 b.2 = Ok y ∧ (x <= y)%Q.

(** The items that [data] pairs with [user'], in the order of [data]. *)
Definition items_of (data : list (nat * nat)) (user' : nat) : list nat :=
  (filter (λ p, p.1 = user') data).*2.

(** The dictionary holds, for every user of the data seen so far, the
    items of the user in the order of the data. *)
Definition dict_of (d : list (nat * list nat)) (l : list (nat * nat)) : Prop :=
  NoDup d.*1 ∧ ∀ u v, (u, v) ∈ d ↔ v = items_of l u ∧ v ≠ [].

(** [mf23] with the collections of training data filled in. *)
Definition mf23_trained : BPRMF.model :=
  {| BPRMF.base := knn23;
     BPRMF.W := [[1%Q]; [2%Q]];
     BPRMF.H := [[3%Q]; [1%Q]; [2%Q]];
     BPRMF.B := [0%Q; (1 # 2)%Q; 0%Q];
     BPRMF._train_users := {[0; 1]}; BPRMF._train_items := {[0; 1; 2]};
     BPRMF._train_dict := {[ 0 := [0]; 1 := [1] ]} |}.

(** A value between 0 and 1. *)
Definition in_unit_interval (x : Q) : Prop := (0 <= x)%Q ∧ (x <= 1)%Q.

(** * Properties *)

(** ** Exceptions and slices *)

Lemma bind_Ok {A B} (m : result A) (f : A → result B) b :
  m ≫= f = Ok b ↔ ∃ a, m = Ok a ∧ f a = Ok b.
Proof.
  destruct m as [a|e]; simpl; split.
  - intros Hf. by exists a.
  - by intros (a' & [= <-] & Hf).
  - done.
  - by intros (a' & ? & _).
Qed.

Lemma fmap_Ok {A B} (f : A → B) (m : result A) b :
  f <$> m = Ok b ↔ ∃ a, m = Ok a ∧ b = f a.
Proof.
  destruct m as [a|e]; simpl; split.
  - intros [= <-]. by exists a.
  - by intros (a' & [= <-] & ->).
  - done.
  - by intros (a' & ? & _).
Qed.

Lemma getitem_Ok {V} (d : gmap nat V) k v : getitem d k = Ok v ↔ d !! k = Some v.
Proof. unfold getitem. destruct (d !! k); split; congruence. Qed.

Lemma getattr_Ok {V} (a : option V) v : getattr a = Ok v ↔ a = Some v.
Proof. destruct a; simpl; split; congruence. Qed.

Lemma slice_to_sublist {A} n (l : list A) : slice_to n l `sublist_of` l.
Proof. destruct n; simpl; [apply sublist_take | done]. Qed.

Lemma slice_to_length {A} (N : Z) (l : list A) :
  (0 ≤ N)%Z → length (slice_to (Some N) l) ≤ Z.to_nat N.
Proof.
  intros HN. simpl. rewrite length_take. unfold clamp_index.
  destruct (Z.ltb_spec N 0); lia.
Qed.

Lemma slice_to_None {A} (l : list A) : slice_to None l = l.
Proof. done. Qed.

(** ** Sorting *)

Section argsort_facts.
Context `{Ordered A}.

#[local] Instance arg_le_total : Total (arg_le (A:=A)).
Proof.
  intros [i x] [j y]. unfold arg_le, arg_leb; simpl.
  destruct (fle_total x y) as [Hxy|Hyx], (fle x y) eqn:E1, (fle y x) eqn:E2;
    simpl; try discriminate; auto.
  all: destruct (Nat.leb_spec i j), (Nat.leb_spec j i); simpl; auto; lia.
Qed.

#[local] Instance arg_le_trans : Transitive (arg_le (A:=A)).
Proof.
  intros [i x] [j y] [k z]. unfold arg_le, arg_leb; simpl.
  rewrite !andb_True, !orb_True, !negb_True, !Is_true_true.
  intros [Hxy Hij] [Hyz Hjk]. split; [by eapply fle_trans|].
  destruct (fle z x) eqn:Hzx; [right|left; by intros ?].
  assert (fle y x = true) as Hyx by by eapply fle_trans.
  assert (fle z y = true) as Hzy by by eapply fle_trans.
  destruct Hij as [Hij|Hij]; [by rewrite Hyx in Hij|].
  destruct Hjk as [Hjk|Hjk]; [by rewrite Hzy in Hjk|].
  apply Nat.leb_le in Hij, Hjk. apply Nat.leb_le. lia.
Qed.

Lemma imap_pair_fst (l : list A) : (imap pair l).*1 = seq 0 (length l).
Proof.
  rewrite fmap_imap, <-(list_fmap_id (seq 0 (length l))), <-(imap_seq_0 l id).
  by apply imap_ext.
Qed.

(** [argsort l] lists every position of [l] once. *)
Lemma argsort_Permutation (l : list A) : argsort l ≡ₚ seq 0 (length l).
Proof.
  unfold argsort. rewrite merge_sort_Permutation. by rewrite imap_pair_fst.
Qed.

Lemma argsort_length (l : list A) : length (argsort l) = length l.
Proof. by rewrite argsort_Permutation, length_seq. Qed.

Lemma argsort_NoDup (l : list A) : NoDup (argsort l).
Proof. rewrite argsort_Permutation. apply NoDup_seq. Qed.

Lemma elem_of_argsort (l : list A) i : i ∈ argsort l ↔ i < length l.
Proof. rewrite argsort_Permutation, elem_of_seq. lia. Qed.

Lemma sorted_pairs_before (l : list A) (s : list (nat * A)) :
  StronglySorted arg_le s →
  Forall (λ p, l !! p.1 = Some p.2) s →
  StronglySorted (before l) s.*1.
Proof.
  induction 1 as [|p s Hs IH Hp]; intros Hall; csimpl; constructor.
  - apply IH. by eapply Forall_inv_tail.
  - apply Forall_fmap, Forall_forall. intros q Hq.
    pose proof (Forall_inv Hall) as Hpl.
    pose proof (proj1 (Forall_forall _ _) (Forall_inv_tail Hall) q Hq) as Hql.
    pose proof (proj1 (Forall_forall _ _) Hp q Hq) as Hpq.
    unfold arg_le, arg_leb in Hpq.
    apply andb_True in Hpq as [H1 H2]. apply Is_true_true in H1.
    exists p.2, q.2. split_and!; [done..|].
    intros Hqp. apply orb_True in H2 as [H2|H2].
    + by rewrite Hqp in H2.
    + by apply Is_true_true, Nat.leb_le in H2.
Qed.

Lemma argsort_sorted (l : list A) : StronglySorted (before l) (argsort l).
Proof.
  unfold argsort. apply sorted_pairs_before.
  - apply (StronglySorted_merge_sort arg_le).
  - rewrite merge_sort_Permutation. apply Forall_forall. intros [i x] Hin.
    apply elem_of_lookup_imap in Hin as (i' & x' & ? & ?). by simplify_eq.
Qed.
End argsort_facts.

Lemma StronglySorted_impl {A} (R1 R2 : relation A) l :
  (∀ x y, R1 x y → R2 x y) → StronglySorted R1 l → StronglySorted R2 l.
Proof.
  intros HR. induction 1; constructor; [done|].
  eapply Forall_impl; [done|]. simpl. auto.
Qed.

Lemma StronglySorted_reverse {A} (R : relation A) l :
  StronglySorted R l → StronglySorted (λ x y, R y x) (reverse l).
Proof.
  induction 1 as [|x l Hl IH Hx]; [constructor|].
  rewrite reverse_cons. apply StronglySorted_app_2.
  - intros y z Hy Hz. apply list_elem_of_singleton in Hz as ->.
    rewrite elem_of_reverse in Hy. by eapply Forall_forall in Hx.
  - done.
  - repeat constructor.
Qed.

Lemma StronglySorted_sublist {A} (R : relation A) l k :
  k `sublist_of` l → StronglySorted R l → StronglySorted R k.
Proof.
  induction 1 as [|x k l Hs IH|x k l Hs IH]; intros Hl.
  - constructor.
  - apply StronglySorted_cons in Hl as [Hx Hl]. constructor; [by apply IH|].
    apply Forall_forall. intros y Hy. eapply Forall_forall in Hx; [done|].
    by eapply sublist_subseteq.
  - apply StronglySorted_cons in Hl as [_ Hl]. by apply IH.
Qed.

(** Descending score order of the reversed [argsort]. *)
Lemma flip_argsort_descending (scores : list Q) :
  descending scores (flip (argsort scores)).
Proof.
  unfold descending, flip.
  eapply StronglySorted_impl;
    [|apply StronglySorted_reverse, (argsort_sorted scores)].
  intros i j (x & y & Hj & Hi & Hle & _). exists y, x.
  split_and!; [done..|]. by apply Qle_bool_iff.
Qed.

(** ** Masks *)

Lemma mask_index_fmap {A} (f : A → bool) (l : list A) :
  mask_index l (f <$> l) = filter (λ x, f x) l.
Proof.
  induction l as [|x l IH]; [done|].
  rewrite fmap_cons, filter_cons. cbn [mask_index]. rewrite IH.
  by destruct (f x).
Qed.

Lemma filter_True {A} (P : A → Prop) `{∀ x, Decision (P x)} (l : list A) :
  (∀ x, P x) → filter P l = l.
Proof.
  intros HP. induction l as [|x l IH]; [done|].
  rewrite filter_cons, IH. destruct (decide (P x)) as [|Hn]; [done|].
  by destruct Hn.
Qed.

Lemma filter_ext_Prop {A} (P Q : A → Prop)
    `{∀ x, Decision (P x), ∀ x, Decision (Q x)} (l : list A) :
  (∀ x, P x ↔ Q x) → filter P l = filter Q l.
Proof.
  intros HPQ. induction l as [|x l IH]; [done|].
  rewrite !filter_cons, IH.
  destruct (decide (P x)), (decide (Q x)); firstorder.
Qed.

Lemma mask_in1d_invert (l s : list nat) :
  mask_index l (in1d l s true) = filter (λ x, x ∉ s) l.
Proof.
  unfold in1d. rewrite mask_index_fmap. apply filter_ext_Prop.
  intros x. case_bool_decide; simpl; naive_solver.
Qed.

Lemma mask_in1d (l s : list nat) :
  mask_index l (in1d l s false) = filter (λ x, x ∈ s) l.
Proof.
  unfold in1d. rewrite mask_index_fmap. apply filter_ext_Prop.
  intros x. case_bool_decide; simpl; naive_solver.
Qed.

(** ** Scores *)

Lemma toarray_length M : length (toarray M) = (sp_shape M).1.
Proof. unfold toarray. by rewrite length_fmap, length_seq. Qed.

Lemma matmul_ravel_length (A B : ndarray2 Q) m :
  length (ravel (matmul A B m)) = length A * m.
Proof.
  unfold ravel, matmul. induction A as [|a A IH]; [done|]. csimpl.
  rewrite length_app, IH, length_fmap, length_seq. done.
Qed.

Lemma dot_weights_fitted self profile n_items :
  fitted self profile n_items →
  ∃ M, dot_weights self profile = Ok M ∧ length (ravel M) = n_items.
Proof.
  intros [H1 Hw]. unfold dot_weights.
  destruct (sparse_weights self).
  - destruct Hw as (Ws & -> & Hdim & <-). simpl. unfold dot_sparse.
    rewrite decide_True by done. eexists; split; [done|].
    by rewrite matmul_ravel_length, toarray_length, H1, Nat.mul_1_l.
  - destruct Hw as (Wd & -> & Hdim & <-). simpl. unfold dot_dense.
    rewrite decide_True by done. eexists; split; [done|].
    by rewrite matmul_ravel_length, toarray_length, H1, Nat.mul_1_l.
Qed.

Lemma fitted_ones_like self profile n_items :
  fitted self profile n_items → fitted self (ones_like profile) n_items.
Proof. done. Qed.

(** A fitted recommender scores every item of the catalogue. *)
Lemma compute_scores_fitted self profile n_items :
  fitted self profile n_items →
  ∃ scores, compute_scores self profile = Ok scores ∧ length scores = n_items.
Proof.
  intros Hf. unfold compute_scores.
  destruct (dot_weights_fitted _ _ _ Hf) as (M & -> & HM).
  destruct (dot_weights_fitted _ _ _ (fitted_ones_like _ _ _ Hf)) as (D & -> & HD).
  simpl. destruct (normalize self); simpl; eexists; (split; [done|]); [|done].
  unfold clamp_den. rewrite length_zip_with, length_fmap. lia.
Qed.

(** ** [recommend] *)

(** What [recommend] returns, in closed form. *)
Lemma recommend_eq self user_id n ex ftp profile seen scores :
  URM_train_user_profile (cache self) !! user_id = Some profile →
  URM_train_relevantItems (cache self) !! user_id = Some seen →
  compute_scores self profile = Ok scores →
  (ftp = true → is_Some (filterTopPop_ItemsID self)) →
  recommend self user_id n ex ftp =
    Ok (slice_to n (filtered_ranking scores ex seen ftp
                      (default [] (filterTopPop_ItemsID self)))).
Proof.
  intros Hp Hs Hsc Hids. unfold recommend, filtered_ranking.
  apply getitem_Ok in Hp as ->. simpl. rewrite Hsc. simpl.
  assert ((if ex then _filter_seen self user_id (flip (argsort scores))
           else mret (flip (argsort scores)))
          = Ok (filter (λ i, ex = true → i ∉ seen) (flip (argsort scores))))
    as ->.
  { destruct ex.
    - unfold _filter_seen. apply getitem_Ok in Hs as ->. simpl.
      rewrite mask_in1d_invert. f_equal. apply filter_ext_Prop. naive_solver.
    - simpl. unfold mret, result_ret. f_equal. symmetry.
      apply filter_True. intros ? [=]. }
  simpl. destruct ftp.
  - destruct Hids as [ids Hids]; [done|]. unfold _filter_TopPop.
    rewrite Hids. simpl. rewrite mask_in1d_invert.
    unfold mret, result_ret. do 2 f_equal. apply filter_ext_Prop. naive_solver.
  - simpl. unfold mret, result_ret. do 2 f_equal. symmetry.
    apply filter_True. intros ? [=].
Qed.

Lemma filtered_ranking_sublist scores ex seen ftp ids :
  filtered_ranking scores ex seen ftp ids `sublist_of` flip (argsort scores).
Proof.
  unfold filtered_ranking. etrans; apply sublist_filter.
Qed.

Lemma elem_of_filtered_ranking scores ex seen ftp ids i :
  i ∈ filtered_ranking scores ex seen ftp ids ↔
  i < length scores ∧ (ex = true → i ∉ seen) ∧ (ftp = true → i ∉ ids).
Proof.
  unfold filtered_ranking, flip.
  rewrite !list_elem_of_filter, elem_of_reverse, elem_of_argsort. tauto.
Qed.

Lemma filtered_ranking_NoDup scores ex seen ftp ids :
  NoDup (filtered_ranking scores ex seen ftp ids).
Proof.
  eapply sublist_NoDup; [|apply filtered_ranking_sublist].
  unfold flip. rewrite reverse_Permutation. apply (argsort_NoDup scores).
Qed.

(** C2 (as amended): for a fitted recommender, a user with a cached training
    profile and a requested length [N ≥ 0], [recommend] returns at most [N]
    item indices of the catalogue, none of them in the user's cached seen set
    when [exclude_seen] is set, and in order of non-increasing score: an item
    never has a higher score than an item before it, and equal scores may
    follow each other. *)
Theorem recommend_at_most_n_unseen_descending
    self user_id (N : Z) ex ftp profile seen n_items :
  (0 ≤ N)%Z →
  URM_train_user_profile (cache self) !! user_id = Some profile →
  URM_train_relevantItems (cache self) !! user_id = Some seen →
  fitted self profile n_items →
  (ftp = true → is_Some (filterTopPop_ItemsID self)) →
  ∃ items scores,
    recommend self user_id (Some N) ex ftp = Ok items ∧
    user_scores self user_id = Ok scores ∧
    length items ≤ Z.to_nat N ∧
    (∀ i, i ∈ items → i < n_items) ∧
    (ex = true → ∀ i, i ∈ items → i ∉ seen) ∧
    descending scores items.
Proof.
  intros HN Hp Hs Hf Hids.
  destruct (compute_scores_fitted _ _ _ Hf) as (scores & Hsc & Hlen).
  eexists _, scores. split; [by eapply recommend_eq|].
  split. { unfold user_scores. apply getitem_Ok in Hp as ->. done. }
  split; [by apply slice_to_length|].
  assert (∀ i, i ∈ slice_to (Some N) (filtered_ranking scores ex seen ftp
                 (default [] (filterTopPop_ItemsID self))) →
          i < n_items ∧ (ex = true → i ∉ seen)) as Hin.
  { intros i Hi. eapply sublist_subseteq in Hi; [|apply slice_to_sublist].
    apply elem_of_filtered_ranking in Hi. rewrite Hlen in Hi. tauto. }
  split; [intros i Hi; by apply Hin|].
  split; [intros Hex i Hi; by apply Hin|].
  eapply StronglySorted_sublist; [|apply flip_argsort_descending].
  etrans; [apply slice_to_sublist|apply filtered_ranking_sublist].
Qed.

(** C10: with [n=None], [recommend] returns the whole filtered ranking: an
    item index of the catalogue is in the result exactly when it survives
    the seen-item filter (if requested) and the top-popular filter (if
    requested), and no index is listed twice. *)
Theorem recommend_None_returns_every_surviving_item
    self user_id ex ftp profile seen n_items :
  URM_train_user_profile (cache self) !! user_id = Some profile →
  URM_train_relevantItems (cache self) !! user_id = Some seen →
  fitted self profile n_items →
  (ftp = true → is_Some (filterTopPop_ItemsID self)) →
  ∃ items,
    recommend self user_id None ex ftp = Ok items ∧
    NoDup items ∧
    ∀ i, i ∈ items ↔
         i < n_items ∧ (ex = true → i ∉ seen) ∧
         (ftp = true → i ∉ default [] (filterTopPop_ItemsID self)).
Proof.
  intros Hp Hs Hf Hids.
  destruct (compute_scores_fitted _ _ _ Hf) as (scores & Hsc & Hlen).
  eexists. split; [by eapply recommend_eq|]. rewrite slice_to_None.
  split; [apply filtered_ranking_NoDup|].
  intros i. by rewrite elem_of_filtered_ranking, Hlen.
Qed.

(** The theorem above at user 1 of the sample, who has seen items 1 and 2. *)
Lemma recommend_at_most_n_unseen_descending_witness :
  ∃ items scores,
    recommend knn23 1 (Some 2%Z) true false = Ok items ∧
    user_scores knn23 1 = Ok scores ∧
    length items ≤ Z.to_nat 2 ∧
    (∀ i, i ∈ items → i < 3) ∧
    (true = true → ∀ i, i ∈ items → i ∉ [1; 2]) ∧
    descending scores items.
Proof.
  apply (recommend_at_most_n_unseen_descending knn23 1 2 true false
           (SpMatrix (1, 3) [(0, 1, 2%Q); (0, 2, 1%Q)]) [1; 2] 3).
  - lia.
  - reflexivity.
  - reflexivity.
  - split; [reflexivity|]. simpl. exists sim3. split_and!; reflexivity.
  - discriminate.
Defined.

(** C2 as stated fails: user 0 of the sample has seen item 0 only, items 1
    and 2 both score 1/2, and [recommend] returns them one after the other,
    so the result is not in strictly descending score order. *)
Lemma recommend_ties_not_strictly_descending :
  recommend knn23 0 (Some 2%Z) true false = Ok [2; 1] ∧
  ∃ scores, user_scores knn23 0 = Ok scores ∧
            ¬ strictly_descending scores [2; 1].
Proof.
  split; [vm_compute; reflexivity|].
  eexists. split; [vm_compute; reflexivity|].
  intros Hs. apply StronglySorted_cons in Hs as [Hs _].
  apply Forall_cons in Hs as [(x & y & Hx & Hy & Hlt) _].
  simpl in Hx, Hy. simplify_eq. by vm_compute in Hlt.
Qed.

(** The theorem above at user 1 of the sample. *)
Lemma recommend_None_returns_every_surviving_item_witness :
  ∃ items,
    recommend knn23 1 None true false = Ok items ∧
    NoDup items ∧
    ∀ i, i ∈ items ↔
         i < 3 ∧ (true = true → i ∉ [1; 2]) ∧
         (false = true → i ∉ default [] (filterTopPop_ItemsID knn23)).
Proof.
  apply (recommend_None_returns_every_surviving_item knn23 1 true false
           (SpMatrix (1, 3) [(0, 1, 2%Q); (0, 2, 1%Q)]) [1; 2] 3).
  - reflexivity.
  - reflexivity.
  - split; [reflexivity|]. simpl. exists sim3. split_and!; reflexivity.
  - discriminate.
Defined.

(** ** The fast-validation cache *)

Lemma mjoin_imap_nil {A B} (f : nat → A → list B) (P : A → Prop) (l : list A) :
  (∀ i x, f i x = [] ↔ P x) → mjoin (imap f l) = [] ↔ Forall P l.
Proof.
  revert f. induction l as [|x l IH]; intros f Hf.
  - split; [constructor|done].
  - rewrite imap_cons. csimpl. rewrite app_nil, Forall_cons, Hf, IH; [done|].
    intros i y. apply Hf.
Qed.

Lemma omap_imap_nil {A B C} (f : nat → A → B) (g : B → option C) (l : list A) :
  omap g (imap f l) = [] ↔ ∀ i x, l !! i = Some x → g (f i x) = None.
Proof.
  revert f. induction l as [|x l IH]; intros f.
  - split; [by intros _ i x ?|done].
  - rewrite imap_cons. csimpl. split.
    + destruct (g (f 0 x)) eqn:E; [done|]. intros Hn [|i] y Hy; simplify_eq/=.
      * done.
      * by apply (proj1 (IH (f ∘ S)) Hn i y).
    + intros Hall. rewrite (Hall 0 x eq_refl). apply IH.
      intros i y Hy. by apply (Hall (S i)).
Qed.

Lemma dense_entries_nil (W : ndarray2 Q) :
  dense_entries W = [] ↔ Forall (Forall (λ x, x == 0)%Q) W.
Proof.
  unfold dense_entries. apply mjoin_imap_nil. intros i r.
  rewrite omap_imap_nil, Forall_lookup. apply forall_proper; intros j.
  apply forall_proper; intros x. apply forall_proper; intros _.
  destruct (Qeq_bool x 0) eqn:E.
  - apply Qeq_bool_iff in E. done.
  - apply Qeq_bool_neq in E. done.
Qed.

Lemma Qminus_eq_0 (x y : Q) : (x - y == 0 ↔ x == y)%Q.
Proof.
  split; intros Hxy.
  - rewrite <-(Qplus_0_l y), <-Hxy. ring.
  - rewrite Hxy. ring.
Qed.

Lemma areURMequals_spec (A B : spmatrix) :
  areURMequals (Some A) (Some B) = true ↔ structurally_equal A B.
Proof.
  unfold areURMequals, structurally_equal.
  destruct (decide (sp_shape A = sp_shape B)) as [Hs|Hs];
    [|split; [done|by intros [? _]]].
  rewrite Nat.eqb_eq. unfold nnz, sp_sub. cbn [sp_entries].
  rewrite length_zero_iff_nil, dense_entries_nil. unfold toarray.
  rewrite <-Hs, zip_with_fmap_l, zip_with_fmap_r, zip_with_diag.
  rewrite Forall_fmap, Forall_forall. split.
  - intros Hall. split; [done|]. intros i j Hi Hj.
    specialize (Hall i). rewrite elem_of_seq in Hall.
    specialize (Hall ltac:(lia)). simpl in Hall.
    rewrite zip_with_fmap_l, zip_with_fmap_r, zip_with_diag in Hall.
    rewrite Forall_fmap, Forall_forall in Hall.
    apply Qminus_eq_0, (Hall j). apply elem_of_seq. lia.
  - intros [_ Hall] i Hi. apply elem_of_seq in Hi. simpl.
    rewrite zip_with_fmap_l, zip_with_fmap_r, zip_with_diag.
    rewrite Forall_fmap, Forall_forall. intros j Hj. apply elem_of_seq in Hj.
    simpl. apply Qminus_eq_0, Hall; lia.
Qed.

(** A run of the loop of [initializeURMDictionary] that does not raise
    caches every user it visits, and keeps what was cached before. *)
Lemma fill_cache_Ok train test users :
  ∀ c c',
    fill_cache train test users c = (c', Ok ()) →
    (∀ u, caches_user train test c u → caches_user train test c' u) ∧
    (∀ u, u ∈ users → caches_user train test c' u).
Proof.
  induction users as [|v users IH]; intros c c' Hrun; simpl in Hrun.
  - injection Hrun as <-. split; [done|]. intros u Hu. by apply elem_of_nil in Hu.
  - destruct (getrow train v) as [trainData|] eqn:Htr; [|done].
    destruct (getrow test v) as [testData|] eqn:Hte; [|done].
    apply IH in Hrun as [Hkeep Hnew].
    assert (∀ u, u = v ∨ caches_user train test c u →
                 caches_user train test c' u) as Hstep.
    { intros u Hu. apply Hkeep. unfold caches_user. simpl.
      destruct (decide (u = v)) as [->|Hne].
      - exists trainData, testData. rewrite !lookup_insert_eq. by split_and!.
      - destruct Hu as [?|Hu]; [done|]. rewrite !lookup_insert_ne by done.
        exact Hu. }
    split; [intros u Hu; apply Hstep; by right|].
    intros u Hu. apply elem_of_cons in Hu as [->|Hu]; [|by apply Hnew].
    apply Hstep. by left.
Qed.

(** X29: after a run of [initializeURMDictionary] that does not raise, every
    user of the test matrix is cached: the four dictionaries hold the user's
    training row, the column indices of that row, and the column indices
    and the values of the user's test row. *)
Lemma initializeURMDictionary_caches self train test after :
  initializeURMDictionary self train test = (after, Ok ()) →
  ∀ u, u < (sp_shape test).1 → caches_user train test (cache after) u.
Proof.
  unfold initializeURMDictionary.
  destruct (fill_cache train test _ empty_cache) as [c r] eqn:Hfill.
  intros [= <- ->] u Hu. simpl.
  apply fill_cache_Ok in Hfill as [_ Hnew]. apply Hnew, elem_of_seq. lia.
Qed.






(** On the sample: the first call builds the cache, the same call again
    reuses it, and a call with another test matrix builds it anew. *)
Example fast_validation_sample :
  dictionary_builds knn23 = 1 ∧
  dictionary_builds
    (evaluateRecommendations knn23 test23 (Some 5%Z) 1 true true).1 = 1 ∧
  dictionary_builds
    (evaluateRecommendations knn23 train23 (Some 5%Z) 1 true true).1 = 2.
Proof. by vm_compute. Qed.

(** ** Batch ranking *)

(** C8: [recommendBatch] raises, and so returns no ranking, whenever the
    model has normalization enabled, and whenever [exclude_seen] is requested
    without [relevant_items]. *)
Theorem recommendBatch_unsupported_raises
    self users n ex (relevant_items : option (ndarray2 Q)) :
  normalize self = true ∨ (ex = true ∧ relevant_items = None) →
  raises (recommendBatch self users n ex relevant_items) ∧
  ∀ ranking, recommendBatch self users n ex relevant_items ≠ Ok ranking.
Proof.
  intros Hcase.
  assert (raises (recommendBatch self users n ex relevant_items)) as [e He].
  { unfold recommendBatch.
    destruct (subscriptable (URM_train self)) as [train|e]; [|by exists e].
    simpl. destruct (getrows train users) as [batch|e]; [|by exists e].
    simpl. destruct (dot_weights self batch) as [scores|e]; [|by exists e].
    simpl. destruct (normalize self); [by exists ValueError|].
    destruct Hcase as [?|[-> ->]]; [done|]. by exists ValueError. }
  split; [by exists e|]. intros ranking. by rewrite He.
Qed.

(** The theorem above on the sample data with normalization switched on. *)
Lemma recommendBatch_unsupported_raises_witness :
  let self := fitted_recommender train23 true true (Some sim3) None in
  raises (recommendBatch self [0; 1] (Some 2%Z) false None) ∧
  ∀ ranking, recommendBatch self [0; 1] (Some 2%Z) false None ≠ Ok ranking.
Proof.
  apply (recommendBatch_unsupported_raises
           (fitted_recommender train23 true true (Some sim3) None)
           [0; 1] (Some 2%Z) false None).
  left. reflexivity.
Defined.

(** When the scores of the batch can be computed, the error is the
    [ValueError] of the unsupported option. *)
Lemma recommendBatch_ValueError self users n ex
    (relevant_items : option (ndarray2 Q)) train batch scores :
  URM_train self = Some train →
  getrows train users = Ok batch →
  dot_weights self batch = Ok scores →
  normalize self = true ∨ (ex = true ∧ relevant_items = None) →
  recommendBatch self users n ex relevant_items = Raise ValueError.
Proof.
  intros Ht Hb Hs Hcase. unfold recommendBatch. rewrite Ht. simpl.
  rewrite Hb. simpl. rewrite Hs. simpl.
  destruct (normalize self); [done|]. by destruct Hcase as [?|[-> ->]].
Qed.

(** On the sample data. *)
Example recommendBatch_sample_errors :
  recommendBatch (fitted_recommender train23 true true (Some sim3) None)
    [0; 1] (Some 2%Z) false None = Raise ValueError ∧
  recommendBatch knn23 [0; 1] (Some 2%Z) true None = Raise ValueError.
Proof. by vm_compute. Qed.

(** C6 fails on the code: [argsort(axis=0)] sorts every column across the
    users of the batch, so the rows hold positions in the batch and not item
    indices. On the sample, the rows for users 0 and 1 are [0; 1] and
    [1; 0], which are in ascending score order for either user, where
    [recommend] ranks items 2, 1 for user 0 and items 0, 2 for user 1; for a
    batch of one user the row is [0; 0; 0]. *)
Theorem recommendBatch_ranks_users_not_items :
  recommendBatch knn23 [0; 1] (Some 2%Z) false None = Ok [[0; 1]; [1; 0]] ∧
  recommend knn23 0 (Some 2%Z) false false = Ok [2; 1] ∧
  recommend knn23 1 (Some 2%Z) false false = Ok [0; 2] ∧
  (∃ scores, user_scores knn23 0 = Ok scores ∧ ¬ descending scores [0; 1]) ∧
  (∃ scores, user_scores knn23 1 = Ok scores ∧ ¬ descending scores [1; 0]) ∧
  recommendBatch knn23 [1] None false None = Ok [[0; 0; 0]].
Proof.
  split_and!; try (vm_compute; reflexivity).
  - eexists. split; [vm_compute; reflexivity|].
    intros Hs. apply StronglySorted_cons in Hs as [Hs _].
    apply Forall_cons in Hs as [(x & y & Hx & Hy & Hle) _].
    simpl in Hx, Hy. simplify_eq. by vm_compute in Hle.
  - eexists. split; [vm_compute; reflexivity|].
    intros Hs. apply StronglySorted_cons in Hs as [Hs _].
    apply Forall_cons in Hs as [(x & y & Hx & Hy & Hle) _].
    simpl in Hx, Hy. simplify_eq. by vm_compute in Hle.
Qed.

(** ** Random-candidate-sampled evaluation *)

Lemma rbind_Ok {A B} (m : rand A) (k : A → rand B) tape b tape' :
  rbind m k tape = Ok (b, tape') ↔
  ∃ a tape1, m tape = Ok (a, tape1) ∧ k a tape1 = Ok (b, tape').
Proof.
  unfold rbind. destruct (m tape) as [[a tape1]|e]; split.
  - intros Hk. by exists a, tape1.
  - by intros (a' & tape1' & [= <- <-] & Hk).
  - done.
  - by intros (a' & tape1' & ? & _).
Qed.

Lemma rlift_Ok {A} (m : result A) tape a tape' :
  rlift m tape = Ok (a, tape') ↔ m = Ok a ∧ tape' = tape.
Proof.
  unfold rlift. destruct m; split; [by intros [= <- <-]|by intros [[= <-] ->]
                                   |done|by intros [? _]].
Qed.

Lemma rret_Ok {A} (a b : A) tape tape' :
  rret a tape = Ok (b, tape') ↔ b = a ∧ tape' = tape.
Proof. unfold rret. split; [by intros [= <- <-]|by intros [-> ->]]. Qed.

(** The tuple that [np.where] returns always has one component. *)
Lemma np_where_length mask : length (np_where mask) = 1.
Proof. done. Qed.

(** Every pass of the loop over the test items adds one to [hitCount],
    whether or not the item is found in the restricted ranking. *)
Lemma oneUser_items_hits unseen nrand test_items :
  ∀ ranking hitCount tape ranking' hitCount' tape',
    oneUser_items unseen nrand ranking hitCount test_items tape
      = Ok ((ranking', hitCount'), tape') →
    hitCount' = hitCount + length test_items.
Proof.
  induction test_items as [|test_item rest IH];
    intros ranking hitCount tape ranking' hitCount' tape' Hrun.
  - apply rret_Ok in Hrun as [[= <- <-] _]. simpl. lia.
  - cbn [oneUser_items] in Hrun.
    apply rbind_Ok in Hrun as (sampled & tape1 & _ & Hrun).
    rewrite np_where_length, decide_True in Hrun by lia.
    apply IH in Hrun. simpl. lia.
Qed.

(** One user adds the number of its test items to the hit counter. *)
Lemma oneUser_hits self re test_user tape re' tape' :
  evaluateRecommendationsRandomEquivalent_oneUser self re test_user tape
    = Ok (re', tape') →
  ∃ test_items,
    URM_test_relevantItems (cache self) !! test_user = Some test_items ∧
    evaluateRecommendationsRandomEquivalent_hit re' =
      evaluateRecommendationsRandomEquivalent_hit re + length test_items.
Proof.
  unfold evaluateRecommendationsRandomEquivalent_oneUser. intros Hrun.
  apply rbind_Ok in Hrun as (test_items & t1 & [Ht ->]%rlift_Ok & Hrun).
  apply rbind_Ok in Hrun as (train_items & t2 & [_ ->]%rlift_Ok & Hrun).
  apply rbind_Ok in Hrun as (profile & t3 & [_ ->]%rlift_Ok & Hrun).
  apply rbind_Ok in Hrun as (scores & t4 & [_ ->]%rlift_Ok & Hrun).
  apply rbind_Ok in Hrun as ([ranking' hits] & t5 & Hloop & Hrun).
  apply rret_Ok in Hrun as [-> _]. apply oneUser_items_hits in Hloop.
  exists test_items. split; [by apply getitem_Ok|]. simpl. lia.
Qed.

(** The hit counter after a run over [users] is the number of their test
    items. *)
Lemma randomEquivalent_users_hits self users :
  ∀ re tape re' tape',
    randomEquivalent_users self re users tape = Ok (re', tape') →
    ∃ items : list (list nat),
      Forall2 (λ u its, URM_test_relevantItems (cache self) !! u = Some its)
        users items ∧
      evaluateRecommendationsRandomEquivalent_hit re' =
        evaluateRecommendationsRandomEquivalent_hit re + length (mjoin items).
Proof.
  induction users as [|u users IH]; intros re tape re' tape' Hrun;
    simpl in Hrun.
  - apply rret_Ok in Hrun as [-> _]. exists []. split; [constructor|].
    simpl. lia.
  - apply rbind_Ok in Hrun as (re1 & t1 & Hu & Hrun).
    apply oneUser_hits in Hu as (its & Hits & Hh1).
    apply IH in Hrun as (items & Hall & Hh).
    exists (its :: items). split; [by constructor|].
    csimpl. rewrite length_app. lia.
Qed.

(** The recall that the evaluation returns: the number of test items of the
    evaluated users, whether found or not, over the number of stored test
    entries; the other five metrics are zero. *)
Lemma random_equivalent_recall self users numRandom tape res tape' :
  evaluateRecommendationsRandomEquivalent self users numRandom tape
    = Ok (res, tape') →
  ∃ test (items : list (list nat)),
    URM_test self = Some test ∧ 0 < nnz test ∧
    Forall2 (λ u its, URM_test_relevantItems (cache self) !! u = Some its)
      users items ∧
    r_recall res = (Qnat (length (mjoin items)) / Qnat (nnz test))%Q ∧
    AUC res = 0%Q ∧ r_precision res = 0%Q ∧ r_map res = 0%Q ∧
    NDCG res = 0%Q ∧ MRR res = 0%Q.
Proof.
  unfold evaluateRecommendationsRandomEquivalent. intros Hrun.
  apply rbind_Ok in Hrun as (test & t1 & [Htest%getattr_Ok ->]%rlift_Ok & Hrun).
  apply rbind_Ok in Hrun as (re & t2 & Hloop & Hrun).
  apply randomEquivalent_users_hits in Hloop as (items & Hall & Hhits).
  case_decide as Hnnz; [done|]. apply rret_Ok in Hrun as [-> _].
  exists test, items. simpl in *. rewrite Hhits.
  split_and!; [done|lia|done..].
Qed.

(** C4 fails on the code: [len(np.where(...))] is the length of a tuple of
    one array, so a hit is counted for every held-out item. On the sample of
    101 items the held-out item 100 has the lowest score and is not among
    the user's 100 candidates, so it survives in no restriction of them;
    the evaluation still counts one hit and returns recall 1. *)
Theorem random_equivalent_counts_every_item_as_hit :
  (∃ scores, user_scores knn101 0 = Ok scores ∧
             (100 ∉ top100 scores) ∧
             (∀ randoms, ¬ survives (top100 scores) 100 randoms)) ∧
  ∃ res, evaluateRecommendationsRandomEquivalent knn101 [0] 2 [7; 3]
           = Ok (res, []) ∧
         (r_recall res == 1)%Q.
Proof.
  split.
  - eexists. split; [vm_compute; reflexivity|].
    match goal with |- (?x ∉ ?l) ∧ _ =>
      assert (x ∉ l) as Hnot
    end.
    { apply (bool_decide_unpack _). by vm_compute. }
    split; [done|]. intros randoms Hs. unfold survives in Hs.
    by apply list_elem_of_filter in Hs as [_ Hs].
  - eexists. split; [vm_compute; reflexivity|]. by vm_compute.
Qed.

(** ** The BPR trainer *)

(** The loop stops at the first [z] with [(z+1) * batch_size ≥ n]. *)
Lemma train_loop_steps {params} (train_model : params → _) fuel
    (self : BPR.BPRMF_THEANO params) n :
  ∀ z W tape z' W' tape',
    BPR.train_loop train_model fuel self n z W tape = Ok ((z', W'), tape') →
    z ≤ z' ∧ n ≤ (z' + 1) * BPR.batch_size self ∧
    (z < z' → z' * BPR.batch_size self < n).
Proof.
  induction fuel as [|fuel IH]; intros z W tape z' W' tape' Hrun;
    simpl in Hrun; case_decide.
  - done.
  - apply rret_Ok in Hrun as [[= <- <-] _]. lia.
  - apply rbind_Ok in Hrun as (batch & tape1 & _ & Hrun).
    apply IH in Hrun. destruct (decide (z' = z + 1)) as [->|]; lia.
  - apply rret_Ok in Hrun as [[= <- <-] _]. lia.
Qed.

(** X30: the number of SGD steps of [train], for a batch size of at least one:
    the quotient of [epochs * nnz - 1] by the batch size. It is
    [epochs * nnz / batch_size] unless the batch size divides the number of
    samples, in which case it is one less. *)
Lemma train_steps {params} (train_model : params → _) fuel
    (self : BPR.BPRMF_THEANO params) train_data epochs batch_size tape
    steps self' tape' :
  BPR.train train_model fuel self train_data epochs batch_size tape
    = Ok ((steps, self'), tape') →
  1 ≤ batch_size →
  steps = (epochs * nnz train_data - 1) / batch_size ∧
  (0 < epochs * nnz train_data →
   (epochs * nnz train_data) mod batch_size = 0 →
   S steps = epochs * nnz train_data / batch_size) ∧
  ((epochs * nnz train_data) mod batch_size ≠ 0 →
   steps = epochs * nnz train_data / batch_size).
Proof.
  unfold BPR.train, check_matrix. cbv zeta. intros Hrun HB.
  apply rbind_Ok in Hrun as (ready & t1 & [Hinit ->]%rlift_Ok & Hrun).
  apply rbind_Ok in Hrun as ([z W'] & t2 & Hloop & Hrun).
  apply rret_Ok in Hrun as [[= -> _] _].
  apply train_loop_steps in Hloop as (_ & Hup & Hlow).
  assert (BPR.batch_size ready = batch_size) as HBr.
  { unfold BPR.initializeFastSampling in Hinit. simpl in Hinit.
    destruct (BPR.eligible_loop _ _ _ _) as [[el seen]|]; [|done].
    simpl in Hinit. by injection Hinit as <-. }
  rewrite HBr in *. simpl.
  set (n := epochs * nnz train_data) in *.
  assert (z * batch_size ≤ n) as Hlow' by (destruct (decide (z = 0)); nia).
  split_and!.
  - destruct (decide (n = 0)) as [Hn0|Hn0].
    + rewrite Hn0. simpl. rewrite Nat.Div0.div_0_l. nia.
    + apply (Nat.div_unique _ _ _ (n - 1 - batch_size * z)); nia.
  - intros Hn Hmod.
    pose proof (Nat.div_mod_eq n batch_size) as Hdm. rewrite Hmod in Hdm.
    apply (Nat.div_unique _ _ _ 0); [lia|].
    assert (n `div` batch_size = S z) by nia. nia.
  - intros Hmod.
    assert (n ≠ (z + 1) * batch_size) as Hne.
    { intros Heq. apply Hmod. rewrite Heq. apply Nat.Div0.mod_mul. }
    apply (Nat.div_unique _ _ _ (n - batch_size * z)); nia.
Qed.

(** C5 fails on the code: the loop condition [(z+1)*batch_size <
    n_sgd_samples] is strict, so when the batch size divides
    [epochs * nnz] the last batch is not run. With 2 epochs over the 3
    interactions of the sample and batches of 3, [train] performs one SGD
    step (one update of the shared variables), where [2 * 3 / 3] is two. *)
Theorem train_skips_last_batch :
  ∃ self',
    BPR.train count_update 10 bpr23 train23 2 3 [0; 1; 0; 0; 1; 0; 0; 0; 2]
      = Ok ((1, self'), []) ∧
    BPR.shared self' = 1 ∧
    2 * nnz train23 / 3 = 2.
Proof. eexists. split_and!; by vm_compute. Qed.

(** *** Negative sampling *)

Lemma draw_Ok tape d tape' : draw tape = Ok (d, tape') ↔ tape = d :: tape'.
Proof. destruct tape; simpl; split; congruence. Qed.

Lemma choice_Ok a tape x tape' :
  BPR.choice a tape = Ok (x, tape') → x ∈ a.
Proof.
  destruct a as [|y a]; [done|]. unfold BPR.choice. intros Hrun.
  apply rbind_Ok in Hrun as (d & t1 & _ & Hrun).
  apply rret_Ok in Hrun as [-> _].
  apply list_elem_of_lookup_total_2, Nat.mod_upper_bound. done.
Qed.

Lemma choices_Ok a size :
  ∀ tape xs tape',
    BPR.choices a size tape = Ok (xs, tape') →
    length xs = size ∧ Forall (λ x, x ∈ a) xs.
Proof.
  induction size as [|size IH]; intros tape xs tape' Hrun; simpl in Hrun.
  - by apply rret_Ok in Hrun as [-> _].
  - apply rbind_Ok in Hrun as (x & t1 & Hx%choice_Ok & Hrun).
    apply rbind_Ok in Hrun as (xs' & t2 & [Hlen Hall]%IH & Hrun).
    apply rret_Ok in Hrun as [-> _]. simpl. split; [lia|by constructor].
Qed.

(** The rejection loop only ends on an item of the catalogue that is not
    in [seen]. *)
Lemma sample_negative_Ok seen n_items :
  ∀ tape neg tape',
    BPR.sample_negative seen n_items tape = Ok (neg, tape') →
    neg < n_items ∧ (neg ∉ seen).
Proof.
  induction tape as [|d tape IH]; intros neg tape' Hrun; simpl in Hrun.
  - by case_decide.
  - case_decide; [done|]. case_bool_decide as Hin.
    + injection Hrun as <- <-. split; [|done].
      by apply Nat.mod_upper_bound.
    + by apply IH in Hrun.
Qed.

Lemma sample_items_Ok {params} (self : BPR.BPRMF_THEANO params) users :
  ∀ tape pos neg tape',
    BPR.sample_items self users tape = Ok ((pos, neg), tape') →
    length pos = length users ∧ length neg = length users ∧
    ∀ k u i j, users !! k = Some u → pos !! k = Some i → neg !! k = Some j →
               good_slot self u i j.
Proof.
  induction users as [|u users IH]; intros tape pos neg tape' Hrun;
    simpl in Hrun.
  - apply rret_Ok in Hrun as [[= -> ->] _]. by split_and!.
  - apply rbind_Ok in Hrun as (seen & t1 & [Hseen%getitem_Ok ->]%rlift_Ok & Hrun).
    apply rbind_Ok in Hrun as (i & t2 & Hi%choice_Ok & Hrun).
    apply rbind_Ok in Hrun as (j & t3 & Hj%sample_negative_Ok & Hrun).
    apply rbind_Ok in Hrun as ([pos' neg'] & t4 & Hrest%IH & Hrun).
    apply rret_Ok in Hrun as [[= -> ->] _].
    destruct Hrest as (Hlp & Hln & Hslots). simpl.
    split_and!; [lia..|].
    intros [|k] u' i' j' Hu' Hi' Hj'; simplify_eq/=.
    + exists seen. by destruct Hj.
    + by eapply Hslots.
Qed.

(** What [initializeFastSampling] records: every listed user has a row
    with stored entries in the training matrix, and [userSeenItems] holds
    the column indices of that row. *)
Lemma eligible_loop_Ok train users :
  ∀ el0 seen0 el seen,
    BPR.eligible_loop train users el0 seen0 = Ok (el, seen) →
    (∀ u s, seen0 !! u = Some s →
            ∃ row, getrow train u = Ok row ∧ 0 < nnz row ∧ s = indices row) →
    (∀ u, u ∈ el0 → is_Some (seen0 !! u)) →
    (∀ u s, seen !! u = Some s →
            ∃ row, getrow train u = Ok row ∧ 0 < nnz row ∧ s = indices row) ∧
    (∀ u, u ∈ el → is_Some (seen !! u)) ∧
    (∀ u, u ∈ el → u ∈ el0 ∨ u ∈ users).
Proof.
  induction users as [|v users IH]; intros el0 seen0 el seen Hrun Hgood Hsome;
    simpl in Hrun.
  - injection Hrun as <- <-. split_and!; [done..|]. by left.
  - apply bind_Ok in Hrun as (row & Hrow & Hrun). case_decide as Hnnz.
    + apply IH in Hrun as (Hg & Hs & Hsub).
      * split_and!; [done..|]. intros u Hu.
        destruct (Hsub u Hu) as [Hin|Hin]; [|right; by right].
        apply elem_of_app in Hin as [Hin|Hin]; [by left|].
        apply list_elem_of_singleton in Hin as ->. right. by left.
      * intros u s. rewrite lookup_insert. case_decide as Hu.
        -- intros [= <-]. subst u. by exists row.
        -- apply Hgood.
      * intros u Hu. rewrite lookup_insert. case_decide; [done|].
        apply elem_of_app in Hu as [Hu|Hu]; [by apply Hsome|].
        by apply list_elem_of_singleton in Hu.
    + apply IH in Hrun as (Hg & Hs & Hsub); [|done..].
      split_and!; [done..|]. intros u Hu.
      destruct (Hsub u Hu); [by left|right; by right].
Qed.

Lemma initializeFastSampling_Ok {params} (self0 self : BPR.BPRMF_THEANO params) :
  BPR.initializeFastSampling self0 = Ok self →
  BPR._n_items self = BPR._n_items self0 ∧
  BPR.batch_size self = BPR.batch_size self0 ∧
  ∀ u, u ∈ BPR.eligibleUsers self →
       eligible self u ∧
       BPR.userSeenItems self !! u = Some (train_seen self u).
Proof.
  unfold BPR.initializeFastSampling. intros Hrun.
  apply bind_Ok in Hrun as (train & Htrain & Hrun).
  apply bind_Ok in Hrun as ([el seen] & Hloop & Hrun).
  injection Hrun as <-. simpl. split_and!; [done..|].
  apply eligible_loop_Ok in Hloop as (Hg & Hs & Hsub); [|done|].
  2:{ intros u Hu. by apply elem_of_nil in Hu. }
  intros u Hu. destruct (Hs u Hu) as [s Hlook].
  destruct (Hg u s Hlook) as (row & Hrow & Hnnz & ->).
  destruct (Hsub u Hu) as [Hnil|Hseq]; [by apply elem_of_nil in Hnil|].
  apply elem_of_seq in Hseq.
  assert (train_seen
            {| BPR._n_users := BPR._n_users self0;
               BPR._n_items := BPR._n_items self0;
               BPR.URM_train := BPR.URM_train self0;
               BPR.batch_size := BPR.batch_size self0;
               BPR.eligibleUsers := el; BPR.userSeenItems := seen;
               BPR.shared := BPR.shared self0 |} u = indices row) as Hts.
  { unfold train_seen. simpl. destruct (BPR.URM_train self0); [|done].
    injection Htrain as ->. by rewrite Hrow. }
  split; [|by rewrite Hts]. split; [simpl; lia|]. rewrite Hts.
  unfold indices, nnz in *. intros Hnil.
  apply fmap_nil_inv in Hnil. rewrite Hnil in Hnnz. simpl in Hnnz. lia.
Qed.

Lemma rbind_eq {A B} (m : rand A) (k : A → rand B) tape a tape1 :
  m tape = Ok (a, tape1) → rbind m k tape = k a tape1.
Proof. unfold rbind. by intros ->. Qed.

Lemma choices_first u a size rest :
  BPR.choices (u :: a) size (replicate size 0 ++ rest)
    = Ok (replicate size u, rest).
Proof.
  induction size as [|size IH]; [done|]. cbn [BPR.choices replicate app].
  erewrite rbind_eq; [|unfold BPR.choice; erewrite rbind_eq; [|done]; done].
  erewrite rbind_eq; [|apply IH]. rewrite Nat.Div0.mod_0_l. done.
Qed.

Lemma sample_items_first {params} (self : BPR.BPRMF_THEANO params)
    u s seen j size rest :
  BPR.userSeenItems self !! u = Some (s :: seen) →
  j < BPR._n_items self → j ∉ s :: seen →
  BPR.sample_items self (replicate size u)
      (mjoin (replicate size [0; j]) ++ rest)
    = Ok ((replicate size s, replicate size j), rest).
Proof.
  intros Hseen Hj Hnot. induction size as [|size IH]; [done|].
  cbn [BPR.sample_items replicate mjoin list_join app].
  erewrite rbind_eq; [|by apply rlift_Ok, conj; [apply getitem_Ok|]].
  erewrite rbind_eq; [|unfold BPR.choice; erewrite rbind_eq; [|done]; done].
  rewrite Nat.Div0.mod_0_l. cbn [lookup_total list_lookup_total].
  erewrite rbind_eq.
  2:{ simpl. rewrite decide_False by lia. rewrite Nat.mod_small by done.
      by rewrite bool_decide_true. }
  erewrite rbind_eq; [|apply IH]. done.
Qed.

(** C7: after [initializeFastSampling], every triplet [(u, i, j)] of a batch
    that [sampleBatch] returns has an eligible user [u] (one of the
    [_n_users] users, with a stored training interaction), a positive item
    [i] in the seen-item set of [u] in the training matrix and a negative
    item [j] outside it; the three lists have [batch_size] entries. When
    every eligible user's seen-item set is a proper subset of the catalogue
    and there is an eligible user, there are draws on which [sampleBatch]
    returns a batch. *)
Theorem sampleBatch_triplets {params} (self0 self : BPR.BPRMF_THEANO params) :
  BPR.initializeFastSampling self0 = Ok self →
  (∀ u, eligible self u →
        ∃ j, j < BPR._n_items self ∧ j ∉ train_seen self u) →
  (∀ tape users pos neg tape',
     BPR.sampleBatch self tape = Ok ((users, pos, neg), tape') →
     length users = BPR.batch_size self ∧
     length pos = BPR.batch_size self ∧
     length neg = BPR.batch_size self ∧
     ∀ k u i j,
       users !! k = Some u → pos !! k = Some i → neg !! k = Some j →
       eligible self u ∧ i ∈ train_seen self u ∧ (j ∉ train_seen self u) ∧
       j < BPR._n_items self) ∧
  (BPR.eligibleUsers self ≠ [] →
   ∃ tape batch, BPR.sampleBatch self tape = Ok (batch, [])).
Proof.
  intros Hinit Hproper.
  apply initializeFastSampling_Ok in Hinit as (_ & _ & Hel). split.
  - intros tape users pos neg tape' Hrun. unfold BPR.sampleBatch in Hrun.
    apply rbind_Ok in Hrun as (us & t1 & [Hlen Hus]%choices_Ok & Hrun).
    apply rbind_Ok in Hrun as ([ps ns] & t2 & Hitems%sample_items_Ok & Hrun).
    apply rret_Ok in Hrun as [[= -> -> ->] _].
    destruct Hitems as (Hlp & Hln & Hslots). simpl in *.
    split_and!; [lia..|].
    intros k u i j Hu Hi Hj.
    destruct (Hslots k u i j Hu Hi Hj) as (seen & Hseen & Hin & Hout & Hlt).
    assert (u ∈ BPR.eligibleUsers self) as Hue.
    { eapply Forall_forall in Hus; [done|]. by eapply list_elem_of_lookup_2. }
    destruct (Hel u Hue) as [Helig Hlook].
    rewrite Hlook in Hseen. injection Hseen as <-. done.
  - intros Hne. destruct (BPR.eligibleUsers self) as [|u a] eqn:Hus; [done|].
    destruct (Hel u) as [Helig Hlook]; [by left|].
    destruct (Hproper u Helig) as (j & Hj & Hnot).
    destruct (train_seen self u) as [|s seen] eqn:Hseen;
      [by destruct Helig as [_ ?]|].
    exists (lucky_tape (BPR.batch_size self) j). eexists.
    unfold BPR.sampleBatch, lucky_tape. rewrite Hus.
    erewrite rbind_eq; [|apply choices_first].
    rewrite <-(app_nil_r (mjoin _)).
    erewrite rbind_eq; [|by apply (sample_items_first self u s seen j)]. done.
Qed.

(** The theorem above on the sample trainer: both users are eligible, user 0
    has seen item 0 and user 1 items 1 and 2 of the three items. *)
Lemma sampleBatch_triplets_witness :
  (∀ tape users pos neg tape',
     BPR.sampleBatch bpr23_ready tape = Ok ((users, pos, neg), tape') →
     length users = 2 ∧ length pos = 2 ∧ length neg = 2 ∧
     ∀ k u i j,
       users !! k = Some u → pos !! k = Some i → neg !! k = Some j →
       eligible bpr23_ready u ∧ i ∈ train_seen bpr23_ready u ∧
       (j ∉ train_seen bpr23_ready u) ∧ j < 3) ∧
  (BPR.eligibleUsers bpr23_ready ≠ [] →
   ∃ tape batch, BPR.sampleBatch bpr23_ready tape = Ok (batch, [])).
Proof.
  apply (sampleBatch_triplets
           {| BPR._n_users := 2; BPR._n_items := 3;
              BPR.URM_train := Some train23; BPR.batch_size := 2;
              BPR.eligibleUsers := []; BPR.userSeenItems := ∅;
              BPR.shared := 0 |} bpr23_ready).
  - reflexivity.
  - intros u [Hu _]. simpl in Hu.
    destruct u as [|[|u]]; [exists 1|exists 0|lia];
      (split; [simpl; lia|]); vm_compute; intros Hin;
      repeat (apply elem_of_cons in Hin as [Hin|Hin]; [discriminate|]);
      by apply elem_of_nil in Hin.
Defined.

(** One batch of the sample trainer. *)
Example sampleBatch_sample :
  BPR.sampleBatch bpr23_ready [0; 1; 0; 5; 2; 2; 1; 1; 0]
    = Ok (([0; 1], [0; 1], [2; 0]), []).
Proof. by vm_compute. Qed.

(** ** Sequential evaluation *)

Section Sequential_facts.
Variables roc_auc precision rr : list bool → Q.
Variables recall map : list bool → list nat → Q.
Variable ndcg : list nat → list nat → list Q → option Z → Q.

Abbreviation evaluate_user' := (evaluate_user roc_auc precision rr recall map ndcg).
Abbreviation evaluate_users' := (evaluate_users roc_auc precision rr recall map ndcg).
Abbreviation user_metrics' := (user_metrics roc_auc precision rr recall map ndcg).
Abbreviation users_metrics' := (users_metrics roc_auc precision rr recall map ndcg).

Lemma evaluate_user_adds self acc u acc' :
  evaluate_user' self acc u = Ok acc' →
  ∃ m, user_metrics' self u = Ok m ∧ adds acc acc' [m].
Proof.
  unfold evaluate_user, user_metrics. intros Hrun.
  apply bind_Ok in Hrun as (relevant & -> & Hrun).
  apply bind_Ok in Hrun as (recommended & -> & Hrun).
  apply bind_Ok in Hrun as (relevance & -> & Hrun).
  injection Hrun as <-. eexists. split; [done|].
  unfold adds, Qsum. simpl. split_and!; [lia|ring..].
Qed.

Lemma evaluate_users_adds self users :
  ∀ acc acc',
    evaluate_users' self acc users = Ok acc' →
    ∃ ms, users_metrics' self users = Ok ms ∧ length ms = length users ∧
          adds acc acc' ms.
Proof.
  induction users as [|u users IH]; intros acc acc' Hrun; simpl in Hrun.
  - injection Hrun as <-. exists []. split_and!; [done..|].
    unfold adds, Qsum. simpl. split_and!; [lia|ring..].
  - apply bind_Ok in Hrun as (acc1 & Hu & Hrun).
    apply evaluate_user_adds in Hu as (m & Hm & H1).
    apply IH in Hrun as (ms & Hms & Hlen & H2).
    exists (m :: ms). simpl. rewrite Hm, Hms. simpl.
    split_and!; [done|lia|].
    unfold adds, Qsum in *. simpl in H1. rewrite !fmap_cons. cbn [foldr length].
    destruct H1 as (? & E1 & E2 & E3 & E4 & E5 & E6).
    destruct H2 as (? & F1 & F2 & F3 & F4 & F5 & F6).
    rewrite F1, F2, F3, F4, F5, F6, E1, E2, E3, E4, E5, E6.
    split_and!; [lia|ring..].
Qed.

(** C9 (as amended): the metrics that the sequential evaluation returns are
    the sums of the per-user metric values divided by the number of users in
    [usersToEvaluate]: every listed user counts in the denominator, also a
    user whose cached set of relevant test items is empty. *)
Theorem sequential_averages_over_all_listed_users self usersToEvaluate res :
  evaluateRecommendationsSequential roc_auc precision rr recall map ndcg
    self usersToEvaluate = Ok res →
  usersToEvaluate ≠ [] →
  ∃ ms, users_metrics' self usersToEvaluate = Ok ms ∧
        length ms = length usersToEvaluate ∧
        (AUC res == mean_of AUC ms)%Q ∧
        (r_precision res == mean_of r_precision ms)%Q ∧
        (r_recall res == mean_of r_recall ms)%Q ∧
        (r_map res == mean_of r_map ms)%Q ∧
        (NDCG res == mean_of NDCG ms)%Q ∧
        (MRR res == mean_of MRR ms)%Q.
Proof.
  unfold evaluateRecommendationsSequential. intros Hrun Hne.
  apply bind_Ok in Hrun as (acc & Hacc & Hrun).
  apply evaluate_users_adds in Hacc as (ms & Hms & Hlen & Hadds).
  destruct Hadds as (Hn & E1 & E2 & E3 & E4 & E5 & E6). simpl in *.
  rewrite Qplus_0_l in E1, E2, E3, E4, E5, E6.
  rewrite decide_True in Hrun by (destruct usersToEvaluate; simpl in *; [done|lia]).
  injection Hrun as <-. exists ms. unfold mean_of. simpl.
  rewrite Hn, E1, E2, E3, E4, E5, E6. by split_and!.
Qed.
End Sequential_facts.

(** The theorem above on the sample, with the stand-in metric. *)
Lemma sequential_averages_over_all_listed_users_witness :
  ∃ ms, users_metrics hit_share hit_share hit_share
          (λ r _, hit_share r) (λ r _, hit_share r)
          (λ rec rel _ _, hit_share (in1d rec rel false)) knn23 [0; 1] = Ok ms ∧
        length ms = 2 ∧
        (2 # 4 == mean_of AUC ms)%Q ∧ (2 # 4 == mean_of r_precision ms)%Q ∧
        (2 # 4 == mean_of r_recall ms)%Q ∧ (2 # 4 == mean_of r_map ms)%Q ∧
        (2 # 4 == mean_of NDCG ms)%Q ∧ (2 # 4 == mean_of MRR ms)%Q.
Proof.
  apply (sequential_averages_over_all_listed_users
           hit_share hit_share hit_share
           (λ r _, hit_share r) (λ r _, hit_share r)
           (λ rec rel _ _, hit_share (in1d rec rel false)) knn23 [0; 1]
           {| AUC := 2 # 4; r_precision := 2 # 4; r_recall := 2 # 4;
              r_map := 2 # 4; NDCG := 2 # 4; MRR := 2 # 4 |}).
  - reflexivity.
  - discriminate.
Defined.

(** C9 as stated fails: user 0 of the sample has no relevant test item and
    user 1 has one, which is recommended. The per-user precisions are 0 and
    1; the evaluation over both users returns 1/2, their sum divided by two,
    and not their sum divided by the number of users with a relevant test
    item, which is one. *)
Lemma sequential_counts_users_without_test_items :
  URM_test_relevantItems (cache knn23) !! 0 = Some [] ∧
  users_with_test_items knn23 [0; 1] = [1] ∧
  ∃ res ms,
    sample_sequential knn23 [0; 1] = Ok res ∧
    users_metrics hit_share hit_share hit_share
      (λ r _, hit_share r) (λ r _, hit_share r)
      (λ rec rel _ _, hit_share (in1d rec rel false)) knn23 [0; 1] = Ok ms ∧
    (r_precision res == 1 # 2)%Q ∧
    let with_items := length (users_with_test_items knn23 [0; 1]) in
    ¬ (r_precision res == Qsum (r_precision <$> ms) / Qnat with_items)%Q.
Proof.
  split; [reflexivity|]. split; [reflexivity|].
  eexists _, _. split; [vm_compute; reflexivity|].
  split; [vm_compute; reflexivity|]. split; by vm_compute.
Qed.

(** ** Top-K sparsification *)

Lemma imap_id {A} (l : list A) : imap (λ _ x, x) l = l.
Proof.
  induction l as [|x l IH]; [done|]. rewrite imap_cons. f_equal. apply IH.
Qed.

(** With [k = 0] the slice [idx_sorted[:-k]] is empty and nothing is
    zeroed: the dense branch returns its input. *)
Lemma topK_dense_zero (W : ndarray2 Q) : topK_dense W false 0 = NdArray W.
Proof.
  unfold topK_dense, zero_out. simpl. f_equal.
  rewrite <-(imap_id W) at 2. apply imap_ext. intros r row _. simpl.
  rewrite <-(imap_id row) at 2. by apply imap_ext.
Qed.

(** C1 fails on the code for [K = 0]: [-0] is [0], so [idx_sorted[:-k]]
    selects no row to zero and [idx_sorted[-k:]] selects every stored entry.
    On the spec's example the column [0.1, 0.9, 0.4, 0.2] comes back with
    its four nonzero entries, for the dense and for the sparse input, where
    the claim allows none; with [K = 1] the column is [0, 0.9, 0, 0]. *)
Theorem similarityMatrixTopK_zero_keeps_every_entry :
  (∃ out, similarityMatrixTopK (NdArray weights4) true 0 = Ok out ∧
          weights_column out 0 = column weights4 0 ∧
          count_nonzero (weights_column out 0) = 4) ∧
  (∃ out, similarityMatrixTopK (Sparse (csr_of_dense weights4)) true 0 = Ok out ∧
          weights_column out 0 = column weights4 0 ∧
          count_nonzero (weights_column out 0) = 4) ∧
  (∃ out, similarityMatrixTopK (NdArray weights4) true 1 = Ok out ∧
          weights_column out 0 = [0; 9 # 10; 0; 0]%Q).
Proof.
  split_and!.
  - eexists. split; [vm_compute; reflexivity|]. by vm_compute.
  - eexists. split; [vm_compute; reflexivity|]. by vm_compute.
  - eexists. split; [vm_compute; reflexivity|]. by vm_compute.
Qed.

(** For [K = 0] every square dense matrix is returned as it is. *)
Lemma similarityMatrixTopK_dense_zero (W : ndarray2 Q) :
  nrows W = ncols W →
  similarityMatrixTopK (NdArray W) false 0 = Ok (NdArray W).
Proof.
  intros Hsq. unfold similarityMatrixTopK, shape. cbn [fst snd].
  rewrite decide_True by done. by rewrite topK_dense_zero.
Qed.

(** *** The dense branch for [K ≥ 1] *)

Lemma fmap_lookup_total_seq `{Inhabited A} (l : list A) :
  (λ a, l !!! a) <$> seq 0 (length l) = l.
Proof.
  apply list_eq. intros i. rewrite list_lookup_fmap.
  destruct (decide (i < length l)) as [Hi|Hi].
  - rewrite lookup_seq_lt by done. simpl.
    by rewrite <-list_lookup_lookup_total_lt.
  - rewrite lookup_seq_ge by lia. simpl. symmetry. apply lookup_ge_None. lia.
Qed.




(** Membership in the zeroed prefix and in the kept suffix of a permutation
    exclude each other. *)
Lemma take_drop_NoDup_partition (s : list nat) m r :
  NoDup s → r ∈ s → r ∈ take m s ↔ r ∉ drop m s.
Proof.
  intros Hnd Hr. rewrite <-(take_drop m s) in Hnd, Hr.
  apply NoDup_app in Hnd as (_ & Hdisj & _).
  apply elem_of_app in Hr as [Hr|Hr]; split; try done.
  - intros _. by apply Hdisj.
  - intros Hin Hnot. by apply (Hdisj r).
Qed.






(** *** The sparse branch for [K ≥ 1] *)



(** * Properties of the further functions *)

(** ** Masks and column selection *)

Lemma StronglySorted_lt_seq o n : StronglySorted lt (seq o n).
Proof.
  revert o. induction n as [|n IH]; intros o; simpl; constructor; [apply IH|].
  apply Forall_forall. intros x Hx. apply elem_of_seq in Hx. lia.
Qed.

Lemma mask_index_sublist {A} (l : list A) mask : mask_index l mask `sublist_of` l.
Proof.
  revert mask. induction l as [|x l IH]; intros [|[] mask]; simpl;
    try apply sublist_nil_l; [by apply sublist_skip|by apply sublist_cons].
Qed.

Lemma mask_index_negb_fmap {A} (f : A → bool) (l : list A) :
  mask_index l (negb <$> (f <$> l)) = filter (λ x, ¬ f x) l.
Proof.
  rewrite <-list_fmap_compose, mask_index_fmap. apply filter_ext_Prop.
  intros x. simpl. destruct (f x); simpl; naive_solver.
Qed.

Lemma filter_fmap {A B} (f : A → B) (P : B → Prop) `{∀ y, Decision (P y)}
    (l : list A) :
  filter P (f <$> l) = f <$> filter (λ x, P (f x)) l.
Proof.
  induction l as [|x l IH]; [done|]. csimpl. rewrite !filter_cons, IH.
  by destruct (decide (P (f x))).
Qed.

(** The kept columns, in order: the [mask_rank]-th kept column of a kept
    column [c] is [c] itself. *)
Lemma mask_index_rank mask :
  ∀ o c, mask !! c = Some true →
         mask_index (seq o (length mask)) mask !! mask_rank mask c = Some (o + c).
Proof.
  unfold mask_rank.
  induction mask as [|b mask IH]; intros o [|c] Hc; simplify_eq/=.
  - f_equal. lia.
  - specialize (IH (S o) c Hc). rewrite filter_cons.
    destruct b; simpl; rewrite IH; f_equal; lia.
Qed.

Lemma elem_of_mask_index_seq mask :
  ∀ o x, x ∈ mask_index (seq o (length mask)) mask ↔
         ∃ c, x = o + c ∧ mask !! c = Some true.
Proof.
  induction mask as [|b mask IH]; intros o x; simpl.
  - split; [by intros ?%elem_of_nil|by intros (c & _ & ?)].
  - assert (x ∈ mask_index (seq (S o) (length mask)) mask ↔
            ∃ c, x = o + S c ∧ mask !! c = Some true) as IH'.
    { rewrite IH. by setoid_rewrite Nat.add_succ_r. }
    destruct b; [rewrite elem_of_cons|]; rewrite IH'; split.
    + intros [->|(c & -> & Hc)]; [exists 0; split; [lia|done]|by exists (S c)].
    + intros ([|c] & -> & Hc); [left; lia|right; by exists c].
    + intros (c & -> & Hc). by exists (S c).
    + intros ([|c] & -> & Hc); [done|by exists c].
Qed.

Lemma mask_index_lookup_rank mask j c :
  mask_index (seq 0 (length mask)) mask !! j = Some c →
  mask !! c = Some true ∧ mask_rank mask c = j.
Proof.
  intros Hj.
  assert (mask !! c = Some true) as Hc.
  { apply list_elem_of_lookup_2, elem_of_mask_index_seq in Hj
      as (c' & -> & Hc). done. }
  split; [done|].
  eapply NoDup_lookup; [|apply (mask_index_rank mask 0 c Hc)|done].
  eapply sublist_NoDup; [apply NoDup_seq|apply mask_index_sublist].
Qed.

(** The values of [M[:, mask]]: its column [j] is the [j]-th kept column of
    [M]. *)
Lemma select_columns_value M mask R i j c :
  select_columns M mask = Ok R →
  mask_index (seq 0 (length mask)) mask !! j = Some c →
  value_at R i j = value_at M i c.
Proof.
  unfold select_columns. case_decide as Hlen; [|done]. intros [= <-] Hj.
  apply mask_index_lookup_rank in Hj as [Hc Hrank].
  unfold value_at. cbn [sp_entries].
  rewrite filter_fmap, <-list_fmap_compose, list_filter_filter.
  f_equal. etrans; [apply list_fmap_ext; intros ? [[r c'] v] ?; reflexivity|].
  f_equal. apply filter_ext_Prop. intros [[r c'] v].
  unfold sp_row, sp_col. simpl. split.
  - intros [[-> Hr] Hkept]. split; [done|].
    pose proof (mask_index_rank mask 0 c' Hkept) as H1.
    pose proof (mask_index_rank mask 0 c Hc) as H2.
    rewrite Hr in H1. rewrite Hrank in H2. rewrite H2 in H1.
    injection H1. lia.
  - intros [-> ->]. by split_and!.
Qed.

(** ** [removeTopPop] *)

Lemma mask_index_length {A} (l : list A) mask :
  length l = length mask →
  length (mask_index l mask) = length (filter (λ b, b = true) mask).
Proof.
  revert mask. induction l as [|x l IH]; intros [|b mask] Hlen;
    simplify_eq/=; [done|].
  rewrite filter_cons. destruct b; simpl; by rewrite IH.
Qed.

Lemma in1d_length ar1 ar2 invert : length (in1d ar1 ar2 invert) = length ar1.
Proof. unfold in1d. by rewrite length_fmap. Qed.

Lemma item_popularity_length URM_1 URM_2 pop :
  item_popularity URM_1 URM_2 = Ok pop → length pop = (sp_shape URM_1).2.
Proof.
  unfold item_popularity. intros Hpop.
  destruct (match URM_2 with Some B => _ | None => _ end); [|done].
  injection Hpop as <-. unfold column_sums. by rewrite length_fmap, length_seq.
Qed.

(** What [removeTopPop] returns, in terms of the items it takes from the
    head of the popularity ranking. *)
Lemma removeTopPop_Ok URM_1 URM_2 p M mapping removed :
  removeTopPop URM_1 URM_2 p = Ok (M, mapping, removed) →
  ∃ pop, item_popularity URM_1 URM_2 = Ok pop ∧
    let n := (sp_shape URM_1).2 in
    let top := slice_to (Some (Qtrunc (Qnat n * p))) (flip (argsort pop)) in
    let mask := in1d (seq 0 n) top true in
    select_columns URM_1 mask = Ok M ∧
    mapping = mask_index (seq 0 n) mask ∧
    mapping = filter (λ x, x ∉ top) (seq 0 n) ∧
    removed = filter (λ x, x ∈ top) (seq 0 n).
Proof.
  unfold removeTopPop. intros Hrun.
  destruct (item_popularity URM_1 URM_2) as [pop|] eqn:Hpop; [|done].
  apply item_popularity_length in Hpop as Hn.
  exists pop. split; [done|]. cbv zeta.
  cbn [mbind result_bind] in Hrun. unfold flip in *.
  rewrite length_reverse, argsort_length, Hn in Hrun.
  destruct (select_columns _ _) as [R|] eqn:HR; [|done].
  injection Hrun as <- <- <-.
  split_and!; [done|done|apply mask_in1d_invert|].
  unfold in1d. rewrite mask_index_negb_fmap. apply filter_ext_Prop.
  intros x. case_bool_decide; simpl; naive_solver.
Qed.

Lemma slice_to_flip_argsort_length (pop : list Q) z :
  length (slice_to (Some z) (flip (argsort pop))) = clamp_index (length pop) z.
Proof.
  unfold flip. simpl. rewrite length_take, length_reverse, argsort_length.
  unfold clamp_index. destruct (Z.ltb_spec z 0); lia.
Qed.

Lemma filter_elem_of_Permutation (top : list nat) n :
  NoDup top → (∀ x, x ∈ top → x < n) →
  filter (λ x, x ∈ top) (seq 0 n) ≡ₚ top.
Proof.
  intros Hnd Hlt. apply NoDup_Permutation; [|done|].
  - apply NoDup_filter, NoDup_seq.
  - intros x. rewrite list_elem_of_filter, elem_of_seq. split; [by intros []|].
    intros Hx. split; [done|]. apply Hlt in Hx. lia.
Qed.

Lemma removeTopPop_top_facts (pop : list Q) z :
  let top := slice_to (Some z) (flip (argsort pop)) in
  NoDup top ∧ (∀ x, x ∈ top → x < length pop).
Proof.
  cbv zeta. split.
  - eapply sublist_NoDup; [|apply slice_to_sublist].
    unfold flip. rewrite reverse_Permutation. apply argsort_NoDup.
  - intros x Hx. apply (elem_of_argsort pop).
    rewrite <-elem_of_reverse.
    eapply sublist_subseteq; [apply slice_to_sublist|done].
Qed.

Lemma removeTopPop_removed_length URM_1 URM_2 p M mapping removed :
  removeTopPop URM_1 URM_2 p = Ok (M, mapping, removed) →
  let n := (sp_shape URM_1).2 in
  length removed = clamp_index n (Qtrunc (Qnat n * p)) ∧
  length mapping + length removed = n.
Proof.
  intros (pop & Hpop & _ & _ & Hmap & Hrem)%removeTopPop_Ok. cbv zeta in *.
  apply item_popularity_length in Hpop as Hn.
  set (n := (sp_shape URM_1).2) in *.
  set (top := slice_to _ _) in *.
  destruct (removeTopPop_top_facts pop (Qtrunc (Qnat n * p))) as [Hnd Hlt].
  fold top in Hnd, Hlt. rewrite Hn in Hlt.
  assert (length removed = clamp_index n (Qtrunc (Qnat n * p))) as Hlen.
  { rewrite Hrem, (filter_elem_of_Permutation top n Hnd Hlt).
    unfold top. by rewrite slice_to_flip_argsort_length, Hn. }
  split; [done|].
  pose proof (filter_app_complement (λ x, x ∈ top) (seq 0 n)) as Hperm.
  apply Permutation_length in Hperm.
  rewrite length_app, length_seq in Hperm. rewrite Hmap, Hrem. lia.
Qed.



(** X1: [removeTopPop] splits the item ids [0 .. n_items-1] into the kept
    ones and the removed ones: both arrays are strictly increasing, every
    item is in exactly one of them, and the reduced matrix has the rows of
    [URM_1] and one column per kept item. *)
Theorem removeTopPop_splits_the_items URM_1 URM_2 p M mapping removed :
  removeTopPop URM_1 URM_2 p = Ok (M, mapping, removed) →
  let n := (sp_shape URM_1).2 in
  sp_shape M = ((sp_shape URM_1).1, length mapping) ∧
  StronglySorted lt mapping ∧ StronglySorted lt removed ∧
  (∀ j, j < n ↔ j ∈ mapping ∨ j ∈ removed) ∧
  (∀ j, j ∈ mapping → j ∉ removed) ∧
  length mapping + length removed = n.
Proof.
  intros Hrun. pose proof (removeTopPop_removed_length _ _ _ _ _ _ Hrun) as [_ Hsum].
  apply removeTopPop_Ok in Hrun as (pop & Hpop & Hsel & Hmask & Hmap & Hrem).
  cbv zeta in *. set (n := (sp_shape URM_1).2) in *.
  set (top := slice_to _ _) in *.
  split_and!; [| | | | |done].
  - unfold select_columns in Hsel. case_decide as Hlen; [|done].
    injection Hsel as <-. cbn [sp_shape]. f_equal.
    rewrite Hmask, mask_index_length; [done|].
    by rewrite in1d_length.
  - rewrite Hmap. eapply StronglySorted_sublist;
      [apply sublist_filter|apply StronglySorted_lt_seq].
  - rewrite Hrem. eapply StronglySorted_sublist;
      [apply sublist_filter|apply StronglySorted_lt_seq].
  - intros j. rewrite Hmap, Hrem, !list_elem_of_filter, elem_of_seq. split.
    + intros Hj. destruct (decide (j ∈ top)); [right|left]; (split; [done|lia]).
    + intros [[_ Hj]|[_ Hj]]; lia.
  - intros j. rewrite Hmap, Hrem, !list_elem_of_filter.
    intros [Hj _] [Hj' _]. done.
Qed.

Lemma removeTopPop_splits_the_items_witness :
  let r := (SpMatrix (3, 2) [(1, 1, 1%Q); (2, 0, (1 # 2)%Q)], [1; 3], [0; 2]) in
  removeTopPop urm34 None (1 # 2) = Ok r ∧
  length r.1.2 + length r.2 = 4.
Proof.
  cbv zeta. split; [by vm_compute|].
  apply (removeTopPop_splits_the_items urm34 None (1 # 2)
           (SpMatrix (3, 2) [(1, 1, 1%Q); (2, 0, (1 # 2)%Q)]) [1; 3] [0; 2]).
  by vm_compute.
Defined.





(** X4: every item that [removeTopPop] removes is at least as popular as
    every item it keeps, popularity being the column sum of [URM_1], or of
    the union of the two matrices when [URM_2] is given. *)
Theorem removeTopPop_removes_the_most_popular
    URM_1 URM_2 p M mapping removed pop r m :
  removeTopPop URM_1 URM_2 p = Ok (M, mapping, removed) →
  item_popularity URM_1 URM_2 = Ok pop →
  r ∈ removed → m ∈ mapping →
  score_ge pop r m.
Proof.
  intros (pop' & Hpop' & _ & _ & Hmap & Hrem)%removeTopPop_Ok Hpop.
  rewrite Hpop in Hpop'. injection Hpop' as <-. cbv zeta in *.
  apply item_popularity_length in Hpop as Hn.
  set (n := (sp_shape URM_1).2) in *.
  rewrite Hmap, Hrem, !list_elem_of_filter, !elem_of_seq.
  intros [Hr _] [Hm Hmn].
  pose proof (flip_argsort_descending pop) as Hsorted.
  unfold descending in Hsorted. simpl in Hr, Hm.
  rewrite <-(take_drop (clamp_index (length (flip (argsort pop)))
                          (Qtrunc (Qnat n * p))) (flip (argsort pop)))
    in Hsorted.
  eapply StronglySorted_app_1_elem_of; [apply Hsorted|done|].
  assert (m ∈ flip (argsort pop)) as Hin.
  { unfold flip. rewrite elem_of_reverse. apply elem_of_argsort. lia. }
  rewrite <-(take_drop (clamp_index (length (flip (argsort pop)))
                          (Qtrunc (Qnat n * p))) (flip (argsort pop))),
    elem_of_app in Hin.
  by destruct Hin.
Qed.

Lemma removeTopPop_removes_the_most_popular_witness :
  score_ge [2; (1 # 2); 3; 1]%Q 0 3.
Proof.
  apply (removeTopPop_removes_the_most_popular urm34 None (1 # 2)
           (SpMatrix (3, 2) [(1, 1, 1%Q); (2, 0, (1 # 2)%Q)])
           [1; 3] [0; 2]); [by vm_compute|by vm_compute|set_solver..].
Defined.

(** X5: column [j] of the reduced matrix holds the ratings of item
    [itemMappings[j]] of [URM_1]. *)
Theorem removeTopPop_keeps_the_ratings URM_1 URM_2 p M mapping removed i j c :
  removeTopPop URM_1 URM_2 p = Ok (M, mapping, removed) →
  mapping !! j = Some c →
  value_at M i j = value_at URM_1 i c.
Proof.
  intros (pop & _ & Hsel & Hmask & _ & _)%removeTopPop_Ok Hj.
  cbv zeta in *. eapply select_columns_value; [done|].
  by rewrite in1d_length, length_seq, <-Hmask.
Qed.

Lemma removeTopPop_keeps_the_ratings_witness :
  value_at (SpMatrix (3, 2) [(1, 1, 1%Q); (2, 0, (1 # 2)%Q)]) 1 1 =
  value_at urm34 1 3.
Proof.
  apply (removeTopPop_keeps_the_ratings urm34 None (1 # 2)
           (SpMatrix (3, 2) [(1, 1, 1%Q); (2, 0, (1 # 2)%Q)]) [1; 3] [0; 2]);
    [by vm_compute|done].
Defined.

(** ** [areURMequals] *)

(** X6: [areURMequals] holds exactly of two matrices (neither being [None])
    of one shape whose values agree at every position, whatever entries
    they store: explicit zeros, duplicates and the storage order do not
    count. *)
Theorem areURMequals_compares_values (URM1 URM2 : option spmatrix) :
  areURMequals URM1 URM2 = true ↔
  ∃ A B, URM1 = Some A ∧ URM2 = Some B ∧ structurally_equal A B.
Proof.
  destruct URM1 as [A|], URM2 as [B|].
  - rewrite areURMequals_spec. split; [by exists A, B|].
    by intros (A' & B' & [= <-] & [= <-] & Heq).
  - split; [done|]. by intros (A' & B' & _ & [=] & _).
  - split; [done|]. by intros (A' & B' & [=] & _).
  - split; [done|]. by intros (A' & B' & [=] & _).
Qed.

(** ** [recommend] with [filterTopPop] *)

Lemma reachable_filterTopPop_ItemsID self :
  reachable self → filterTopPop_ItemsID self = None.
Proof.
  induction 1 as [| |self test at' mr ex fv Hr IH]; [done..|].
  unfold evaluateRecommendations. cbn [check_matrix set_URM_test URM_train].
  destruct (URM_train self) as [train|]; [|done]. cbn [getattr fmap result_fmap].
  destruct (negb fv || _); [|done].
  unfold initializeURMDictionary.
  by destruct (fill_cache _ _ _ _).
Qed.

(** X7: no object that the constructor, a fit and calls of
    [evaluateRecommendations] lead to has the attribute
    [filterTopPop_ItemsID], so [recommend] with [filterTopPop=True] raises
    for every user, list length and [exclude_seen]. *)
Theorem recommend_filterTopPop_raises self user_id n ex :
  reachable self → raises (recommend self user_id n ex true).
Proof.
  intros Hids%reachable_filterTopPop_ItemsID. unfold recommend, raises.
  destruct (getitem _ user_id) as [profile|e]; [|by exists e].
  cbn [mbind result_bind].
  destruct (compute_scores self profile) as [scores|e]; [|by exists e].
  cbn [mbind result_bind].
  destruct (if ex then _ else _) as [ranking|e]; [|by exists e].
  cbn [mbind result_bind]. unfold _filter_TopPop. rewrite Hids.
  by exists AttributeError.
Qed.

Lemma recommend_filterTopPop_raises_witness :
  raises (recommend knn23 0 (Some 5%Z) true true) ∧
  recommend knn23 0 (Some 5%Z) true true = Raise AttributeError.
Proof.
  split; [|by vm_compute].
  apply (recommend_filterTopPop_raises knn23 0 (Some 5%Z) true).
  apply reachable_evaluate, reachable_fitted.
Defined.

(** ** The BPR sampler and trainer *)

Lemma rbind_Raise {A B} (m : rand A) (k : A → rand B) tape e :
  m tape = Raise e → rbind m k tape = Raise e.
Proof. unfold rbind. by intros ->. Qed.

(** The rejection loop does not end when every item of the catalogue is in
    [seen]: it uses up every sequence of draws. *)
Lemma sample_negative_full seen n_items :
  0 < n_items → (∀ j, j < n_items → j ∈ seen) →
  ∀ tape, BPR.sample_negative seen n_items tape = Raise TapeExhausted.
Proof.
  intros Hn Hfull. induction tape as [|d tape IH]; simpl.
  - rewrite decide_False by lia. done.
  - rewrite decide_False by lia. rewrite bool_decide_eq_false_2; [done|].
    intros Hnot. apply Hnot, Hfull, Nat.mod_upper_bound. lia.
Qed.

Lemma choice_cases a tape :
  a ≠ [] →
  (∃ x tape', BPR.choice a tape = Ok (x, tape') ∧ x ∈ a) ∨
  BPR.choice a tape = Raise TapeExhausted.
Proof.
  intros Ha. destruct a as [|y a]; [done|]. destruct tape as [|d tape].
  - by right.
  - left. eexists _, _. split; [done|].
    apply list_elem_of_lookup_total_2, Nat.mod_upper_bound. done.
Qed.

Lemma choices_cases a size :
  a ≠ [] →
  ∀ tape,
    (∃ xs tape', BPR.choices a size tape = Ok (xs, tape') ∧
                 length xs = size ∧ Forall (λ x, x ∈ a) xs) ∨
    BPR.choices a size tape = Raise TapeExhausted.
Proof.
  intros Ha. induction size as [|size IH]; intros tape; simpl.
  - left. by exists [], tape.
  - destruct (choice_cases a tape Ha) as [(x & t1 & Hx & Hin)|Hx];
      [|right; by apply rbind_Raise].
    rewrite (rbind_eq _ _ _ _ _ Hx).
    destruct (IH t1) as [(xs & t2 & Hxs & Hlen & Hall)|Hxs];
      [|right; by apply rbind_Raise].
    rewrite (rbind_eq _ _ _ _ _ Hxs). left. exists (x :: xs), t2.
    split_and!; [done|simpl; lia|by constructor].
Qed.

(** X8: when every eligible user has interacted with every item of the
    catalogue, [sampleBatch] does not return: the loop that looks for a
    negative item uses up every sequence of draws. *)
Theorem sampleBatch_never_ends_when_all_items_are_seen
    {params} (self0 self : BPR.BPRMF_THEANO params) :
  BPR.initializeFastSampling self0 = Ok self →
  0 < BPR.batch_size self → 0 < BPR._n_items self →
  BPR.eligibleUsers self ≠ [] →
  (∀ u j, eligible self u → j < BPR._n_items self → j ∈ train_seen self u) →
  ∀ tape, BPR.sampleBatch self tape = Raise TapeExhausted.
Proof.
  intros (_ & _ & Hel)%initializeFastSampling_Ok Hb Hn Hne Hfull tape.
  unfold BPR.sampleBatch.
  destruct (choices_cases _ (BPR.batch_size self) Hne tape)
    as [(us & t1 & Hus & Hlen & Hall)|Hus]; [|by apply rbind_Raise].
  rewrite (rbind_eq _ _ _ _ _ Hus). apply rbind_Raise.
  destruct us as [|u us]; [simpl in Hlen; lia|].
  apply Forall_cons in Hall as [Hu _]. destruct (Hel u Hu) as [Helig Hseen].
  cbn [BPR.sample_items].
  erewrite rbind_eq; [|by apply rlift_Ok; split; [apply getitem_Ok|]].
  destruct (choice_cases (train_seen self u) t1 (proj2 Helig))
    as [(i & t2 & Hi & _)|Hi]; [|by apply rbind_Raise].
  rewrite (rbind_eq _ _ _ _ _ Hi). apply rbind_Raise.
  apply sample_negative_full; [done|]. intros j Hj. by apply Hfull.
Qed.

Lemma sampleBatch_never_ends_when_all_items_are_seen_witness :
  BPR.sampleBatch bpr12_ready [0; 0; 1; 0; 1; 1; 0] = Raise TapeExhausted.
Proof.
  apply (sampleBatch_never_ends_when_all_items_are_seen bpr12 bpr12_ready);
    [by vm_compute|simpl; lia|simpl; lia|done|].
  intros u j [Hu _] Hj. simpl in Hu, Hj.
  assert (u = 0) as -> by lia. vm_compute. set_solver by lia.
Defined.

(** *** [initializeFastSampling] *)

Lemma getrow_nnz_indices train u row :
  getrow train u = Ok row → (0 < nnz row ↔ row_indices train u ≠ []).
Proof.
  intros Hrow. unfold row_indices. rewrite Hrow. unfold nnz, indices.
  destruct (sp_entries row); simpl; split; (done || lia).
Qed.

(** The loop over the users that all have a row: it appends the users with
    stored entries, in order, and records their column indices. *)
Lemma eligible_loop_eq train users :
  Forall (λ u, u < (sp_shape train).1) users →
  ∀ el0 seen0, ∃ seen,
    BPR.eligible_loop train users el0 seen0 =
      Ok (el0 ++ filter (λ u, row_indices train u ≠ []) users, seen) ∧
    ∀ u, seen !! u =
         if decide (u ∈ filter (λ u, row_indices train u ≠ []) users)
         then Some (row_indices train u) else seen0 !! u.
Proof.
  induction users as [|v users IH]; intros Hall el0 seen0.
  - exists seen0. simpl. by rewrite app_nil_r.
  - apply Forall_cons in Hall as [Hv Hall]. cbn [BPR.eligible_loop].
    unfold getrow at 1. rewrite decide_True by done. cbn [mbind result_bind].
    set (row := SpMatrix _ _).
    assert (getrow train v = Ok row) as Hrow.
    { unfold getrow. by rewrite decide_True. }
    pose proof (getrow_nnz_indices train v row Hrow) as Hnnz.
    rewrite filter_cons. destruct (decide (0 < nnz row)) as [Hpos|Hpos].
    + rewrite decide_True by by apply Hnnz.
      destruct (IH Hall (el0 ++ [v]) (<[v := indices row]> seen0))
        as (seen & -> & Hseen).
      exists seen. rewrite <-app_assoc. split; [done|].
      intros u. rewrite Hseen.
      destruct (decide (u ∈ filter _ users)) as [Hin|Hin].
      * rewrite decide_True; [done|]. by right.
      * rewrite lookup_insert. destruct (decide (v = u)) as [->|Hne].
        -- rewrite decide_True by by left.
           unfold row_indices. by rewrite Hrow.
        -- rewrite decide_False; [done|].
           intros [->|?]%elem_of_cons; done.
    + rewrite decide_False by (intros ?; by apply Hpos, Hnnz).
      destruct (IH Hall el0 seen0) as (seen & -> & Hseen).
      by exists seen.
Qed.

(** The loop stops with an [IndexError] at the first user without a row. *)
Lemma eligible_loop_IndexError train users :
  Exists (λ u, ¬ u < (sp_shape train).1) users →
  ∀ el0 seen0, BPR.eligible_loop train users el0 seen0 = Raise IndexError.
Proof.
  induction users as [|v users IH]; intros Hex el0 seen0;
    [by apply Exists_nil in Hex|].
  cbn [BPR.eligible_loop]. unfold getrow at 1.
  destruct (decide (v < (sp_shape train).1)) as [Hv|Hv]; [|done].
  apply Exists_cons in Hex as [Hex|Hex]; [done|].
  cbn [mbind result_bind]. case_decide; by apply IH.
Qed.

Lemma initializeFastSampling_succeeds
    {params} (self0 : BPR.BPRMF_THEANO params) train :
  BPR.URM_train self0 = Some train →
  BPR._n_users self0 ≤ (sp_shape train).1 →
  ∃ self, BPR.initializeFastSampling self0 = Ok self.
Proof.
  intros Htrain Hn. unfold BPR.initializeFastSampling. rewrite Htrain.
  cbn [subscriptable mbind result_bind].
  destruct (eligible_loop_eq train (seq 0 (BPR._n_users self0))) with
    (el0 := @nil nat) (seen0 := (∅ : gmap nat (list nat)))
    as (seen & -> & _); [|by eexists].
  apply Forall_forall. intros u Hu%elem_of_seq. lia.
Qed.

(** X9: [initializeFastSampling] lists in [eligibleUsers], in ascending
    order, the users below [_n_users] whose row of the training matrix
    stores an entry, and records for exactly these users the column indices
    of the row; when the matrix has fewer than [_n_users] rows it raises an
    [IndexError]. *)
Theorem initializeFastSampling_lists_the_rated_users
    {params} (self0 : BPR.BPRMF_THEANO params) train :
  BPR.URM_train self0 = Some train →
  if decide (BPR._n_users self0 ≤ (sp_shape train).1) then
    ∃ self,
      BPR.initializeFastSampling self0 = Ok self ∧
      BPR.eligibleUsers self =
        filter (λ u, row_indices train u ≠ []) (seq 0 (BPR._n_users self0)) ∧
      ∀ u, BPR.userSeenItems self !! u =
           if decide (u ∈ BPR.eligibleUsers self)
           then Some (row_indices train u) else None
  else BPR.initializeFastSampling self0 = Raise IndexError.
Proof.
  intros Htrain. unfold BPR.initializeFastSampling. rewrite Htrain.
  cbn [subscriptable mbind result_bind]. case_decide as Hn.
  - destruct (eligible_loop_eq train (seq 0 (BPR._n_users self0))) with
      (el0 := @nil nat) (seen0 := (∅ : gmap nat (list nat)))
      as (seen & -> & Hseen).
    { apply Forall_forall. intros u Hu%elem_of_seq. lia. }
    eexists. split; [done|]. cbn [BPR.eligibleUsers BPR.userSeenItems app].
    split; [done|]. intros u. rewrite Hseen. by case_decide.
  - rewrite eligible_loop_IndexError; [done|].
    apply Exists_exists. exists (sp_shape train).1. split; [|lia].
    apply elem_of_seq. lia.
Qed.

Lemma initializeFastSampling_lists_the_rated_users_witness :
  (∃ self, BPR.initializeFastSampling bpr12 = Ok self ∧
           BPR.eligibleUsers self = [0] ∧
           BPR.userSeenItems self !! 0 = Some [0; 1]) ∧
  BPR.initializeFastSampling
    {| BPR._n_users := 3; BPR._n_items := 3; BPR.URM_train := Some train23;
       BPR.batch_size := 1; BPR.eligibleUsers := [];
       BPR.userSeenItems := ∅; BPR.shared := 0 |} = Raise IndexError.
Proof.
  split.
  - pose proof (initializeFastSampling_lists_the_rated_users bpr12 ones12
                  eq_refl) as H.
    rewrite decide_True in H by (simpl; lia).
    destruct H as (self & Hrun & Hel & Hseen). exists self.
    split_and!; [done|done|]. rewrite Hseen, Hel. done.
  - by vm_compute.
Defined.

(** *** The loop of [train] *)

(** A batch of size zero takes no draw. *)
Lemma sampleBatch_empty {params} (self : BPR.BPRMF_THEANO params) tape :
  BPR.batch_size self = 0 →
  BPR.sampleBatch self tape = Ok (([], [], []), tape).
Proof. unfold BPR.sampleBatch. by intros ->. Qed.

Lemma train_loop_batch_size_zero {params} (train_model : params → _) fuel
    (self : BPR.BPRMF_THEANO params) n :
  BPR.batch_size self = 0 → 0 < n →
  ∀ z W tape,
    BPR.train_loop train_model fuel self n z W tape = Raise OutOfFuel.
Proof.
  intros Hb Hn. induction fuel as [|fuel IH]; intros z W tape; simpl;
    rewrite Hb, Nat.mul_0_r, decide_True by done; [done|].
  rewrite (rbind_eq _ _ _ _ _ (sampleBatch_empty self tape Hb)). apply IH.
Qed.

(** X10: with [batch_size=0], at least one sample to draw and a user
    to draw it for, the loop of [train] does not end: the condition
    [(z+1)*batch_size < n_sgd_samples] stays true, so every bound on the
    number of passes is reached. *)
Theorem train_batch_size_zero_never_ends {params} (train_model : params → _)
    fuel (self : BPR.BPRMF_THEANO params) train_data epochs tape :
  0 < epochs * nnz train_data →
  BPR._n_users self ≤ (sp_shape train_data).1 →
  (∃ u, u < BPR._n_users self ∧ row_indices train_data u ≠ []) →
  BPR.train train_model fuel self train_data epochs 0 tape = Raise OutOfFuel.
Proof.
  intros Hn Hrows _. unfold BPR.train, check_matrix. cbv zeta.
  set (self1 := BPR.Build_BPRMF_THEANO _ _ _ _ _ _ _ _).
  destruct (initializeFastSampling_succeeds self1 train_data eq_refl Hrows)
    as [ready Hready].
  erewrite rbind_eq; [|by apply rlift_Ok].
  apply rbind_Raise, train_loop_batch_size_zero; [|done].
  apply initializeFastSampling_Ok in Hready as (_ & -> & _). done.
Qed.

Lemma train_batch_size_zero_never_ends_witness :
  BPR.train count_update 1000 bpr23 train23 1 0 [] = Raise OutOfFuel.
Proof.
  apply (train_batch_size_zero_never_ends count_update 1000 bpr23 train23 1 []);
    [simpl; lia|simpl; lia|].
  exists 0. split; [simpl; lia|done].
Defined.

(** The sampler and the set-up never report that the bound on the loop
    passes was reached. *)
Lemma rbind_not_OutOfFuel {A B} (m : rand A) (k : A → rand B) tape :
  m tape ≠ Raise OutOfFuel →
  (∀ a t, m tape = Ok (a, t) → k a t ≠ Raise OutOfFuel) →
  rbind m k tape ≠ Raise OutOfFuel.
Proof.
  unfold rbind. destruct (m tape) as [[a t]|e]; intros Hm Hk; [by apply Hk|].
  congruence.
Qed.

Lemma sample_negative_not_OutOfFuel seen n_items tape :
  BPR.sample_negative seen n_items tape ≠ Raise OutOfFuel.
Proof.
  induction tape as [|d tape IH]; simpl; repeat case_decide; try done.
Qed.

Lemma choice_not_OutOfFuel a tape : BPR.choice a tape ≠ Raise OutOfFuel.
Proof. by destruct a, tape. Qed.

Lemma choices_not_OutOfFuel a size :
  ∀ tape, BPR.choices a size tape ≠ Raise OutOfFuel.
Proof.
  induction size as [|size IH]; intros tape; [done|]. simpl.
  apply rbind_not_OutOfFuel; [apply choice_not_OutOfFuel|]. intros x t _.
  apply rbind_not_OutOfFuel; [apply IH|]. done.
Qed.

Lemma sample_items_not_OutOfFuel {params} (self : BPR.BPRMF_THEANO params)
    users :
  ∀ tape, BPR.sample_items self users tape ≠ Raise OutOfFuel.
Proof.
  induction users as [|u users IH]; intros tape; [done|]. simpl.
  apply rbind_not_OutOfFuel.
  { unfold rlift, getitem. by destruct (_ !! u). }
  intros seen t _. apply rbind_not_OutOfFuel; [apply choice_not_OutOfFuel|].
  intros i t1 _.
  apply rbind_not_OutOfFuel; [apply sample_negative_not_OutOfFuel|].
  intros j t2 _. apply rbind_not_OutOfFuel; [apply IH|]. done.
Qed.

Lemma sampleBatch_not_OutOfFuel {params} (self : BPR.BPRMF_THEANO params) tape :
  BPR.sampleBatch self tape ≠ Raise OutOfFuel.
Proof.
  unfold BPR.sampleBatch.
  apply rbind_not_OutOfFuel; [apply choices_not_OutOfFuel|]. intros us t _.
  apply rbind_not_OutOfFuel; [apply sample_items_not_OutOfFuel|]. done.
Qed.

Lemma eligible_loop_not_OutOfFuel train users :
  ∀ el0 seen0, BPR.eligible_loop train users el0 seen0 ≠ Raise OutOfFuel.
Proof.
  induction users as [|v users IH]; intros el0 seen0; [done|]. simpl.
  unfold getrow. case_decide; [|done]. simpl. case_decide; apply IH.
Qed.

Lemma train_loop_enough_fuel {params} (train_model : params → _)
    (self : BPR.BPRMF_THEANO params) n fuel :
  ∀ z W tape,
    n ≤ (z + fuel + 1) * BPR.batch_size self →
    BPR.train_loop train_model fuel self n z W tape ≠ Raise OutOfFuel.
Proof.
  induction fuel as [|fuel IH]; intros z W tape Hfuel; simpl.
  - rewrite decide_False by lia. done.
  - case_decide; [|done].
    apply rbind_not_OutOfFuel; [apply sampleBatch_not_OutOfFuel|].
    intros batch t _. apply IH. lia.
Qed.

(** X11: for a batch size of at least one the loop of [train] ends:
    [(epochs * nnz - 1) / batch_size] passes suffice, so a run given that
    many never stops for lack of passes, whatever the random draws. *)
Theorem train_loop_ends {params} (train_model : params → _) fuel
    (self : BPR.BPRMF_THEANO params) train_data epochs batch_size tape :
  1 ≤ batch_size →
  (epochs * nnz train_data - 1) / batch_size ≤ fuel →
  BPR.train train_model fuel self train_data epochs batch_size tape
    ≠ Raise OutOfFuel.
Proof.
  intros Hb Hfuel. unfold BPR.train, check_matrix. cbv zeta.
  apply rbind_not_OutOfFuel.
  { unfold rlift, BPR.initializeFastSampling. cbn [BPR.URM_train subscriptable].
    cbn [mbind result_bind].
    pose proof (eligible_loop_not_OutOfFuel train_data
                  (seq 0 (BPR._n_users self)) [] ∅) as Hloop.
    destruct (BPR.eligible_loop _ _ _ _) as [[el seen]|e]; [done|].
    simpl. congruence. }
  intros ready t [Hinit ->]%rlift_Ok.
  apply initializeFastSampling_Ok in Hinit as (_ & HB & _). simpl in HB.
  apply rbind_not_OutOfFuel; [|done].
  apply train_loop_enough_fuel. rewrite HB.
  set (n := epochs * nnz train_data) in *.
  pose proof (Nat.div_mod_eq (n - 1) batch_size) as Hdm.
  pose proof (Nat.mod_upper_bound (n - 1) batch_size ltac:(lia)) as Hup.
  nia.
Qed.

Lemma train_loop_ends_witness :
  BPR.train count_update 1 bpr23 train23 2 3 [0; 1; 0; 0; 1; 0; 0; 0; 2]
    ≠ Raise OutOfFuel ∧
  (2 * nnz train23 - 1) / 3 = 1.
Proof.
  split; [|done].
  apply (train_loop_ends count_update 1 bpr23 train23 2 3); [lia|done].
Defined.

(** ** Sample runs of the cache and of the trainer *)

Lemma initializeURMDictionary_caches_witness :
  caches_user train23 test23
    (cache (initializeURMDictionary init train23 test23).1) 1.
Proof.
  apply (initializeURMDictionary_caches init train23 test23
           (initializeURMDictionary init train23 test23).1);
    [by vm_compute|simpl; lia].
Defined.

Lemma train_steps_witness :
  ∃ self',
    BPR.train count_update 10 bpr23 train23 2 3 [0; 1; 0; 0; 1; 0; 0; 0; 2]
      = Ok ((1, self'), []) ∧
    1 = (2 * nnz train23 - 1) / 3.
Proof.
  eexists. split; [vm_compute; reflexivity|].
  eapply (train_steps count_update 10 bpr23 train23 2 3
            [0; 1; 0; 0; 1; 0; 0; 0; 2] 1 _ []);
    [vm_compute; reflexivity|lia].
Defined.

(** ** [recommend_new_user] *)

Lemma filtered_ranking_mask (scores : list Q) (ex : bool) (seen : list nat) :
  (if ex
   then mask_index (flip (argsort scores))
          (in1d (flip (argsort scores)) seen true)
   else flip (argsort scores))
  = filtered_ranking scores ex seen false [].
Proof.
  unfold filtered_ranking. rewrite (filter_True (λ i, false = true → i ∉ [])) by done.
  destruct ex.
  - rewrite mask_in1d_invert. apply filter_ext_Prop. naive_solver.
  - by rewrite filter_True.
Qed.

(** The scores can be computed only when the assertion on the shapes holds. *)
Lemma recommend_new_user_scores self profile n ex scores :
  compute_scores self profile = Ok scores →
  recommend_new_user self profile n ex =
    Ok (slice_to n (filtered_ranking scores ex (indices profile) false [])).
Proof.
  intros Hsc. unfold recommend_new_user. rewrite Hsc.
  assert ((if sparse_weights self then
             Ws ← getattr (W_sparse self);
             if decide ((sp_shape profile).2 = (sp_shape Ws).1)
             then Ok () else Raise AssertionError
           else
             Wd ← getattr (W self);
             if decide ((sp_shape profile).2 = nrows Wd)
             then Ok () else Raise AssertionError) = Ok ()) as ->.
  { unfold compute_scores, dot_weights, dot_sparse, dot_dense in Hsc.
    destruct (sparse_weights self).
    - destruct (W_sparse self) as [Ws|]; [|done]. simpl in *.
      by destruct (decide (_ = (sp_shape Ws).1)).
    - destruct (W self) as [Wd|]; [|done]. simpl in *.
      by destruct (decide (_ = nrows Wd)). }
  cbn [mbind result_bind mret result_ret]. by rewrite filtered_ranking_mask.
Qed.

Lemma recommend_new_user_Ok self profile n ex items :
  recommend_new_user self profile n ex = Ok items →
  ∃ scores, compute_scores self profile = Ok scores.
Proof.
  unfold recommend_new_user. intros Hrun.
  apply bind_Ok in Hrun as (tt' & _ & Hrun).
  apply bind_Ok in Hrun as (scores & Hsc & _). by exists scores.
Qed.

(** X12: for a user whose training row [initializeURMDictionary] has
    cached, [recommend_new_user] on that row returns the list that
    [recommend] returns for the user without the top-popular filter, and
    one of them returns a list only if the other does. *)
Theorem recommend_new_user_agrees_with_recommend
    self train test user_id profile n ex items :
  caches_user train test (cache self) user_id →
  getrow train user_id = Ok profile →
  recommend_new_user self profile n ex = Ok items ↔
  recommend self user_id n ex false = Ok items.
Proof.
  intros (trainData & testData & Hrow & _ & Hp & Hs & _) Hprofile.
  rewrite Hrow in Hprofile. injection Hprofile as ->.
  assert (∀ scores, compute_scores self profile = Ok scores →
            recommend self user_id n ex false =
              Ok (slice_to n (filtered_ranking scores ex (indices profile)
                                false []))) as Hrec.
  { intros scores Hsc.
    rewrite (recommend_eq self user_id n ex false profile (indices profile)
               scores Hp Hs Hsc) by done.
    unfold filtered_ranking.
    by rewrite !(filter_True (λ i, false = true → _)) by done. }
  split.
  - intros Hnew. destruct (recommend_new_user_Ok _ _ _ _ _ Hnew) as [scores Hsc].
    rewrite (recommend_new_user_scores _ _ _ _ _ Hsc) in Hnew.
    by rewrite (Hrec _ Hsc).
  - intros Hold.
    assert (∃ scores, compute_scores self profile = Ok scores) as [scores Hsc].
    { unfold recommend in Hold. apply getitem_Ok in Hp. rewrite Hp in Hold.
      apply bind_Ok in Hold as (p & [= <-] & Hold).
      apply bind_Ok in Hold as (scores & Hsc & _). by exists scores. }
    rewrite (Hrec _ Hsc) in Hold.
    by rewrite (recommend_new_user_scores _ _ _ _ _ Hsc).
Qed.

Lemma recommend_new_user_agrees_with_recommend_witness :
  recommend_new_user knn23 (SpMatrix (1, 3) [(0, 1, 2%Q); (0, 2, 1%Q)])
    (Some 5%Z) true = Ok [0] ↔
  recommend knn23 1 (Some 5%Z) true false = Ok [0].
Proof.
  apply (recommend_new_user_agrees_with_recommend knn23 train23 test23 1).
  - eexists _, _. split_and!; by vm_compute.
  - by vm_compute.
Defined.

(** X13: for weights that fit the profile and a requested length
    [N ≥ 0], [recommend_new_user] returns at most [N] item indices of the
    catalogue in order of non-increasing score, none of them an item stored
    in the profile when [exclude_seen] is set. *)
Theorem recommend_new_user_at_most_n_unseen_descending
    self profile (N : Z) ex n_items :
  (0 ≤ N)%Z →
  fitted self profile n_items →
  ∃ items scores,
    recommend_new_user self profile (Some N) ex = Ok items ∧
    compute_scores self profile = Ok scores ∧
    length items ≤ Z.to_nat N ∧
    (∀ i, i ∈ items → i < n_items) ∧
    (ex = true → ∀ i, i ∈ items → i ∉ indices profile) ∧
    descending scores items.
Proof.
  intros HN Hf.
  destruct (compute_scores_fitted _ _ _ Hf) as (scores & Hsc & Hlen).
  eexists _, scores. split; [by apply recommend_new_user_scores|].
  split; [done|]. split; [by apply slice_to_length|].
  assert (∀ i, i ∈ slice_to (Some N) (filtered_ranking scores ex
                 (indices profile) false []) →
          i < n_items ∧ (ex = true → i ∉ indices profile)) as Hin.
  { intros i Hi. eapply sublist_subseteq in Hi; [|apply slice_to_sublist].
    apply elem_of_filtered_ranking in Hi. rewrite Hlen in Hi. tauto. }
  split; [intros i Hi; by apply Hin|].
  split; [intros Hex i Hi; by apply Hin|].
  eapply StronglySorted_sublist; [|apply flip_argsort_descending].
  etrans; [apply slice_to_sublist|apply filtered_ranking_sublist].
Qed.

Lemma recommend_new_user_at_most_n_unseen_descending_witness :
  ∃ items scores,
    recommend_new_user knn23 (SpMatrix (1, 3) [(0, 0, 1%Q)]) (Some 1%Z) true
      = Ok items ∧
    compute_scores knn23 (SpMatrix (1, 3) [(0, 0, 1%Q)]) = Ok scores ∧
    length items ≤ 1 ∧
    (∀ i, i ∈ items → i < 3) ∧
    (true = true → ∀ i, i ∈ items → i ∉ [0]) ∧
    descending scores items.
Proof.
  apply (recommend_new_user_at_most_n_unseen_descending knn23
           (SpMatrix (1, 3) [(0, 0, 1%Q)]) 1 true 3); [lia|].
  split; [done|]. exists sim3. by split_and!.
Defined.

(** ** Parallel evaluation *)

Lemma pool_map_length {A B} (f : A → result B) l rs :
  pool_map f l = Ok rs → length rs = length l.
Proof.
  revert rs. induction l as [|x l IH]; intros rs Hrun; simpl in Hrun.
  - by injection Hrun as <-.
  - apply bind_Ok in Hrun as (y & _ & Hrun).
    apply bind_Ok in Hrun as (ys & Hys%IH & Hrun).
    injection Hrun as <-. simpl. lia.
Qed.

Section Parallel_facts.
Variables roc_auc precision rr : list bool → Q.
Variables recall map : list bool → list nat → Q.
Variable ndcg : list nat → list nat → list Q → option Z → Q.

#[local] Abbreviation evaluateOneUser' :=
  (evaluateOneUser roc_auc precision rr recall map ndcg).
#[local] Abbreviation evaluate_user' :=
  (evaluate_user roc_auc precision rr recall map ndcg).
#[local] Abbreviation evaluate_users' :=
  (evaluate_users roc_auc precision rr recall map ndcg).

Lemma evaluate_user_one self train test sums n u :
  URM_test self = Some test →
  caches_user train test (cache self) u →
  evaluate_user' self (sums_accumulator sums n) u =
    r ← evaluateOneUser' self u;
    mret (sums_accumulator (add_result sums r) (S n)).
Proof.
  intros Htest (trainData & testData & _ & Hrow & _ & _ & Hrel & Hrat).
  unfold evaluate_user, evaluateOneUser. rewrite Htest.
  apply getitem_Ok in Hrel, Hrat. rewrite Hrel, Hrat.
  cbn [getattr mbind result_bind]. rewrite Hrow. cbn [mbind result_bind].
  destruct (recommend _ _ _ _ _) as [items|e]; [|done].
  by destruct sums as [[[[[a p] r] m] rr'] nd].
Qed.

Lemma evaluate_users_pool_map self train test users :
  URM_test self = Some test →
  (∀ u, u ∈ users → caches_user train test (cache self) u) →
  ∀ sums n,
    evaluate_users' self (sums_accumulator sums n) users =
      rs ← pool_map (evaluateOneUser' self) users;
      mret (sums_accumulator (foldl add_result sums rs) (n + length rs)).
Proof.
  intros Htest. induction users as [|u users IH]; intros Hc sums n.
  - simpl. by rewrite Nat.add_0_r.
  - cbn [evaluate_users pool_map].
    rewrite (evaluate_user_one self train test) by (done || apply Hc; by left).
    destruct (evaluateOneUser' self u) as [r|e]; [|done].
    cbn [mbind result_bind mret result_ret].
    rewrite IH by (intros v Hv; apply Hc; by right).
    destruct (pool_map _ users) as [rs|e]; [|done]. simpl.
    by rewrite Nat.add_succ_r.
Qed.

(** X14: on an object whose dictionaries were built for [self.URM_test],
    the parallel evaluation and the sequential evaluation return the same
    results for the same users. *)
Theorem parallel_agrees_with_sequential self train test usersToEvaluate res :
  URM_test self = Some test →
  (∀ u, u ∈ usersToEvaluate → caches_user train test (cache self) u) →
  evaluateRecommendationsParallel roc_auc precision rr recall map ndcg
    self usersToEvaluate = Ok res ↔
  evaluateRecommendationsSequential roc_auc precision rr recall map ndcg
    self usersToEvaluate = Ok res.
Proof.
  intros Htest Hc.
  unfold evaluateRecommendationsParallel, evaluateRecommendationsSequential.
  change accumulator0 with (sums_accumulator (0, 0, 0, 0, 0, 0)%Q 0).
  rewrite (evaluate_users_pool_map self train test) by done.
  destruct (pool_map _ usersToEvaluate) as [rs|e] eqn:Hrs; [|done].
  apply pool_map_length in Hrs. cbn [mbind result_bind mret result_ret].
  destruct (foldl add_result _ rs) as [[[[[a p] r] m] rr'] nd].
  cbn [sums_accumulator n_eval roc_auc_ precision_ recall_ map_ mrr_ ndcg_].
  rewrite Nat.add_0_l, Hrs. by case_decide.
Qed.
End Parallel_facts.

Lemma parallel_agrees_with_sequential_witness :
  let res := {| AUC := 2 # 4; r_precision := 2 # 4; r_recall := 2 # 4;
                r_map := 2 # 4; NDCG := 2 # 4; MRR := 2 # 4 |} in
  sample_parallel knn23 [0; 1] = Ok res ↔ sample_sequential knn23 [0; 1] = Ok res.
Proof.
  cbv zeta.
  apply (parallel_agrees_with_sequential hit_share hit_share hit_share
           (λ r _, hit_share r) (λ r _, hit_share r)
           (λ rec rel _ _, hit_share (in1d rec rel false))
           knn23 train23 test23 [0; 1]); [done|].
  intros u Hu.
  assert (u = 0 ∨ u = 1) as [->| ->]
    by (rewrite !elem_of_cons, elem_of_nil in Hu; tauto);
    eexists _, _; split_and!; by vm_compute.
Defined.

(** ** [fit] of the BPR trainer *)

Lemma initializeFastSampling_shared
    {params} (self0 self : BPR.BPRMF_THEANO params) :
  BPR.initializeFastSampling self0 = Ok self →
  BPR.shared self = BPR.shared self0.
Proof.
  unfold BPR.initializeFastSampling. intros Hrun.
  apply bind_Ok in Hrun as (train & _ & Hrun).
  apply bind_Ok in Hrun as ([el seen] & _ & Hrun). by injection Hrun as <-.
Qed.

(** X15: [fit] trains with 10 epochs and batches of 1000, so on a matrix
    with at most 100 stored interactions the loop condition
    [1000 < 10 * nnz] fails at once: [fit] returns without a single SGD
    step and without a random draw, and leaves the factors as they were. *)
Theorem fit_takes_no_step_on_small_data {params} (train_model : params → _)
    fuel (self : BPR.BPRMF_THEANO params) R tape :
  nnz R ≤ 100 →
  BPR._n_users self ≤ (sp_shape R).1 →
  ∃ self', BPR_fit train_model fuel self R tape = Ok ((0, self'), tape) ∧
           BPR.shared self' = BPR.shared self.
Proof.
  intros Hnnz Hrows. unfold BPR_fit, BPR.train, check_matrix. cbv zeta.
  set (self1 := BPR.Build_BPRMF_THEANO _ _ _ _ _ _ _ _).
  destruct (initializeFastSampling_succeeds self1 R eq_refl Hrows)
    as [ready Hready].
  erewrite rbind_eq; [|by apply rlift_Ok].
  pose proof (initializeFastSampling_shared _ _ Hready) as Hshared.
  apply initializeFastSampling_Ok in Hready as (_ & HB & _). simpl in HB.
  assert (BPR.train_loop train_model fuel ready (10 * nnz R) 0
            (BPR.shared ready) tape = Ok ((0, BPR.shared ready), tape)) as Hloop.
  { destruct fuel; simpl; rewrite HB, decide_False by lia; done. }
  erewrite rbind_eq; [|exact Hloop]. eexists. split; [done|]. done.
Qed.

Lemma fit_takes_no_step_on_small_data_witness :
  ∃ self', BPR_fit count_update 0 bpr23 train23 [] = Ok ((0, self'), []) ∧
           BPR.shared self' = BPR.shared bpr23.
Proof.
  apply (fit_takes_no_step_on_small_data count_update 0 bpr23 train23 []);
    unfold nnz, bpr23, train23; simpl; lia.
Defined.

(** ** The factor model *)

Lemma index_Ok {A} (a : list A) i x : index a i = Ok x ↔ a !! i = Some x.
Proof. unfold index. destruct (a !! i); split; congruence. Qed.

Lemma index_lt {A} (a : list A) i :
  i < length a → ∃ x, index a i = Ok x ∧ a !! i = Some x.
Proof.
  intros [x Hx]%lookup_lt_is_Some. exists x. by rewrite index_Ok.
Qed.

Lemma index_ge {A} (a : list A) i :
  length a ≤ i → index a i = Raise IndexError.
Proof. intros Hi%lookup_ge_None. unfold index. by rewrite Hi. Qed.


Lemma predictions_lt self u :
  u < length (BPRMF.W self) → ∃ scores, BPRMF.predictions self u = Ok scores.
Proof.
  intros (v & Hv & _)%index_lt. unfold BPRMF.predictions. cbv zeta.
  rewrite Hv. by eexists.
Qed.

Lemma predictions_ge self u :
  length (BPRMF.W self) ≤ u → BPRMF.predictions self u = Raise IndexError.
Proof.
  intros Hu%index_ge. unfold BPRMF.predictions. cbv zeta. by rewrite Hu.
Qed.


(** X17: for a user with a row in [W] and a requested length [N ≥ 0],
    [recommend] of the BPR model returns at most [N] item indices in order
    of non-increasing predicted score, none of them in the user's cached
    seen items when [exclude_seen] is set. *)
Theorem BPRMF_recommend_at_most_n_unseen_descending
    self user_id (N : Z) ex seen :
  (0 ≤ N)%Z →
  user_id < length (BPRMF.W self) →
  (ex = true →
   URM_train_relevantItems (cache (BPRMF.base self)) !! user_id = Some seen) →
  ∃ items scores,
    BPRMF.recommend self user_id (Some N) ex = Ok items ∧
    BPRMF.predictions self user_id = Ok scores ∧
    length items ≤ Z.to_nat N ∧
    (∀ i, i ∈ items → i < length scores) ∧
    (ex = true → ∀ i, i ∈ items → i ∉ seen) ∧
    descending scores items.
Proof.
  intros HN [scores Hsc]%predictions_lt Hseen.
  assert (BPRMF.recommend self user_id (Some N) ex =
            Ok (slice_to (Some N) (filtered_ranking scores ex seen false [])))
    as Hrun.
  { unfold BPRMF.recommend, BPRMF.top_predictions. rewrite Hsc.
    cbn [mbind result_bind]. rewrite <-filtered_ranking_mask.
    destruct ex; [|done]. unfold _filter_seen.
    specialize (Hseen eq_refl). apply getitem_Ok in Hseen. by rewrite Hseen. }
  eexists _, scores. split; [done|]. split; [done|].
  split; [by apply slice_to_length|].
  assert (∀ i, i ∈ slice_to (Some N) (filtered_ranking scores ex seen false [])
               → i < length scores ∧ (ex = true → i ∉ seen)) as Hin.
  { intros i Hi. eapply sublist_subseteq in Hi; [|apply slice_to_sublist].
    apply elem_of_filtered_ranking in Hi. tauto. }
  split; [intros i Hi; by apply Hin|].
  split; [intros Hex i Hi; by apply Hin|].
  eapply StronglySorted_sublist; [|apply flip_argsort_descending].
  etrans; [apply slice_to_sublist|apply filtered_ranking_sublist].
Qed.

Lemma BPRMF_recommend_at_most_n_unseen_descending_witness :
  ∃ items scores,
    BPRMF.recommend mf23 1 (Some 2%Z) true = Ok items ∧
    BPRMF.predictions mf23 1 = Ok scores ∧
    length items ≤ 2 ∧
    (∀ i, i ∈ items → i < length scores) ∧
    (true = true → ∀ i, i ∈ items → i ∉ [1; 2]) ∧
    descending scores items.
Proof.
  apply (BPRMF_recommend_at_most_n_unseen_descending mf23 1 2 true [1; 2]);
    [lia|simpl; lia|by vm_compute].
Defined.

Lemma mapM_result_fmap {A B} (f : A → result B) (g : A → B) (l : list A) :
  (∀ x, x ∈ l → f x = Ok (g x)) → mapM f l = Ok (g <$> l).
Proof.
  induction l as [|x l IH]; intros Hf; [done|]. cbn [mapM].
  rewrite (Hf x) by by left. cbn [mbind result_bind].
  rewrite IH by (intros y Hy; apply Hf; by right). done.
Qed.

(** X18: for a user with a row in [W], [predict] on a list of items
    returns the values that [prediction] returns for the items one by one,
    in the order of the list, and raises an [IndexError] when an item is
    outside the catalogue. *)
Theorem predict_is_itemwise_prediction self user_id rated_indices :
  user_id < length (BPRMF.W self) →
  BPRMF.predict self user_id rated_indices =
    mapM (BPRMF.prediction self user_id) rated_indices ∧
  ((∃ values, BPRMF.predict self user_id rated_indices = Ok values) ∨
   BPRMF.predict self user_id rated_indices = Raise IndexError).
Proof.
  intros [scores Hsc]%predictions_lt.
  unfold BPRMF.predict, BPRMF.prediction_list. rewrite Hsc.
  cbn [mbind result_bind].
  assert (mapM (BPRMF.prediction self user_id) rated_indices
          = mapM (index scores) rated_indices) as ->.
  { induction rated_indices as [|i l IH]; [done|]. cbn [mapM].
    rewrite IH. unfold BPRMF.prediction. by rewrite Hsc. }
  split; [done|].
  induction rated_indices as [|i l IH]; [left; by eexists|]. cbn [mapM].
  change (index scores i) with
    (match scores !! i with Some x => Ok x | None => Raise IndexError end).
  destruct (scores !! i); cbn [mbind result_bind]; [|by right].
  destruct IH as [[vs ->]| ->]; [left; by eexists|by right].
Qed.

Lemma predict_is_itemwise_prediction_witness :
  BPRMF.predict mf23 1 [2; 0] = mapM (BPRMF.prediction mf23 1) [2; 0] ∧
  BPRMF.predict mf23 1 [2; 0] = Ok [4%Q; 6%Q] ∧
  BPRMF.predict mf23 1 [2; 3] = Raise IndexError.
Proof.
  split; [|split; by vm_compute].
  apply (predict_is_itemwise_prediction mf23 1 [2; 0]). simpl. lia.
Defined.

(** ** [label] *)

Lemma mapM_result_ext {A B} (f g : A → result B) (l : list A) :
  (∀ x, x ∈ l → f x = g x) → mapM f l = mapM g l.
Proof.
  induction l as [|x l IH]; intros Hfg; [done|]. cbn [mapM].
  rewrite (Hfg x) by by left.
  rewrite IH by (intros y Hy; apply Hfg; by right). done.
Qed.

Lemma mapM_result_fmap_l {A B C} (f : B → result C) (g : A → B) (l : list A) :
  mapM f (g <$> l) = mapM (f ∘ g) l.
Proof.
  induction l as [|x l IH]; [done|]. rewrite fmap_cons. cbn [mapM].
  by rewrite IH.
Qed.

Lemma mapM_result_Ok {A B} (f : A → result B) (l : list A) ys :
  mapM f l = Ok ys →
  length ys = length l ∧
  ∀ i x, l !! i = Some x → ∃ y, ys !! i = Some y ∧ f x = Ok y.
Proof.
  revert ys. induction l as [|x l IH]; intros ys Hrun; cbn [mapM] in Hrun.
  - injection Hrun as <-. split; [done|]. by intros i x ?.
  - apply bind_Ok in Hrun as (y & Hy & Hrun).
    apply bind_Ok in Hrun as (ys' & [Hlen Hall]%IH & [= <-]).
    split; [simpl; lia|]. intros [|i] x' Hx'; simplify_eq/=.
    + by exists y.
    + by apply Hall.
Qed.

(** When every call can only fail with an [IndexError], so does the map,
    and it fails as soon as one call does. *)
Lemma mapM_result_IndexError {A B} (f : A → result B) (l : list A) :
  (∀ x e, f x = Raise e → e = IndexError) →
  (∃ x e, x ∈ l ∧ f x = Raise e) →
  mapM f l = Raise IndexError.
Proof.
  intros Hidx. induction l as [|x l IH]; intros (y & e & Hy & He).
  - by apply elem_of_nil in Hy.
  - cbn [mapM]. destruct (f x) as [b|e'] eqn:Hfx.
    + cbn [mbind result_bind]. rewrite IH; [done|].
      apply elem_of_cons in Hy as [->|Hy]; [congruence|]. by exists y, e.
    + by rewrite (Hidx x e' Hfx).
Qed.

Lemma mapM_result_cases {A B} (f : A → result B) (l : list A) :
  (∀ x e, f x = Raise e → e = IndexError) →
  (∃ ys, mapM f l = Ok ys) ∨ mapM f l = Raise IndexError.
Proof.
  intros Hidx. induction l as [|x l IH]; [left; by eexists|]. cbn [mapM].
  destruct (f x) as [b|e] eqn:Hfx; [|right; by rewrite (Hidx x e Hfx)].
  cbn [mbind result_bind].
  destruct IH as [[ys ->]| ->]; [left; by eexists|by right].
Qed.

Lemma predictions_IndexError self u e :
  BPRMF.predictions self u = Raise e → e = IndexError.
Proof.
  unfold BPRMF.predictions, index. cbv zeta.
  destruct (BPRMF.W self !! u); cbn [mbind result_bind]; [done|].
  by intros [= <-].
Qed.

Lemma prediction_IndexError self u i e :
  BPRMF.prediction self u i = Raise e → e = IndexError.
Proof.
  unfold BPRMF.prediction.
  destruct (BPRMF.predictions self u) as [scores|e'] eqn:Hsc.
  - unfold index. cbn [mbind result_bind].
    destruct (scores !! i); [done|]. by intros [= <-].
  - cbn [mbind result_bind]. intros [= <-]. by eapply predictions_IndexError.
Qed.

(** The loop of the mode ['user'] computes the prediction of every pair. *)
Lemma user_scores_loop_eq self pairs :
  ∀ curr scores,
    (∀ u, curr = Some u → BPRMF.predictions self u = Ok scores) →
    BPRMF.user_scores_loop self pairs curr scores =
      mapM (λ p, BPRMF.prediction self p.1 p.2) pairs.
Proof.
  set (f := λ p : nat * nat, BPRMF.prediction self p.1 p.2).
  induction pairs as [|[u i] pairs IH]; intros curr scores Hinv; [done|].
  cbn [BPRMF.user_scores_loop mapM].
  change (f (u, i)) with (BPRMF.prediction self u i). unfold BPRMF.prediction.
  destruct (decide (curr ≠ Some u)) as [Hne|Heq].
  - destruct (BPRMF.predictions self u) as [sc|e] eqn:Hsc; [|done].
    cbn [mbind result_bind]. destruct (index sc i); [|done].
    cbn [mbind result_bind]. rewrite (IH (Some u) sc); [done|].
    by intros u' [= <-].
  - apply dec_stable in Heq. rewrite (Hinv u Heq).
    cbn [mbind result_bind mret result_ret]. destruct (index scores i); [|done].
    cbn [mbind result_bind]. rewrite (IH (Some u) scores); [done|].
    intros u' [= <-]. by apply Hinv.
Qed.

Lemma position_lookup x l : x ∈ l → l !! position x l = Some x.
Proof.
  intros Hx. unfold position.
  destruct (list_find (λ y, y = x) l) as [[k y]|] eqn:Hfind.
  - apply list_find_Some in Hfind as (Hk & -> & _). done.
  - apply list_find_None in Hfind. rewrite Forall_forall in Hfind.
    by destruct (Hfind x Hx).
Qed.

Lemma elem_of_unique x ar : x ∈ unique ar ↔ x ∈ ar.
Proof. unfold unique. by rewrite merge_sort_Permutation, elem_of_remove_dups. Qed.

Lemma zip_fmap_fst_snd {A B C} (f : A → C) (l : list (A * B)) :
  zip (f <$> l.*1) l.*2 = (λ p, (f p.1, p.2)) <$> l.
Proof. induction l as [|[a b] l IH]; [done|]. csimpl. by rewrite IH. Qed.

(** The mode ['matrix'] computes the prediction of every pair as well. *)
Lemma matrix_scores_eq self pairs :
  BPRMF.filtered_scores self pairs BPRMF.matrix =
    mapM (λ p, BPRMF.prediction self p.1 p.2) pairs.
Proof.
  unfold BPRMF.filtered_scores, unique_inverse, BPRMF.predictions_rows.
  set (uniq := unique pairs.*1).
  destruct (decide (Forall (λ u, u < length (BPRMF.W self)) uniq)) as [Hok|Hbad].
  - set (g := λ u, match BPRMF.predictions self u with
                   | Ok s => s | Raise _ => [] end).
    assert (∀ u, u ∈ uniq → BPRMF.predictions self u = Ok (g u)) as Hg.
    { intros u Hu. rewrite Forall_forall in Hok.
      destruct (predictions_lt self u (Hok u Hu)) as [s Hs].
      unfold g. by rewrite Hs. }
    rewrite (mapM_result_fmap _ g) by done. cbn [mbind result_bind].
    rewrite zip_fmap_fst_snd, mapM_result_fmap_l.
    apply mapM_result_ext. intros [u i] Hp. simpl.
    assert (u ∈ uniq) as Hu.
    { apply elem_of_unique, list_elem_of_fmap. by exists (u, i). }
    assert (index (g <$> uniq) (position u uniq) = Ok (g u)) as ->.
    { apply index_Ok. by rewrite list_lookup_fmap, (position_lookup u uniq Hu). }
    unfold BPRMF.prediction. by rewrite (Hg u Hu).
  - apply not_Forall_Exists, Exists_exists in Hbad as (u & Hu & Hge);
      [|apply _].
    simpl in Hge.
    assert (length (BPRMF.W self) ≤ u) as Hge' by lia. clear Hge.
    rewrite (mapM_result_IndexError (BPRMF.predictions self) uniq).
    + cbn [mbind result_bind]. symmetry. apply mapM_result_IndexError.
      * intros p e. apply prediction_IndexError.
      * apply elem_of_unique, list_elem_of_fmap in Hu as ([u' i] & -> & Hp).
        exists (u', i), IndexError. split; [done|]. simpl in *.
        unfold BPRMF.prediction. by rewrite predictions_ge.
    + apply predictions_IndexError.
    + exists u, IndexError. split; [done|]. apply predictions_ge. lia.
Qed.

Lemma filtered_scores_eq self pairs mode :
  BPRMF.filtered_scores self pairs mode =
    mapM (λ p, BPRMF.prediction self p.1 p.2) pairs.
Proof.
  destruct mode; [|apply matrix_scores_eq].
  by apply user_scores_loop_eq.
Qed.

(** X19: [label] returns the same triplets and the same statistics in
    the mode ['user'], which computes the predictions user by user, and in
    the mode ['matrix'], which computes them for all users at once; when
    one of them raises, so does the other. *)
Theorem label_user_mode_agrees_with_matrix_mode
    self unlabeled_list binary_ratings exclude_seen p_most n_most :
  BPRMF.label self unlabeled_list binary_ratings exclude_seen p_most n_most
    BPRMF.user =
  BPRMF.label self unlabeled_list binary_ratings exclude_seen p_most n_most
    BPRMF.matrix.
Proof. unfold BPRMF.label. by rewrite !filtered_scores_eq. Qed.

(** What a run of [label] that does not raise returns, in terms of the
    scores of the pairs and of their ascending order. *)
Lemma label_Ok self unlabeled_list binary_ratings exclude_seen p_most n_most
    mode triplets m :
  BPRMF.label self unlabeled_list binary_ratings exclude_seen p_most n_most
    mode = Ok (triplets, m) →
  let pairs := BPRMF.nonzero unlabeled_list in
  ∃ fs,
    mapM (λ p, BPRMF.prediction self p.1 p.2) pairs = Ok fs ∧
    length fs = length pairs ∧
    let P := slice_from (- p_most) (argsort fs) in
    let N := slice_to (Some n_most) (argsort fs) in
    BPRMF.pos_labels m = length P ∧ BPRMF.neg_labels m = length N ∧
    BPRMF.total_labels m = length P + length N ∧
    BPRMF.pos_set m = list_to_set ((λ i, pairs !!! i) <$> P) ∧
    BPRMF.neg_set m = list_to_set ((λ i, pairs !!! i) <$> N) ∧
    triplets =
      sorted (((λ i, (pairs !!! i, if binary_ratings then 1%Q else 5%Q)) <$> P)
              ++ ((λ i, (pairs !!! i, if binary_ratings then 0%Q else 1%Q))
                  <$> N))
        (λ triplet, (triplet.1.1, triplet.1.2)).
Proof.
  unfold BPRMF.label, check_matrix. cbv zeta. rewrite filtered_scores_eq.
  intros Hrun. apply bind_Ok in Hrun as (fs & Hfs & Hrun).
  exists fs. split; [done|].
  split; [by apply mapM_result_Ok in Hfs as [? _]|].
  injection Hrun as <- <-. cbn. by destruct binary_ratings.
Qed.

Lemma slice_from_length {A} z (l : list A) :
  length (slice_from z l) = length l - clamp_index (length l) z.
Proof. unfold slice_from. by rewrite length_drop. Qed.

Lemma sorted_length `{Ordered K, Inhabited A} (l : list A) (key : A → K) :
  length (sorted l key) = length l.
Proof.
  unfold sorted. by rewrite length_fmap, (argsort_length (key <$> l)), length_fmap.
Qed.

Lemma sorted_Permutation `{Ordered K, Inhabited A} (l : list A) (key : A → K) :
  sorted l key ≡ₚ l.
Proof.
  unfold sorted. rewrite (argsort_Permutation (key <$> l)), length_fmap.
  by rewrite fmap_lookup_total_seq.
Qed.

(** X20: the numbers of labels that [label] returns, for [p_most] and
    [n_most] that are not negative and [k] unlabeled pairs: [n_most]
    negative ones, or [k] if there are fewer pairs; [p_most] positive ones,
    or [k] if there are fewer pairs, and also [k], every pair, for
    [p_most = 0], when the slice [[-p_most:]] is the whole array. The list
    of triplets holds one entry for each label. *)
Theorem label_counts self unlabeled_list binary_ratings exclude_seen
    p_most n_most mode triplets m :
  (0 ≤ p_most)%Z → (0 ≤ n_most)%Z →
  BPRMF.label self unlabeled_list binary_ratings exclude_seen p_most n_most
    mode = Ok (triplets, m) →
  let k := length (BPRMF.nonzero unlabeled_list) in
  BPRMF.pos_labels m =
    (if decide (p_most = 0%Z) then k else Z.to_nat p_most `min` k) ∧
  BPRMF.neg_labels m = Z.to_nat n_most `min` k ∧
  BPRMF.total_labels m = BPRMF.pos_labels m + BPRMF.neg_labels m ∧
  length triplets = BPRMF.total_labels m.
Proof.
  intros Hp Hn (fs & _ & Hlen & HP & HN & HT & _ & _ & ->)%label_Ok.
  cbv zeta in *. rewrite HT, HP, HN, sorted_length, length_app, !length_fmap.
  rewrite slice_from_length. cbn [slice_to]. rewrite length_take.
  rewrite (argsort_length fs), Hlen. unfold clamp_index.
  split_and!; [|..|done|done].
  - case_decide as Hp0; [subst; simpl; lia|].
    destruct (Z.ltb_spec (- p_most) 0); lia.
  - destruct (Z.ltb_spec n_most 0); lia.
Qed.

Lemma label_counts_witness :
  ∃ triplets m,
    BPRMF.label mf23 train23 false true 0 1 BPRMF.user = Ok (triplets, m) ∧
    (BPRMF.pos_labels m = 3 ∧ BPRMF.neg_labels m = 1 ∧
     BPRMF.total_labels m = BPRMF.pos_labels m + BPRMF.neg_labels m ∧
     length triplets = BPRMF.total_labels m).
Proof.
  eexists _, _. split; [vm_compute; reflexivity|].
  apply (label_counts mf23 train23 false true 0 1 BPRMF.user); [lia|lia|].
  vm_compute. reflexivity.
Defined.

Lemma elem_of_slice_from_argsort (fs : list Q) z i :
  i ∈ slice_from z (argsort fs) → i < length fs.
Proof.
  intros Hi. apply (elem_of_argsort fs).
  eapply sublist_subseteq; [apply sublist_drop|done].
Qed.

Lemma elem_of_slice_to_argsort (fs : list Q) z i :
  i ∈ slice_to z (argsort fs) → i < length fs.
Proof.
  intros Hi. apply (elem_of_argsort fs).
  eapply sublist_subseteq; [apply slice_to_sublist|done].
Qed.

(** The score at a position of the array of scores is the prediction for
    the pair at that position. *)
Lemma label_score_lookup self (pairs : list (nat * nat)) fs i x :
  mapM (λ p, BPRMF.prediction self p.1 p.2) pairs = Ok fs →
  i < length fs → fs !! i = Some x →
  BPRMF.prediction self (pairs !!! i).1 (pairs !!! i).2 = Ok x.
Proof.
  intros [Hlen Hall]%mapM_result_Ok Hi Hx.
  destruct (lookup_lt_is_Some_2 pairs i ltac:(lia)) as [q Hq].
  destruct (Hall i q Hq) as (y & Hy & Hpred).
  rewrite (list_lookup_total_correct _ _ _ Hq). congruence.
Qed.

(** X21: the pairs that [label] returns as positive are the best
    scored ones, and the pairs it returns as negative the worst scored
    ones: a pair of the unlabeled list that is not among the positive ones
    has at most the predicted score of every positive pair, and a pair that
    is not among the negative ones at least the score of every negative
    pair. *)
Theorem label_takes_the_extreme_scores self unlabeled_list binary_ratings
    exclude_seen p_most n_most mode triplets m :
  BPRMF.label self unlabeled_list binary_ratings exclude_seen p_most n_most
    mode = Ok (triplets, m) →
  ∀ labelled other,
    other ∈ BPRMF.nonzero unlabeled_list →
    (labelled ∈ BPRMF.pos_set m → other ∉ BPRMF.pos_set m →
     predicted_le self other labelled) ∧
    (labelled ∈ BPRMF.neg_set m → other ∉ BPRMF.neg_set m →
     predicted_le self labelled other).
Proof.
  intros (fs & Hfs & Hlen & _ & _ & _ & HP & HN & _)%label_Ok labelled other Hother.
  cbv zeta in *. set (pairs := BPRMF.nonzero unlabeled_list) in *.
  set (s := argsort fs) in *.
  assert (StronglySorted (before fs) s) as Hsorted by apply (argsort_sorted fs).
  assert (NoDup s) as Hnd by apply (argsort_NoDup fs).
  apply list_elem_of_lookup_1 in Hother as [j Hj].
  assert (j < length fs) as Hjlt by (rewrite Hlen; by eapply lookup_lt_Some).
  assert (j ∈ s) as Hjs by by apply (elem_of_argsort fs).
  assert (other = pairs !!! j) as Hoj
    by by rewrite (list_lookup_total_correct _ _ _ Hj).
  split.
  - intros Hpos Hnot. rewrite HP in Hpos, Hnot.
    apply elem_of_list_to_set, list_elem_of_fmap in Hpos as (i & Hli & Hi).
    assert (j ∉ slice_from (- p_most) s) as Hjn.
    { intros Hjp. apply Hnot, elem_of_list_to_set, list_elem_of_fmap.
      by exists j. }
    unfold slice_from in Hi, Hjn.
    apply (take_drop_NoDup_partition s _ j Hnd Hjs) in Hjn.
    rewrite <-(take_drop (clamp_index (length s) (- p_most)) s) in Hsorted.
    pose proof (StronglySorted_app_1_elem_of _ _ _ _ _ Hsorted Hjn Hi)
      as (y & x & Hy & Hx & Hle & _).
    assert (i < length fs) as Hilt by by eapply lookup_lt_Some.
    exists y, x. rewrite Hoj, Hli. split_and!.
    + by eapply label_score_lookup.
    + by eapply label_score_lookup.
    + by apply Qle_bool_iff.
  - intros Hneg Hnot. rewrite HN in Hneg, Hnot.
    apply elem_of_list_to_set, list_elem_of_fmap in Hneg as (i & Hli & Hi).
    assert (j ∉ slice_to (Some n_most) s) as Hjn.
    { intros Hjp. apply Hnot, elem_of_list_to_set, list_elem_of_fmap.
      by exists j. }
    cbn [slice_to] in Hi, Hjn.
    assert (j ∈ drop (clamp_index (length s) n_most) s) as Hjd.
    { destruct (decide (j ∈ drop (clamp_index (length s) n_most) s)) as [|Hn];
        [done|].
      by apply (take_drop_NoDup_partition s _ j Hnd Hjs) in Hn. }
    rewrite <-(take_drop (clamp_index (length s) n_most) s) in Hsorted.
    pose proof (StronglySorted_app_1_elem_of _ _ _ _ _ Hsorted Hi Hjd)
      as (x & y & Hx & Hy & Hle & _).
    assert (i < length fs) as Hilt by by eapply lookup_lt_Some.
    exists x, y. rewrite Hoj, Hli. split_and!.
    + by eapply label_score_lookup.
    + by eapply label_score_lookup.
    + by apply Qle_bool_iff.
Qed.

Lemma label_takes_the_extreme_scores_witness :
  predicted_le mf23 (0, 0) (1, 2) ∧ predicted_le mf23 (1, 1) (0, 0).
Proof.
  destruct (BPRMF.label mf23 train23 false true 1 1 BPRMF.user)
    as [[triplets m]|e] eqn:Hrun; [|by vm_compute in Hrun].
  pose proof (label_takes_the_extreme_scores mf23 train23 false true 1 1
                BPRMF.user triplets m Hrun) as Hextreme.
  vm_compute in Hrun. injection Hrun as <- <-. split.
  - apply (Hextreme (1, 2) (0, 0)); apply (bool_decide_unpack _); by vm_compute.
  - apply (Hextreme (1, 1) (0, 0)); apply (bool_decide_unpack _); by vm_compute.
Defined.

(** The positions that [nonzero] lists are distinct. *)
Lemma row_entries_cols i (r : list Q) :
  ∀ o,
    let es := omap (λ '(j, x), if Qeq_bool x 0 then None else Some (i, j, x))
                (imap (λ j x, (o + j, x)) r) in
    Forall (λ e, sp_row e = i ∧ o ≤ sp_col e) es ∧ NoDup (sp_col <$> es).
Proof.
  induction r as [|a r IH]; intros o; cbv zeta.
  - split; constructor.
  - rewrite imap_cons.
    rewrite (imap_ext _ (λ j x, (S o + j, x)))
      by (intros; unfold compose; simpl; f_equal; lia).
    destruct (IH (S o)) as [Hall Hnd]. cbv zeta in Hall, Hnd. csimpl.
    rewrite Nat.add_0_r.
    assert (Forall (λ e, sp_row e = i ∧ o ≤ sp_col e)
              (omap (λ '(j, x), if Qeq_bool x 0 then None else Some (i, j, x))
                 (imap (λ j x, (S (o + j), x)) r))) as Hall'.
    { eapply Forall_impl; [exact Hall|]. simpl. intros e [? ?]. split; [done|lia]. }
    destruct (Qeq_bool a 0); [done|]. csimpl. split.
    + constructor; [done|exact Hall'].
    + constructor; [|done]. intros Hin.
      apply list_elem_of_fmap in Hin as (e & He & Hin).
      rewrite Forall_forall in Hall. apply Hall in Hin as [_ Hle].
      unfold sp_col in *. simpl in *. lia.
Qed.

Lemma dense_entries_from_NoDup (W : ndarray2 Q) :
  ∀ o,
    let es := mjoin (imap (λ i r,
                omap (λ '(j, x), if Qeq_bool x 0 then None else Some (o + i, j, x))
                  (imap pair r)) W) in
    Forall (λ e, o ≤ sp_row e) es ∧
    NoDup ((λ e, (sp_row e, sp_col e)) <$> es).
Proof.
  induction W as [|r W IH]; intros o; cbv zeta.
  - split; constructor.
  - rewrite imap_cons. csimpl.
    rewrite (imap_ext _ (λ i r,
               omap (λ '(j, x), if Qeq_bool x 0 then None
                                else Some (S o + i, j, x)) (imap pair r)));
      [|intros i x _; simpl;
        by replace (o + S i) with (S (o + i)) by lia].
    destruct (IH (S o)) as [Hall Hnd]. cbv zeta in Hall, Hnd.
    destruct (row_entries_cols (o + 0) r 0) as [Hrow Hcols].
    cbv zeta in Hrow, Hcols. cbn [Nat.add] in Hrow, Hcols.
    rewrite Nat.add_0_r in *. split.
    + apply Forall_app. split.
      * eapply Forall_impl; [exact Hrow|]. simpl. intros e [-> _]. done.
      * eapply Forall_impl; [exact Hall|]. simpl. intros e ?. lia.
    + rewrite fmap_app. apply NoDup_app. split_and!.
      * apply (NoDup_fmap_1 snd). rewrite <-list_fmap_compose. exact Hcols.
      * intros p Hp Hp'.
        apply list_elem_of_fmap in Hp as (e & -> & He).
        apply list_elem_of_fmap in Hp' as (e' & Heq & He').
        rewrite Forall_forall in Hrow, Hall.
        apply Hrow in He as [He _]. apply Hall in He'.
        injection Heq as Heq _. lia.
      * exact Hnd.
Qed.

Lemma nonzero_NoDup M : NoDup (BPRMF.nonzero M).
Proof.
  unfold BPRMF.nonzero, dense_entries.
  by destruct (dense_entries_from_NoDup (toarray M) 0) as [_ Hnd].
Qed.

(** X22: for [p_most >= 1] and [n_most >= 1], [label] returns some pair
    both as a positive and as a negative label exactly when the unlabeled
    list is not empty and has fewer than [p_most + n_most] pairs. *)
Theorem label_labels_a_pair_twice_iff self unlabeled_list binary_ratings
    exclude_seen p_most n_most mode triplets m :
  (1 ≤ p_most)%Z → (1 ≤ n_most)%Z →
  BPRMF.label self unlabeled_list binary_ratings exclude_seen p_most n_most
    mode = Ok (triplets, m) →
  let k := length (BPRMF.nonzero unlabeled_list) in
  (∃ pair, pair ∈ BPRMF.pos_set m ∧ pair ∈ BPRMF.neg_set m) ↔
  0 < k ∧ k < Z.to_nat p_most + Z.to_nat n_most.
Proof.
  intros Hp Hn (fs & Hfs & Hlen & _ & _ & _ & HP & HN & _)%label_Ok.
  cbv zeta in *. set (pairs := BPRMF.nonzero unlabeled_list) in *.
  set (s := argsort fs) in *.
  assert (NoDup s) as Hnd by apply (argsort_NoDup fs).
  assert (length s = length pairs) as Hs
    by (unfold s; by rewrite (argsort_length fs)).
  assert (clamp_index (length s) (- p_most)
          = length pairs - Z.to_nat p_most) as Hcp.
  { unfold clamp_index. rewrite Hs. destruct (Z.ltb_spec (- p_most) 0); lia. }
  assert (clamp_index (length s) n_most
          = Z.to_nat n_most `min` length pairs) as Hcn.
  { unfold clamp_index. rewrite Hs. destruct (Z.ltb_spec n_most 0); lia. }
  rewrite HP, HN. unfold slice_from. cbn [slice_to]. rewrite Hcp, Hcn.
  split.
  - intros (pair & Hpos & Hneg).
    apply elem_of_list_to_set, list_elem_of_fmap in Hpos as (i & Hpi & Hi).
    apply elem_of_list_to_set, list_elem_of_fmap in Hneg as (j & Hpj & Hj).
    assert (i < length pairs ∧ j < length pairs) as [Hilt Hjlt].
    { rewrite <-Hlen. split; apply (elem_of_argsort fs).
      - eapply sublist_subseteq; [apply sublist_drop|done].
      - eapply sublist_subseteq; [apply sublist_take|done]. }
    assert (i = j) as ->.
    { eapply NoDup_lookup; [apply (nonzero_NoDup unlabeled_list)|..].
      - apply list_lookup_lookup_total_lt, Hilt.
      - fold pairs. rewrite <-Hpi, Hpj.
        apply list_lookup_lookup_total_lt, Hjlt. }
    split; [lia|].
    destruct (decide (length pairs < Z.to_nat p_most + Z.to_nat n_most))
      as [|Hge]; [done|].
    assert (j ∈ take (length pairs - Z.to_nat p_most) s) as Hj'.
    { eapply sublist_subseteq; [|exact Hj].
      replace (Z.to_nat n_most `min` length pairs)
        with (Z.to_nat n_most `min` (length pairs - Z.to_nat p_most)) by lia.
      rewrite <-take_take. apply sublist_take. }
    apply (take_drop_NoDup_partition s _ j Hnd) in Hj'; [done|].
    eapply sublist_subseteq; [apply sublist_drop|done].
  - intros [Hk Hlt].
    set (c := length pairs - Z.to_nat p_most).
    destruct (lookup_lt_is_Some_2 s c ltac:(lia)) as [i Hi].
    exists (pairs !!! i). split; apply elem_of_list_to_set, list_elem_of_fmap;
      exists i; (split; [done|]).
    + apply list_elem_of_lookup. exists 0.
      by rewrite lookup_drop, Nat.add_0_r.
    + apply list_elem_of_lookup. exists c.
      rewrite lookup_take_lt by lia. done.
Qed.

Lemma label_labels_a_pair_twice_iff_witness :
  ∃ triplets m,
    BPRMF.label mf23 train23 true true 2 2 BPRMF.matrix = Ok (triplets, m) ∧
    ((∃ pair, pair ∈ BPRMF.pos_set m ∧ pair ∈ BPRMF.neg_set m) ↔
     0 < 3 ∧ 3 < 2 + 2).
Proof.
  eexists _, _. split; [vm_compute; reflexivity|].
  eapply (label_labels_a_pair_twice_iff mf23 train23 true true 2 2
            BPRMF.matrix); [lia|lia|].
  vm_compute. reflexivity.
Defined.

Lemma StronglySorted_fmap_2 {A B} (R : relation B) (f : A → B) l :
  StronglySorted (λ x y, R (f x) (f y)) l → StronglySorted R (f <$> l).
Proof.
  induction 1 as [|x l Hl IH Hx]; csimpl; constructor; [done|].
  apply Forall_fmap. by apply Forall_forall; rewrite Forall_forall in Hx.
Qed.

(** [sorted] puts the elements in ascending order of their keys. *)
Lemma sorted_StronglySorted `{Ordered K, Inhabited A}
    (l : list A) (key : A → K) :
  StronglySorted (λ a b, fle (key a) (key b) = true) (sorted l key).
Proof.
  unfold sorted. apply StronglySorted_fmap_2.
  eapply StronglySorted_impl; [|apply (argsort_sorted (key <$> l))].
  intros i j (x & y & Hi & Hj & Hle & _).
  rewrite list_lookup_fmap in Hi, Hj.
  destruct (l !! i) as [a|] eqn:Ha; [|done].
  destruct (l !! j) as [b|] eqn:Hb; [|done]. simplify_eq/=.
  by rewrite (list_lookup_total_correct _ _ _ Ha),
    (list_lookup_total_correct _ _ _ Hb).
Qed.

(** X23: the triplets that [label] returns are in ascending order of
    [(user, item)]; they are the positive pairs with the rating 5 (1 for
    binary ratings) and the negative pairs with the rating 1 (0 for binary
    ratings), and every labelled pair is a nonzero position of the
    unlabeled list. *)
Theorem label_returns_sorted_triplets self unlabeled_list binary_ratings
    exclude_seen p_most n_most mode triplets m :
  BPRMF.label self unlabeled_list binary_ratings exclude_seen p_most n_most
    mode = Ok (triplets, m) →
  StronglySorted (λ t t', pair_le t.1 t'.1 = true) triplets ∧
  (∀ pair rating,
     (pair, rating) ∈ triplets ↔
     (pair ∈ BPRMF.pos_set m ∧ rating = if binary_ratings then 1%Q else 5%Q) ∨
     (pair ∈ BPRMF.neg_set m ∧ rating = if binary_ratings then 0%Q else 1%Q)) ∧
  (∀ pair, pair ∈ BPRMF.pos_set m ∨ pair ∈ BPRMF.neg_set m →
           pair ∈ BPRMF.nonzero unlabeled_list).
Proof.
  intros (fs & Hfs & Hlen & _ & _ & _ & HP & HN & ->)%label_Ok.
  cbv zeta in *. set (pairs := BPRMF.nonzero unlabeled_list) in *.
  split_and!.
  - eapply StronglySorted_impl; [|apply sorted_StronglySorted].
    intros [[u i] r] [[u' i'] r']. done.
  - intros pair rating. rewrite sorted_Permutation, elem_of_app, HP, HN.
    rewrite !elem_of_list_to_set, !list_elem_of_fmap. split.
    + intros [(i & [= -> ->] & Hi)|(i & [= -> ->] & Hi)]; [left|right];
        (split; [by exists i|done]).
    + intros [[(i & -> & Hi) ->]|[(i & -> & Hi) ->]]; [left|right];
        by exists i.
  - assert (∀ i, i < length fs → pairs !!! i ∈ pairs) as Hin.
    { intros i Hi. apply list_elem_of_lookup_total_2. lia. }
    rewrite HP, HN. intros pair [Hp|Hp];
      apply elem_of_list_to_set, list_elem_of_fmap in Hp as (i & -> & Hi);
      apply Hin.
    + by eapply elem_of_slice_from_argsort.
    + by eapply elem_of_slice_to_argsort.
Qed.

Lemma label_returns_sorted_triplets_witness :
  ∃ triplets m,
    BPRMF.label mf23 train23 false true 1 1 BPRMF.user = Ok (triplets, m) ∧
    triplets = [(1, 1, 1%Q); (1, 2, 5%Q)] ∧
    StronglySorted (λ t t', pair_le t.1 t'.1 = true) triplets.
Proof.
  eexists _, _. split; [vm_compute; reflexivity|]. split; [done|].
  eapply (label_returns_sorted_triplets mf23 train23 false true 1 1 BPRMF.user).
  vm_compute. reflexivity.
Defined.

(** ** [_data_to_dict] and [test] *)

Lemma dict_append_keys d u i :
  (dict_append d u i).*1 = if decide (u ∈ d.*1) then d.*1 else d.*1 ++ [u].
Proof.
  induction d as [|[k v] d IH]; [done|]. cbn [dict_append].
  destruct (decide (k = u)) as [->|Hne]; csimpl.
  - rewrite decide_True; [done|]. by left.
  - rewrite IH. destruct (decide (u ∈ d.*1)) as [Hin|Hin].
    + rewrite decide_True; [done|]. by right.
    + rewrite decide_False; [done|]. by intros [?|?]%elem_of_cons.
Qed.

Lemma elem_of_dict_append d u i k v :
  NoDup d.*1 →
  (k, v) ∈ dict_append d u i ↔
  (k ≠ u ∧ (k, v) ∈ d) ∨
  (k = u ∧ ((∃ v0, (u, v0) ∈ d ∧ v = v0 ++ [i]) ∨ ((u ∉ d.*1) ∧ v = [i]))).
Proof.
  induction d as [|[k' v'] d IH]; intros Hnd.
  - cbn [dict_append]. rewrite list_elem_of_singleton. split.
    + intros [= -> ->]. right. split; [done|]. right. split; [|done].
      by intros ?%elem_of_nil.
    + intros [[_ ?%elem_of_nil]|[-> [(v0 & ?%elem_of_nil & _)|[_ ->]]]]; done.
  - csimpl in Hnd. apply NoDup_cons in Hnd as [Hk' Hnd]. cbn [dict_append].
    destruct (decide (k' = u)) as [->|Hne].
    + rewrite !elem_of_cons. split.
      * intros [[= -> ->]|Hin].
        -- right. split; [done|]. left. exists v'. split; [by left|done].
        -- left. split; [|by right]. intros ->. apply Hk'.
           apply list_elem_of_fmap. by exists (u, v).
      * intros [[Hku [[= ? ?]|Hin]]|[-> [(v0 & Hv0 & ->)|[Hnot ->]]]].
        -- done.
        -- by right.
        -- left. apply elem_of_cons in Hv0 as [[= ->]|Hv0]; [done|].
           destruct Hk'. apply list_elem_of_fmap. by exists (u, v0).
        -- destruct Hnot. csimpl. by left.
    + rewrite !elem_of_cons, (IH Hnd). split.
      * intros [[= -> ->]|[[Hku Hin]|[-> Hcase]]].
        -- left. split; [done|by left].
        -- left. split; [done|by right].
        -- right. split; [done|].
           destruct Hcase as [(v0 & Hv0 & ->)|[Hnot ->]].
           ++ left. exists v0. split; [by right|done].
           ++ right. split; [|done]. csimpl.
              by intros [?|?]%elem_of_cons.
      * intros [[Hku [[= -> ->]|Hin]]|[-> Hcase]].
        -- by left.
        -- right. left. done.
        -- right. right. split; [done|].
           destruct Hcase as [(v0 & Hv0 & ->)|[Hnot ->]].
           ++ apply elem_of_cons in Hv0 as [[= ? ?]|Hv0]; [done|].
              left. by exists v0.
           ++ right. split; [|done]. csimpl in Hnot.
              intros Hin. apply Hnot. by right.
Qed.

Lemma items_of_snoc l u i k :
  items_of (l ++ [(u, i)]) k =
    if decide (k = u) then items_of l k ++ [i] else items_of l k.
Proof.
  unfold items_of. rewrite filter_app, fmap_app, filter_cons, filter_nil.
  simpl. destruct (decide (u = k)) as [->|Hne].
  - by rewrite decide_True.
  - rewrite decide_False by done. by rewrite app_nil_r.
Qed.

Lemma items_of_nil_iff l u : items_of l u = [] ↔ u ∉ l.*1.
Proof.
  unfold items_of. split.
  - intros Hnil Hin. apply list_elem_of_fmap in Hin as ([u' i] & -> & Hin).
    apply fmap_nil_inv in Hnil.
    assert ((u', i) ∈ filter (λ p : nat * nat, p.1 = (u', i).1) l) as Hf
      by by apply list_elem_of_filter.
    rewrite Hnil in Hf. by apply elem_of_nil in Hf.
  - intros Hnot. destruct (filter _ l) as [|[u' i] f] eqn:Hf; [done|].
    assert ((u', i) ∈ filter (λ p : nat * nat, p.1 = u) l) as Hin
      by (rewrite Hf; by left).
    apply list_elem_of_filter in Hin as [Hu Hin]. simpl in Hu. subst u'.
    destruct Hnot. apply list_elem_of_fmap. by exists (u, i).
Qed.

Lemma dict_of_append d l u i :
  dict_of d l → dict_of (dict_append d u i) (l ++ [(u, i)]).
Proof.
  intros [Hnd Hd]. split.
  - rewrite dict_append_keys. case_decide as Hin; [done|].
    apply NoDup_app. split_and!; [done| |apply NoDup_singleton].
    intros k Hk ->%list_elem_of_singleton. done.
  - intros k v. rewrite (elem_of_dict_append _ _ _ _ _ Hnd), items_of_snoc.
    assert (u ∈ d.*1 ↔ items_of l u ≠ []) as Hkey.
    { split.
      - intros ([u' v0] & -> & Hin)%list_elem_of_fmap.
        apply Hd in Hin as [-> Hne]. done.
      - intros Hne. apply list_elem_of_fmap. exists (u, items_of l u).
        split; [done|]. by apply Hd. }
    split.
    + intros [[Hku Hin]|[-> [(v0 & Hv0 & ->)|[Hnot ->]]]].
      * rewrite decide_False by done. by apply Hd.
      * rewrite decide_True by done. apply Hd in Hv0 as [-> _].
        split; [done|]. by destruct (items_of l u).
      * rewrite decide_True by done.
        destruct (decide (items_of l u = [])) as [->|Hnn]; [done|].
        destruct Hnot. by apply Hkey.
    + intros [-> Hne]. destruct (decide (k = u)) as [->|Hku].
      * right. split; [done|].
        destruct (decide (items_of l u = [])) as [Hnil|Hnn].
        -- right. rewrite Hnil. split; [|done]. rewrite Hkey. tauto.
        -- left. exists (items_of l u). split; [|done]. by apply Hd.
      * left. split; [done|]. by apply Hd.
Qed.

Lemma data_to_dict_fold data :
  ∀ d (items : gset nat) l,
    dict_of d l → items = list_to_set l.*2 →
    let r := foldl (λ (acc : list (nat * list nat) * gset nat) '(user', item),
                      (dict_append acc.1 user' item, {[item]} ∪ acc.2))
               (d, items) data in
    dict_of r.1 (l ++ data) ∧ r.2 = list_to_set (l ++ data).*2.
Proof.
  induction data as [|[u i] data IH]; intros d items l Hd Hitems; cbv zeta.
  - simpl. by rewrite app_nil_r.
  - cbn [foldl fst snd].
    replace (l ++ (u, i) :: data) with ((l ++ [(u, i)]) ++ data)
      by by rewrite <-app_assoc.
    apply IH; [by apply dict_of_append|].
    rewrite Hitems, fmap_app, list_to_set_app_L. csimpl.
    by rewrite (right_id_L ∅ (∪)), (comm_L (∪)).
Qed.

(** X24: [_data_to_dict] returns a dictionary with one key for each
    user of the data, whose value lists the items of the user's pairs in
    the order of the data, with repetitions, together with the set of these
    users and the set of all items. *)
Theorem data_to_dict_groups_items_by_user data :
  let r := BPRMF._data_to_dict data in
  NoDup r.1.1.*1 ∧
  (∀ u v, (u, v) ∈ r.1.1 ↔ u ∈ data.*1 ∧ v = items_of data u) ∧
  r.1.2 = list_to_set data.*1 ∧
  r.2 = list_to_set data.*2.
Proof.
  cbv zeta. unfold BPRMF._data_to_dict.
  destruct (data_to_dict_fold data [] ∅ []) as [[Hnd Hd] Hitems].
  { split; [constructor|]. intros u v. split; [by intros ?%elem_of_nil|].
    by intros [-> ?]. }
  { done. }
  cbv zeta in *. rewrite app_nil_l in *.
  destruct (foldl _ _ data) as [d items]. cbn [fst snd] in *.
  assert (∀ u v, (u, v) ∈ d ↔ u ∈ data.*1 ∧ v = items_of data u) as Hd'.
  { intros u v. rewrite Hd. split.
    - intros [-> Hne]. split; [|done].
      destruct (decide (u ∈ data.*1)) as [|Hnot]; [done|].
      by apply items_of_nil_iff in Hnot.
    - intros [Hu ->]. split; [done|]. by intros Hnil%items_of_nil_iff. }
  split_and!; [done|done| |done].
  apply set_eq. intros u. rewrite !elem_of_list_to_set. split.
  - intros ([u' v] & -> & Hin)%list_elem_of_fmap. by apply Hd' in Hin as [? _].
  - intros Hu. apply list_elem_of_fmap. exists (u, items_of data u).
    split; [done|]. by apply Hd'.
Qed.

Lemma data_to_dict_keys data u v :
  (u, v) ∈ (BPRMF._data_to_dict data).1.1 → u ∈ data.*1.
Proof.
  unfold BPRMF._data_to_dict.
  destruct (data_to_dict_fold data [] ∅ []) as [[Hnd Hd] _].
  { split; [constructor|]. intros u' v'. split; [by intros ?%elem_of_nil|].
    by intros [-> ?]. }
  { done. }
  cbv zeta in *. rewrite app_nil_l in *.
  destruct (foldl _ _ data) as [d items]. cbn [fst snd] in *.
  intros [-> Hne]%Hd.
  destruct (decide (u ∈ data.*1)) as [|Hnot]; [done|].
  by apply items_of_nil_iff in Hnot.
Qed.

Lemma test_users_loop_skips self d :
  (∀ u v, (u, v) ∈ d → u ∉ BPRMF._train_users self) →
  ∀ auc_values, BPRMF.test_users_loop self d auc_values = Ok auc_values.
Proof.
  induction d as [|[u v] d IH]; intros Hd auc_values; [done|].
  cbn [BPRMF.test_users_loop].
  rewrite bool_decide_eq_false_2 by (apply (Hd u v); by left).
  apply IH. intros u' v' Hin. apply (Hd u' v'). by right.
Qed.

(** X25: [test] ignores the users that are not in [_train_users]; when
    no user of the test data is in it, as for the empty set that the
    constructor assigns, no AUC value is collected and [test] returns the
    mean of the empty list, [nan]. *)
Theorem test_without_training_users_is_nan self test_data :
  (∀ u, u ∈ test_data.*1 → u ∉ BPRMF._train_users self) →
  BPRMF.test self test_data = Ok None.
Proof.
  intros Hnone. unfold BPRMF.test.
  pose proof (data_to_dict_keys test_data) as Hkeys.
  destruct (BPRMF._data_to_dict test_data) as [[d users] items].
  cbn [fst] in Hkeys. rewrite test_users_loop_skips; [done|].
  intros u v Hin. by apply Hnone, (Hkeys u v).
Qed.

Lemma test_without_training_users_is_nan_witness :
  BPRMF.test mf23 [(0, 1); (1, 2); (0, 2)] = Ok None.
Proof.
  apply (test_without_training_users_is_nan mf23 [(0, 1); (1, 2); (0, 2)]).
  intros u _. apply not_elem_of_empty.
Defined.

Lemma Qnat_S n : (Qnat (S n) == Qnat n + 1)%Q.
Proof.
  unfold Qnat. rewrite Nat2Z.inj_succ, <-Z.add_1_r, inject_Z_plus. reflexivity.
Qed.

Lemma Qnat_nonneg n : (0 <= Qnat n)%Q.
Proof. unfold Qnat, Qle. simpl. lia. Qed.

Lemma Qnat_pos n : 0 < n → (0 < Qnat n)%Q.
Proof. unfold Qnat, Qlt. simpl. lia. Qed.

Lemma Qnat_le n m : n ≤ m → (Qnat n <= Qnat m)%Q.
Proof. unfold Qnat. rewrite <-Zle_Qle. lia. Qed.

(** The counters of the loops of [test]: [auc_for_user] counts some of the
    [n] comparisons. *)
Lemma neg_items_loop_bounds self u predictions test_items pos_item neg_items :
  ∀ n auc n' auc',
    BPRMF.neg_items_loop self u predictions test_items pos_item neg_items
      n auc = Ok (n', auc') →
    (0 <= auc)%Q → (auc <= Qnat n)%Q →
    (0 <= auc')%Q ∧ (auc' <= Qnat n')%Q.
Proof.
  induction neg_items as [|neg neg_items IH]; intros n auc n' auc' Hrun H0 Hle;
    cbn [BPRMF.neg_items_loop] in Hrun.
  - by injection Hrun as <- <-.
  - case_bool_decide; [|by eapply IH].
    apply bind_Ok in Hrun as (seen & _ & Hrun).
    case_bool_decide; [|by eapply IH].
    apply bind_Ok in Hrun as (p & _ & Hrun).
    apply bind_Ok in Hrun as (q & _ & Hrun).
    apply IH in Hrun; [done|..]; rewrite ?Nat.add_1_r, ?Qnat_S;
      destruct (Qlt_le_dec q p).
    + apply Qle_trans with auc; [done|].
      rewrite <-(Qplus_0_r auc) at 1. by apply Qplus_le_r.
    + done.
    + by apply Qplus_le_l.
    + apply Qle_trans with (Qnat n); [done|].
      rewrite <-(Qplus_0_r (Qnat n)) at 1. by apply Qplus_le_r.
Qed.

Lemma pos_items_loop_bounds self u predictions test_items pos_items :
  ∀ n auc n' auc',
    BPRMF.pos_items_loop self u predictions test_items pos_items n auc
      = Ok (n', auc') →
    (0 <= auc)%Q → (auc <= Qnat n)%Q →
    (0 <= auc')%Q ∧ (auc' <= Qnat n')%Q.
Proof.
  induction pos_items as [|pos pos_items IH]; intros n auc n' auc' Hrun H0 Hle;
    cbn [BPRMF.pos_items_loop] in Hrun.
  - by injection Hrun as <- <-.
  - case_bool_decide; [|by eapply IH].
    apply bind_Ok in Hrun as ([n1 auc1] & Hneg & Hrun).
    apply neg_items_loop_bounds in Hneg as [? ?]; [|done..].
    by eapply IH.
Qed.

Lemma test_users_loop_bounds self d :
  ∀ auc_values values,
    BPRMF.test_users_loop self d auc_values = Ok values →
    Forall in_unit_interval auc_values → Forall in_unit_interval values.
Proof.
  induction d as [|[u v] d IH]; intros auc_values values Hrun Hall;
    cbn [BPRMF.test_users_loop] in Hrun.
  - by injection Hrun as <-.
  - case_bool_decide; [|by eapply IH].
    apply bind_Ok in Hrun as (predictions & _ & Hrun).
    apply bind_Ok in Hrun as ([n auc] & Hpos & Hrun).
    apply pos_items_loop_bounds in Hpos as [H0 Hle];
      [|done|apply Qnat_nonneg].
    case_decide as Hn; [|by eapply IH].
    eapply IH; [done|]. apply Forall_app. split; [done|].
    apply Forall_singleton. pose proof (Qnat_pos n Hn). split.
    + apply Qle_shift_div_l; [done|]. by rewrite Qmult_0_l.
    + apply Qle_shift_div_r; [done|]. by rewrite Qmult_1_l.
Qed.

Lemma Qsum_bounds l :
  Forall in_unit_interval l →
  (0 <= Qsum l)%Q ∧ (Qsum l <= Qnat (length l))%Q.
Proof.
  induction 1 as [|x l [H0 H1] _ [IH0 IH1]]; [done|].
  cbn [Qsum foldr length]. fold (Qsum l). rewrite Qnat_S. split.
  - rewrite <-(Qplus_0_r 0). by apply Qplus_le_compat.
  - rewrite (Qplus_comm (Qnat _)). by apply Qplus_le_compat.
Qed.

(** X26: a value that [test] returns, when it is a number, lies between
    0 and 1. *)
Theorem test_returns_a_share self test_data auc :
  BPRMF.test self test_data = Ok (Some auc) → in_unit_interval auc.
Proof.
  unfold BPRMF.test.
  destruct (BPRMF._data_to_dict test_data) as [[d users] items].
  intros Hrun. apply bind_Ok in Hrun as (values & Hloop & Hmean).
  apply test_users_loop_bounds in Hloop; [|constructor].
  destruct values as [|x values]; [done|]. injection Hmean as <-.
  apply Qsum_bounds in Hloop as [H0 Hle].
  assert (0 < Qnat (length (x :: values)))%Q as Hpos
    by (apply Qnat_pos; simpl; lia).
  split.
  - apply Qle_shift_div_l; [done|]. by rewrite Qmult_0_l.
  - apply Qle_shift_div_r; [done|]. by rewrite Qmult_1_l.
Qed.

Lemma test_returns_a_share_witness :
  BPRMF.test mf23_trained [(1, 0); (0, 1)] = Ok (Some (1 # 2)%Q) ∧
  in_unit_interval (1 # 2).
Proof.
  assert (BPRMF.test mf23_trained [(1, 0); (0, 1)] = Ok (Some (1 # 2)%Q))
    as Hrun by by vm_compute.
  split; [done|].
  by apply (test_returns_a_share mf23_trained [(1, 0); (0, 1)]).
Defined.
